(** * TurbuStat PCA pipeline: a shallow embedding of
      [turbustat/statistics/pca/pca.py] and the properties of its
      mode selection, gamma correction, fitting preconditions, sonic
      length and eigenvalue distance.

    Numbers.  numpy's float64 values are modelled by [NP.npfloat]: a
    finite value is idealised as a real number (rounding and overflow
    are not modelled), and the three special values NaN, +inf, -inf are
    kept, with the IEEE rules for them (signed zeros are not
    distinguished: a zero divisor counts as +0). *)

From Stdlib Require Import String.
From Stdlib Require Import Reals Lra Lia ZArith List Bool Arith.
From Stdlib Require Import Permutation Sorted.
Import ListNotations.

Set Implicit Arguments.

(* ================================================================= *)
(** ** numpy scalars and 1-D arrays *)

Module NP.

Local Open Scope R_scope.

Inductive npfloat : Type :=
| Fin (r : R)
| NaN
| PInf
| NInf.

Definition Rltb (x y : R) : bool := if Rlt_dec x y then true else false.
Definition Rleb (x y : R) : bool := if Rle_dec x y then true else false.
Definition Reqb (x y : R) : bool := if Req_dec_T x y then true else false.

Definition fneg (a : npfloat) : npfloat :=
  match a with
  | Fin x => Fin (- x)
  | NaN => NaN
  | PInf => NInf
  | NInf => PInf
  end.

Definition fadd (a b : npfloat) : npfloat :=
  match a, b with
  | NaN, _ | _, NaN => NaN
  | Fin x, Fin y => Fin (x + y)
  | PInf, NInf | NInf, PInf => NaN
  | PInf, _ | _, PInf => PInf
  | NInf, _ | _, NInf => NInf
  end.

Definition fsub (a b : npfloat) : npfloat :=
  match a, b with
  | NaN, _ | _, NaN => NaN
  | Fin x, Fin y => Fin (x - y)
  | PInf, PInf | NInf, NInf => NaN
  | PInf, _ | _, NInf => PInf
  | NInf, _ | _, PInf => NInf
  end.

(** An infinity of sign [pos] multiplied by the finite value [x]. *)
Definition inf_times (pos : bool) (x : R) : npfloat :=
  if Reqb x 0 then NaN
  else if Bool.eqb pos (Rltb 0 x) then PInf else NInf.

Definition fmul (a b : npfloat) : npfloat :=
  match a, b with
  | NaN, _ | _, NaN => NaN
  | Fin x, Fin y => Fin (x * y)
  | PInf, Fin y | Fin y, PInf => inf_times true y
  | NInf, Fin y | Fin y, NInf => inf_times false y
  | PInf, PInf | NInf, NInf => PInf
  | PInf, NInf | NInf, PInf => NInf
  end.

Definition fdiv (a b : npfloat) : npfloat :=
  match a, b with
  | NaN, _ | _, NaN => NaN
  | Fin x, Fin y =>
      if Reqb y 0 then
        (if Reqb x 0 then NaN else if Rltb 0 x then PInf else NInf)
      else Fin (x / y)
  | Fin _, (PInf | NInf) => Fin 0
  | PInf, Fin y => if Rltb y 0 then NInf else PInf
  | NInf, Fin y => if Rltb y 0 then PInf else NInf
  | (PInf | NInf), (PInf | NInf) => NaN
  end.

Definition fsqrt (a : npfloat) : npfloat :=
  match a with
  | Fin x => if Rltb x 0 then NaN else Fin (sqrt x)
  | PInf => PInf
  | NaN | NInf => NaN
  end.

Definition fabs (a : npfloat) : npfloat :=
  match a with
  | Fin x => Fin (Rabs x)
  | NaN => NaN
  | PInf | NInf => PInf
  end.

(** Comparisons: every comparison with NaN is false. *)
Definition flt (a b : npfloat) : bool :=
  match a, b with
  | NaN, _ | _, NaN => false
  | Fin x, Fin y => Rltb x y
  | NInf, (Fin _ | PInf) => true
  | Fin _, PInf => true
  | _, _ => false
  end.

Definition fle (a b : npfloat) : bool :=
  match a, b with
  | NaN, _ | _, NaN => false
  | Fin x, Fin y => Rleb x y
  | NInf, _ => true
  | _, PInf => true
  | _, _ => false
  end.

Definition fge (a b : npfloat) : bool := fle b a.


Definition isnan (a : npfloat) : bool :=
  match a with NaN => true | _ => false end.

Definition isfinite (a : npfloat) : bool :=
  match a with Fin _ => true | _ => false end.

(** [float(n)] of a Python int. *)
Definition of_int (n : Z) : npfloat := Fin (IZR n).

(** [np.sum]: the empty sum is 0. *)
Definition np_sum (l : list npfloat) : npfloat := fold_left fadd l (Fin 0).

(** [np.cumsum]: the running sums, the first one being the first element. *)
Fixpoint cumsum_from (acc : npfloat) (l : list npfloat) : list npfloat :=
  match l with
  | [] => []
  | x :: t => let s := fadd acc x in s :: cumsum_from s t
  end.

Definition np_cumsum (l : list npfloat) : list npfloat :=
  match l with
  | [] => []
  | x :: t => x :: cumsum_from x t
  end.

(** [np.where(mask)[0]]: the positions at which a boolean array is true. *)
Fixpoint where_from (i : nat) (mask : list bool) : list nat :=
  match mask with
  | [] => []
  | b :: t => if b then i :: where_from (S i) t else where_from (S i) t
  end.

Definition np_where (mask : list bool) : list nat := where_from 0 mask.

(** Python's [a[start:stop]] on a sequence, with the usual treatment of
    negative and out-of-range bounds ([None] is an omitted bound). *)
Definition clamp_index (len i : Z) : Z :=
  if (i <? 0)%Z then Z.max (len + i) 0 else Z.min i len.

Definition py_slice {A} (start stop : option Z) (l : list A) : list A :=
  let len := Z.of_nat (length l) in
  let lo := match start with None => 0%Z | Some i => clamp_index len i end in
  let hi := match stop with None => len | Some j => clamp_index len j end in
  firstn (Z.to_nat (hi - lo)) (skipn (Z.to_nat lo) l).

End NP.

Import NP.

(* ================================================================= *)
(** ** Exceptions *)

Inductive exn_class : Type :=
| ValueError
| TypeError
| PyWarning             (* [raise Warning(...)] *)
| DeprecationWarning
| AttributeError
| UnboundLocalError
| UnitConversionError
| IndexError
| ExternalError.        (* whatever a collaborator raises *)

Inductive exn : Type := Exn (cls : exn_class) (msg : string).

Inductive result (A : Type) : Type :=
| Ok (a : A)
| Raise (e : exn).

Arguments Ok {A} a.
Arguments Raise {A} e.

Definition is_ok {A} (r : result A) : bool :=
  match r with Ok _ => true | Raise _ => false end.

Definition exn_class_of {A} (r : result A) : option exn_class :=
  match r with Ok _ => None | Raise (Exn c _) => Some c end.

Local Open Scope string_scope.

(* ================================================================= *)
(** ** Module-level functions of pca.py *)

(** [brunt_index_correct(value)] *)
Definition brunt_index_correct (value : npfloat) : npfloat :=
  if flt value (Fin 0.67) then
    fdiv (fsub value (Fin 0.32)) (Fin 0.59)
  else
    fdiv (fsub value (Fin 0.03)) (Fin 1.07).

(** [set_n_eigs(eigenvalues, min_eigval, method)] *)
Definition set_n_eigs (eigenvalues : list npfloat) (min_eigval : npfloat)
    (method : string) : result Z :=
  if String.eqb method "value" then
    let above := np_where (map (fun e => fge e min_eigval) eigenvalues) in
    Ok (Z.of_nat (length above))
  else if String.eqb method "proportion" then
    let total := np_sum eigenvalues in
    let cumulative := np_cumsum (map (fun e => fdiv e total) eigenvalues) in
    let above := np_where (map (fun c => fle c min_eigval) cumulative) in
    Ok (Z.of_nat (length above))
  else
    Raise (Exn ValueError "method must be 'value' or 'proportion'.").

(* ================================================================= *)
(** ** Arrays and the [PCA] object *)

Definition image : Type := list (list npfloat).   (* 2-D array, rows first *)
Definition cube : Type := list image.             (* spectral axis first *)
Definition matrix : Type := list (list npfloat).

(** What a numpy call returns when the number of axes depends on the
    input. *)
Inductive ndarray : Type :=
| Arr1 (v : list npfloat)
| Arr2 (m : image)
| Arr3 (s : list image).

Inductive float_dtype : Type := Float32 | Float64.

(** [np.finfo(dtype).eps] *)
Definition finfo_eps (d : float_dtype) : R :=
  match d with
  | Float32 => (/ 2 ^ 23)%R
  | Float64 => (/ 2 ^ 52)%R
  end.

(** The attributes of a [PCA] instance.  An attribute that has not been
    assigned yet is [None]; reading it raises [AttributeError].  Unit
    metadata (header, distance) belongs to the unit service and is not
    part of the model: every width is in pixel units. *)
Record PCA : Type := mkPCA {
  _data : cube;
  dtype : float_dtype;
  spectral_shape : Z;
  _n_eigs : option Z;
  _decomp_only : option bool;
  cov_matrix : option matrix;
  _total_variance : option npfloat;
  _var_prop : option npfloat;
  _eigvals : option (list npfloat);
  _eigvecs : option matrix;
  _mean_sub : option bool;
  _spatial_width : option (list npfloat);
  _spatial_width_error : option (list npfloat);
  _spectral_width : option (list npfloat);
  _spectral_width_error : option (list npfloat);
  _fit_method : option string;
  _samps : option (list npfloat * list npfloat);
  _index : option npfloat;
  _index_error_range : option (list npfloat);
  _intercept : option npfloat;
  _intercept_error_range : option (list npfloat)
}.

(** Attribute assignment [self.<attribute> = v]. *)
Definition store_n_eigs (v : Z) (self : PCA) : PCA :=
  match self with
  | mkPCA f0 f1 f2 f3 f4 f5 f6 f7 f8 f9 f10 f11 f12 f13 f14 f15 f16 f17 f18 f19 f20
    => mkPCA f0 f1 f2 (Some v) f4 f5 f6 f7 f8 f9 f10 f11 f12 f13 f14 f15 f16 f17 f18 f19 f20
  end.

Definition store_decomp_only (v : bool) (self : PCA) : PCA :=
  match self with
  | mkPCA f0 f1 f2 f3 f4 f5 f6 f7 f8 f9 f10 f11 f12 f13 f14 f15 f16 f17 f18 f19 f20
    => mkPCA f0 f1 f2 f3 (Some v) f5 f6 f7 f8 f9 f10 f11 f12 f13 f14 f15 f16 f17 f18 f19 f20
  end.

Definition store_cov_matrix (v : matrix) (self : PCA) : PCA :=
  match self with
  | mkPCA f0 f1 f2 f3 f4 f5 f6 f7 f8 f9 f10 f11 f12 f13 f14 f15 f16 f17 f18 f19 f20
    => mkPCA f0 f1 f2 f3 f4 (Some v) f6 f7 f8 f9 f10 f11 f12 f13 f14 f15 f16 f17 f18 f19 f20
  end.

Definition store_total_variance (v : npfloat) (self : PCA) : PCA :=
  match self with
  | mkPCA f0 f1 f2 f3 f4 f5 f6 f7 f8 f9 f10 f11 f12 f13 f14 f15 f16 f17 f18 f19 f20
    => mkPCA f0 f1 f2 f3 f4 f5 (Some v) f7 f8 f9 f10 f11 f12 f13 f14 f15 f16 f17 f18 f19 f20
  end.

Definition store_var_prop (v : npfloat) (self : PCA) : PCA :=
  match self with
  | mkPCA f0 f1 f2 f3 f4 f5 f6 f7 f8 f9 f10 f11 f12 f13 f14 f15 f16 f17 f18 f19 f20
    => mkPCA f0 f1 f2 f3 f4 f5 f6 (Some v) f8 f9 f10 f11 f12 f13 f14 f15 f16 f17 f18 f19 f20
  end.

Definition store_eigvals (v : (list npfloat)) (self : PCA) : PCA :=
  match self with
  | mkPCA f0 f1 f2 f3 f4 f5 f6 f7 f8 f9 f10 f11 f12 f13 f14 f15 f16 f17 f18 f19 f20
    => mkPCA f0 f1 f2 f3 f4 f5 f6 f7 (Some v) f9 f10 f11 f12 f13 f14 f15 f16 f17 f18 f19 f20
  end.

Definition store_eigvecs (v : matrix) (self : PCA) : PCA :=
  match self with
  | mkPCA f0 f1 f2 f3 f4 f5 f6 f7 f8 f9 f10 f11 f12 f13 f14 f15 f16 f17 f18 f19 f20
    => mkPCA f0 f1 f2 f3 f4 f5 f6 f7 f8 (Some v) f10 f11 f12 f13 f14 f15 f16 f17 f18 f19 f20
  end.

Definition store_mean_sub (v : bool) (self : PCA) : PCA :=
  match self with
  | mkPCA f0 f1 f2 f3 f4 f5 f6 f7 f8 f9 f10 f11 f12 f13 f14 f15 f16 f17 f18 f19 f20
    => mkPCA f0 f1 f2 f3 f4 f5 f6 f7 f8 f9 (Some v) f11 f12 f13 f14 f15 f16 f17 f18 f19 f20
  end.

Definition store_spatial_width (v : (list npfloat)) (self : PCA) : PCA :=
  match self with
  | mkPCA f0 f1 f2 f3 f4 f5 f6 f7 f8 f9 f10 f11 f12 f13 f14 f15 f16 f17 f18 f19 f20
    => mkPCA f0 f1 f2 f3 f4 f5 f6 f7 f8 f9 f10 (Some v) f12 f13 f14 f15 f16 f17 f18 f19 f20
  end.

Definition store_spatial_width_error (v : (list npfloat)) (self : PCA) : PCA :=
  match self with
  | mkPCA f0 f1 f2 f3 f4 f5 f6 f7 f8 f9 f10 f11 f12 f13 f14 f15 f16 f17 f18 f19 f20
    => mkPCA f0 f1 f2 f3 f4 f5 f6 f7 f8 f9 f10 f11 (Some v) f13 f14 f15 f16 f17 f18 f19 f20
  end.

Definition store_spectral_width (v : (list npfloat)) (self : PCA) : PCA :=
  match self with
  | mkPCA f0 f1 f2 f3 f4 f5 f6 f7 f8 f9 f10 f11 f12 f13 f14 f15 f16 f17 f18 f19 f20
    => mkPCA f0 f1 f2 f3 f4 f5 f6 f7 f8 f9 f10 f11 f12 (Some v) f14 f15 f16 f17 f18 f19 f20
  end.

Definition store_spectral_width_error (v : (list npfloat)) (self : PCA) : PCA :=
  match self with
  | mkPCA f0 f1 f2 f3 f4 f5 f6 f7 f8 f9 f10 f11 f12 f13 f14 f15 f16 f17 f18 f19 f20
    => mkPCA f0 f1 f2 f3 f4 f5 f6 f7 f8 f9 f10 f11 f12 f13 (Some v) f15 f16 f17 f18 f19 f20
  end.

Definition store_fit_method (v : string) (self : PCA) : PCA :=
  match self with
  | mkPCA f0 f1 f2 f3 f4 f5 f6 f7 f8 f9 f10 f11 f12 f13 f14 f15 f16 f17 f18 f19 f20
    => mkPCA f0 f1 f2 f3 f4 f5 f6 f7 f8 f9 f10 f11 f12 f13 f14 (Some v) f16 f17 f18 f19 f20
  end.

Definition store_samps (v : (list npfloat * list npfloat)) (self : PCA) : PCA :=
  match self with
  | mkPCA f0 f1 f2 f3 f4 f5 f6 f7 f8 f9 f10 f11 f12 f13 f14 f15 f16 f17 f18 f19 f20
    => mkPCA f0 f1 f2 f3 f4 f5 f6 f7 f8 f9 f10 f11 f12 f13 f14 f15 (Some v) f17 f18 f19 f20
  end.

Definition store_index (v : npfloat) (self : PCA) : PCA :=
  match self with
  | mkPCA f0 f1 f2 f3 f4 f5 f6 f7 f8 f9 f10 f11 f12 f13 f14 f15 f16 f17 f18 f19 f20
    => mkPCA f0 f1 f2 f3 f4 f5 f6 f7 f8 f9 f10 f11 f12 f13 f14 f15 f16 (Some v) f18 f19 f20
  end.

Definition store_index_error_range (v : (list npfloat)) (self : PCA) : PCA :=
  match self with
  | mkPCA f0 f1 f2 f3 f4 f5 f6 f7 f8 f9 f10 f11 f12 f13 f14 f15 f16 f17 f18 f19 f20
    => mkPCA f0 f1 f2 f3 f4 f5 f6 f7 f8 f9 f10 f11 f12 f13 f14 f15 f16 f17 (Some v) f19 f20
  end.

Definition store_intercept (v : npfloat) (self : PCA) : PCA :=
  match self with
  | mkPCA f0 f1 f2 f3 f4 f5 f6 f7 f8 f9 f10 f11 f12 f13 f14 f15 f16 f17 f18 f19 f20
    => mkPCA f0 f1 f2 f3 f4 f5 f6 f7 f8 f9 f10 f11 f12 f13 f14 f15 f16 f17 f18 (Some v) f20
  end.

Definition store_intercept_error_range (v : (list npfloat)) (self : PCA) : PCA :=
  match self with
  | mkPCA f0 f1 f2 f3 f4 f5 f6 f7 f8 f9 f10 f11 f12 f13 f14 f15 f16 f17 f18 f19 f20
    => mkPCA f0 f1 f2 f3 f4 f5 f6 f7 f8 f9 f10 f11 f12 f13 f14 f15 f16 f17 f18 f19 (Some v)
  end.

(* ================================================================= *)
(** ** Methods as state transformers

    A method runs on the instance and returns a value or raises; in both
    cases the attributes assigned so far stay assigned.  Calls of
    [warnings.warn] are collected in order. *)

Definition M (A : Type) : Type := PCA -> result A * PCA * list string.

Definition ret {A} (a : A) : M A := fun self => (Ok a, self, []).

Definition raise {A} (c : exn_class) (msg : string) : M A :=
  fun self => (Raise (Exn c msg), self, []).

Definition bind {A B} (m : M A) (k : A -> M B) : M B :=
  fun self =>
    match m self with
    | (Ok a, self1, w1) =>
        match k a self1 with
        | (r, self2, w2) => (r, self2, (w1 ++ w2)%list)
        end
    | (Raise e, self1, w1) => (Raise e, self1, w1)
    end.

Definition get : M PCA := fun self => (Ok self, self, []).

Definition modify (f : PCA -> PCA) : M unit := fun self => (Ok tt, f self, []).

Definition warn (msg : string) : M unit := fun self => (Ok tt, self, [msg]).

Definition lift {A} (r : result A) : M A := fun self => (r, self, []).

(** Reading an attribute. *)
Definition attr {A} (name : string) (field : PCA -> option A) : M A :=
  fun self =>
    match field self with
    | Some a => (Ok a, self, [])
    | None => (Raise (Exn AttributeError name), self, [])
    end.

Notation "x <- m ;; k" := (bind m (fun x => k))
  (at level 61, m at next level, right associativity).
Notation "m ;;; k" := (bind m (fun _ => k))
  (at level 61, right associativity).

Definition result_of {A} (o : result A * PCA * list string) : result A :=
  fst (fst o).
Definition state_of {A} (o : result A * PCA * list string) : PCA :=
  snd (fst o).
Definition warnings_of {A} (o : result A * PCA * list string) : list string :=
  snd o.

(** The same sequencing for functions that touch no instance. *)
Definition rbind {A B} (r : result A) (k : A -> result B) : result B :=
  match r with
  | Ok a => k a
  | Raise e => Raise e
  end.

(* ----------------------------------------------------------------- *)
(** *** Construction *)

(** What [input_data(cube)] hands over: the array, its dtype and whether
    the spectral axis is in velocity units. *)
Record cube_input : Type := mkInput {
  arr : cube;
  arr_dtype : float_dtype;
  spectral_is_velocity : bool
}.

(** [self._data[np.isnan(self.data)] = np.finfo(self.data.dtype).eps] *)
Definition patch_nan (d : float_dtype) (x : npfloat) : npfloat :=
  if isnan x then Fin (finfo_eps d) else x.

Definition patch_cube (d : float_dtype) (c : cube) : cube :=
  map (map (map (patch_nan d))) c.

(** [_enforce_velocity_axis] *)
Definition _enforce_velocity_axis (c : cube_input) : result unit :=
  if negb (spectral_is_velocity c) then
    Raise (Exn PyWarning "PCA requires the spectral axis to be in velocity units.")
  else Ok tt.

(** [PCA.__init__(cube, n_eigs=None)] *)
Definition PCA_init (c : cube_input) (n_eigs : option Z) : result PCA :=
  rbind (_enforce_velocity_axis c) (fun _ =>
  let data := patch_cube (arr_dtype c) (arr c) in
  let shape0 := Z.of_nat (length data) in
  match n_eigs with
  | Some _ =>
      Raise (Exn DeprecationWarning "Input of n_eigs is deprecated.")
  | None =>
      Ok (mkPCA data (arr_dtype c) shape0 None None None None None None None
            None None None None None None None None None None None)
  end).

(** The covariance matrix is built from [self.data]. *)
Definition covariance_input (self : PCA) : cube := _data self.

(** The [n_eigs] property and its setter. *)
Definition n_eigs : M Z := attr "_n_eigs" _n_eigs.

Definition n_eigs_setter (value : Z) : M unit :=
  if (value <=? 0)%Z then raise ValueError "n_eigs must be > 0."
  else modify (store_n_eigs value).

Definition var_proportion : M npfloat := attr "_var_prop" _var_prop.
Definition total_variance : M npfloat := attr "_total_variance" _total_variance.
Definition eigvals : M (list npfloat) := attr "_eigvals" _eigvals.
Definition eigvecs : M matrix := attr "_eigvecs" _eigvecs.

(* ----------------------------------------------------------------- *)
(** *** Sorting *)

(** The order of [np.sort]: NaN after everything else. *)
Definition sorts_before (a b : npfloat) : bool :=
  match a, b with
  | NaN, _ => false
  | _, NaN => true
  | _, _ => flt a b
  end.

Fixpoint insert_by {A} (key : A -> npfloat) (x : A) (l : list A) : list A :=
  match l with
  | [] => [x]
  | y :: t =>
      if sorts_before (key x) (key y) then x :: l
      else y :: insert_by key x t
  end.

Definition sort_by {A} (key : A -> npfloat) (l : list A) : list A :=
  fold_left (fun acc x => insert_by key x acc) l [].

Definition np_sort (l : list npfloat) : list npfloat := sort_by (fun x => x) l.

Definition np_argsort (l : list npfloat) : list nat :=
  map fst (sort_by snd (combine (seq 0 (length l)) l)).

(** [m[:, cols]] *)
Definition take_columns (m : matrix) (cols : list nat) : matrix :=
  map (fun row => map (fun j => nth j row NaN) cols) m.

(** [m[:, j]] *)
Definition column (m : matrix) (j : nat) : result (list npfloat) :=
  fold_right
    (fun row acc =>
       rbind acc (fun t =>
       match nth_error row j with
       | Some x => Ok (x :: t)
       | None => Raise (Exn IndexError "index out of bounds")
       end))
    (Ok []) m.

(* ----------------------------------------------------------------- *)
(** *** Element-wise helpers *)

Fixpoint map2 {A B C} (f : A -> B -> C) (a : list A) (b : list B) : list C :=
  match a, b with
  | x :: a', y :: b' => f x y :: map2 f a' b'
  | _, _ => []
  end.

Definition img_map (f : npfloat -> npfloat) (m : image) : image :=
  map (map f) m.

Definition img_add (a b : image) : image := map2 (map2 fadd) a b.

Definition img_zeros_like (m : image) : image := img_map (fun _ => Fin 0) m.

(** [m.swapaxes(0, 1)] of a 2-D array with at least one row. *)
Fixpoint transpose (m : image) : image :=
  match m with
  | [] => []
  | r :: t =>
      match t with
      | [] => map (fun x => [x]) r
      | _ :: _ => map2 cons r (transpose t)
      end
  end.

(** Largest finite float64, what [np.nan_to_num] puts for an infinity. *)
Definition float64_max : R := ((2 - / 2 ^ 52) * 2 ^ 1023)%R.

Definition nan_to_num (x : npfloat) : npfloat :=
  match x with
  | Fin r => Fin r
  | NaN => Fin 0
  | PInf => Fin float64_max
  | NInf => Fin (- float64_max)
  end.

(** [np.nanmean] of a 2-D array: NaN pixels are left out; with nothing
    left the result is NaN (0/0). *)
Definition np_nanmean (m : image) : npfloat :=
  let kept := filter (fun x => negb (isnan x)) (concat m) in
  fdiv (np_sum kept) (of_int (Z.of_nat (length kept))).

Definition nan_as_zero (x : npfloat) : npfloat :=
  match x with NaN => Fin 0 | _ => x end.

(** [np.nansum(a, axis=0)] *)
Definition np_nansum_axis0 (a : ndarray) : ndarray + npfloat :=
  match a with
  | Arr3 imgs =>
      inl (Arr2 (fold_left (fun acc im => img_add acc (img_map nan_as_zero im))
                   imgs (img_zeros_like (hd [] imgs))))
  | Arr2 rows =>
      inl (Arr1 (fold_left (fun acc r => map2 fadd acc (map nan_as_zero r))
                   rows (map (fun _ => Fin 0) (hd [] rows))))
  | Arr1 v => inr (np_sum (map nan_as_zero v))
  end.

(** [a / x] for an array or a scalar [a]. *)
Definition nd_divide (a : ndarray + npfloat) (x : npfloat)
    : ndarray + npfloat :=
  match a with
  | inl (Arr3 imgs) => inl (Arr3 (map (img_map (fun s => fdiv s x)) imgs))
  | inl (Arr2 rows) => inl (Arr2 (img_map (fun s => fdiv s x) rows))
  | inl (Arr1 v) => inl (Arr1 (map (fun s => fdiv s x) v))
  | inr s => inr (fdiv s x)
  end.

(** A loop [for x in l: acc = body(acc, x)] that may raise. *)
Fixpoint for_each {A B} (l : list A) (acc : B) (body : B -> A -> M B) : M B :=
  match l with
  | [] => ret acc
  | x :: t => acc' <- body acc x ;; for_each t acc' body
  end.

(* ----------------------------------------------------------------- *)
(** *** More of numpy: broadcasting, masks, power, logarithm, percentile *)

(** An element-wise binary operation on 1-D arrays, with numpy's
    broadcasting of a length-1 operand. *)
Definition broadcast2 {A B C} (f : A -> B -> C) (a : list A) (b : list B)
    : result (list C) :=
  if (length a =? length b)%nat then Ok (map2 f a b)
  else
    match a, b with
    | [x], _ => Ok (map (f x) b)
    | _, [y] => Ok (map (fun x => f x y) a)
    | _, _ =>
        Raise (Exn ValueError "operands could not be broadcast together")
    end.

(** [a[mask]] for a boolean mask. *)
Definition mask_select {A} (a : list A) (mask : list bool) : result (list A) :=
  if (length a =? length mask)%nat then
    Ok (map fst (filter snd (combine a mask)))
  else Raise (Exn IndexError "boolean index did not match indexed array").

(** [(~mask).sum()] *)
Definition count_false (mask : list bool) : Z :=
  Z.of_nat (length (filter negb mask)).

(** [a[i]] for [i >= 0]. *)
Definition item {A} (a : list A) (i : nat) : result A :=
  match nth_error a i with
  | Some x => Ok x
  | None => Raise (Exn IndexError "index out of bounds")
  end.

Definition is_integer (y : R) : bool := Reqb (IZR (Int_part y)) y.

Definition is_odd_integer (y : R) : bool :=
  is_integer y && Z.odd (Int_part y).

(** [np.power] / [**] on floats, with the C99 rules for the special
    cases. *)
Definition np_power (x y : npfloat) : npfloat :=
  match x, y with
  | _, Fin b =>
      if Reqb b 0 then Fin 1
      else
        match x with
        | NaN => NaN
        | Fin a =>
            if Rltb 0 a then Fin (Rpower a b)
            else if Reqb a 0 then (if Rltb 0 b then Fin 0 else PInf)
            else if is_integer b then
              Fin ((if Z.odd (Int_part b) then -1 else 1) * Rpower (- a) b)
            else NaN
        | PInf => if Rltb 0 b then PInf else Fin 0
        | NInf =>
            if Rltb 0 b then (if is_odd_integer b then NInf else PInf)
            else Fin 0
        end
  | Fin a, PInf =>
      if Reqb (Rabs a) 1 then Fin 1
      else if Rltb (Rabs a) 1 then Fin 0 else PInf
  | Fin a, NInf =>
      if Reqb (Rabs a) 1 then Fin 1
      else if Rltb (Rabs a) 1 then PInf else Fin 0
  | (PInf | NInf), PInf => PInf
  | (PInf | NInf), NInf => Fin 0
  | Fin a, NaN => if Reqb a 1 then Fin 1 else NaN
  | _, NaN => NaN
  | NaN, _ => NaN
  end.

Definition np_log10 (x : npfloat) : npfloat :=
  match x with
  | Fin a =>
      if Rltb 0 a then Fin (ln a / ln 10)
      else if Reqb a 0 then NInf else NaN
  | PInf => PInf
  | NaN | NInf => NaN
  end.

(** [np.percentile(a, q)] for one integer percentage [q], by linear
    interpolation between the two nearest ranks: the weighted sum
    [x_lo * (1 - t) + x_hi * t].  An array holding a NaN gives NaN. *)
Definition percentile1 (a : list npfloat) (q : Z) : npfloat :=
  if existsb isnan a then NaN
  else
    let s := np_sort a in
    let n := Z.of_nat (length s) in
    let pos := (q * (n - 1))%Z in
    let lo := (pos / 100)%Z in
    let hi := Z.min (lo + 1) (n - 1) in
    let t := (IZR (pos mod 100) / 100)%R in
    fadd (fmul (nth (Z.to_nat lo) s NaN) (Fin (1 - t)))
         (fmul (nth (Z.to_nat hi) s NaN) (Fin t)).

Definition np_percentile (a : list npfloat) (qs : list Z) : list npfloat :=
  map (percentile1 a) qs.

(* ================================================================= *)
(** ** Collaborators

    Functions the module calls and does not define: the covariance
    builder, numpy's eigen-solver and FFT, the width estimators, the two
    regression engines and the unit service. *)

Class Collaborators : Type := {
  (** [var_cov_cube(data, mean_sub=...)] *)
  var_cov_cube : cube -> bool -> matrix;
  (** [np.linalg.eigh]: eigenvalues and the matrix of eigenvectors *)
  eigh : matrix -> list npfloat * matrix;
  (** lines 274-277 and [.real]: the shifted FFT autocorrelation of an
      image *)
  autocorr2d : image -> image;
  (** lines 309-311 and [.real]: the FFT autocorrelation of a vector *)
  autocorr1d : list npfloat -> list npfloat;
  (** [WidthEstimate2D(acors, noise_ACF=..., method=...,
      brunt_beamcorrect=..., beam_fwhm=...)]: widths and their errors *)
  WidthEstimate2D : ndarray -> ndarray + npfloat -> string -> bool ->
                    option npfloat -> list npfloat * list npfloat;
  (** [WidthEstimate1D(acorr_spec, method=...)] *)
  WidthEstimate1D : ndarray -> string -> list npfloat * list npfloat;
  (** [find_beam_width(header)]; [None] when it raises *)
  find_beam_width : option npfloat;
  (** [leastsq_linear(x, y, x_err, y_err)]: (slope, intercept) and their
      standard errors *)
  leastsq_linear : list npfloat -> list npfloat -> list npfloat ->
                   list npfloat -> (npfloat * npfloat) * (npfloat * npfloat);
  (** [bayes_linear(x, y, x_err, y_err, return_samples=True)]:
      (slope, intercept), their credible ranges and the posterior samples
      of slope and of intercept *)
  bayes_linear : list npfloat -> list npfloat -> list npfloat ->
                 list npfloat ->
                 (npfloat * npfloat) * (list npfloat * list npfloat) *
                 (list npfloat * list npfloat);
  (** the sound speed [sqrt(k_B T_k / (mu m_p))] in spectral pixels *)
  sound_speed_pix : npfloat -> npfloat -> npfloat
}.

Inductive n_eigs_arg : Type :=
| Auto                 (* the string 'auto' *)
| Count (n : Z).

Section Pipeline.

Context {collab : Collaborators}.

(* ----------------------------------------------------------------- *)
(** *** [compute_pca] *)

Definition compute_pca (mean_sub : bool) (n_eigs_in : n_eigs_arg)
    (min_eigval : option npfloat) (eigen_cut_method : string) : M unit :=
  modify (store_decomp_only true) ;;;
  match n_eigs_in, min_eigval with
  | Auto, None =>
      raise ValueError "min_eigval must be given when using n_eigs='auto'."
  | _, _ => ret tt
  end ;;;
  self <- get ;;
  let cov := var_cov_cube (covariance_input self) mean_sub in
  modify (store_cov_matrix cov) ;;;
  let (vals, vecs) := eigh cov in
  let eigvecs := take_columns vecs (rev (np_argsort vals)) in
  let all_eigsvals := rev (np_sort vals) in
  match n_eigs_in with
  | Auto =>
      match min_eigval with
      | Some m =>
          n <- lift (set_n_eigs all_eigsvals m eigen_cut_method) ;;
          n_eigs_setter n
      | None => raise TypeError "min_eigval is None"
      end
  | Count n =>
      if (n =? -1)%Z then n_eigs_setter (spectral_shape self)
      else if ((n <? -1) || (n >? spectral_shape self) || (n =? 0))%Z then
        raise PyWarning
          "n_eigs must be less than the number of velocity channels or -1 for all"
      else n_eigs_setter n
  end ;;;
  (if mean_sub then
     modify (store_total_variance (np_sum all_eigsvals)) ;;;
     k <- n_eigs ;;
     tot <- total_variance ;;
     modify (store_var_prop
               (fdiv (np_sum (py_slice None (Some k) all_eigsvals)) tot))
   else
     modify (store_total_variance
               (np_sum (py_slice (Some 1%Z) None all_eigsvals))) ;;;
     k <- n_eigs ;;
     tot <- total_variance ;;
     modify (store_var_prop
               (fdiv (np_sum (py_slice (Some 1%Z) (Some k) all_eigsvals)) tot))) ;;;
  modify (store_eigvals all_eigsvals) ;;;
  modify (store_eigvecs eigvecs) ;;;
  modify (store_mean_sub mean_sub).

(* ----------------------------------------------------------------- *)
(** *** Eigenimages and autocorrelations *)

Definition _valid_eigenvectors : M (list nat) :=
  ev <- eigvals ;;
  self <- get ;;
  ret (np_where (map (fun e => fge e (Fin (finfo_eps (dtype self)))) ev)).

(** The local variable [iterat] of [eigimages]; with [n_eigs == 0] it is
    never bound and the loop header raises. *)
Definition eigimages_iterat (n : Z) : M (list nat) :=
  if (n >? 0)%Z then ret (seq 0 (Z.to_nat n))
  else if (n <? 0)%Z then
    valid <- _valid_eigenvectors ;;
    ret (py_slice (Some n) None valid)
  else raise UnboundLocalError "iterat".

(** [m[i, j]] *)
Definition entry (m : matrix) (i j : nat) : result npfloat :=
  match nth_error m i with
  | Some row =>
      match nth_error row j with
      | Some x => Ok x
      | None => Raise (Exn IndexError "index out of bounds")
      end
  | None => Raise (Exn IndexError "index out of bounds")
  end.

(** The body of the outer loop of [eigimages]: the eigenimage of mode
    [idx]. *)
Definition eigimage (idx : nat) : M image :=
  self <- get ;;
  let data := _data self in
  for_each (combine (seq 0 (length data)) data) (img_zeros_like (hd [] data))
    (fun eigimg ch =>
       let channel := fst ch in
       let chan_map := snd ch in
       mean_sub <- attr "_mean_sub" _mean_sub ;;
       if mean_sub : bool then
         let mean_value := np_nanmean chan_map in
         vecs <- eigvecs ;;
         e <- lift (entry vecs channel idx) ;;
         ret (img_add eigimg
                (img_map (fun p => nan_to_num (fmul (fsub p mean_value) e))
                   chan_map))
       else
         vecs <- eigvecs ;;
         e <- lift (entry vecs channel idx) ;;
         ret (img_add eigimg
                (img_map (fun p => nan_to_num (fmul p e)) chan_map))).

(** How the loops stack their results: the first one alone stays 2-D;
    [np.dstack] and [swapaxes(0, 2)] turn several into a stack of
    transposed images. *)
Definition stack_results (name : string) (imgs : list image) : M ndarray :=
  match imgs with
  | [] => raise UnboundLocalError name
  | [im] => ret (Arr2 im)
  | _ :: _ :: _ => ret (Arr3 (map transpose imgs))
  end.

Definition eigimages (n_eigs_in : option Z) : M ndarray :=
  n <- match n_eigs_in with None => n_eigs | Some v => ret v end ;;
  iterat <- eigimages_iterat n ;;
  imgs <- for_each iterat []
            (fun acc idx => im <- eigimage idx ;; ret (acc ++ [im])%list) ;;
  stack_results "eigimgs" imgs.

(** Iterating a numpy array goes over its first axis; [np.fft.fft2]
    needs two axes and raises on anything flatter. *)
Definition autocorr_images (n_eigs_in : option Z) : M ndarray :=
  n <- match n_eigs_in with None => n_eigs | Some v => ret v end ;;
  eigimgs <- eigimages (Some n) ;;
  match eigimgs with
  | Arr3 imgs => stack_results "acors" (map autocorr2d imgs)
  | Arr2 [] | Arr1 [] => raise UnboundLocalError "acors"
  | Arr2 (_ :: _) | Arr1 (_ :: _) =>
      raise IndexError "fft2 of an array with less than two axes"
  end.

(** [range(n)] *)
Definition py_range (n : Z) : list nat := seq 0 (Z.to_nat n).

Definition autocorr_spec (n_eigs_in : option Z) : M ndarray :=
  n <- match n_eigs_in with None => n_eigs | Some v => ret v end ;;
  acs <- for_each (py_range n) []
           (fun acc idx =>
              vecs <- eigvecs ;;
              col <- lift (column vecs idx) ;;
              ret (acc ++ [autocorr1d col])%list) ;;
  match acs with
  | [] => raise UnboundLocalError "acors"
  | [_] => raise IndexError "swapaxes(0, 1) of a 1-D array"
  | _ :: _ :: _ =>
      match transpose acs with
      | [row] => ret (Arr1 row)
      | rows => ret (Arr2 rows)
      end
  end.

Definition noise_ACF (n_eigs_in : option Z) : M (ndarray + npfloat) :=
  n <- match n_eigs_in with None => n_eigs | Some v => ret v end ;;
  acors <- autocorr_images (Some n) ;;
  ret (nd_divide (np_nansum_axis0 acors) (of_int n)).

(* ----------------------------------------------------------------- *)
(** *** Widths *)

Definition find_spatial_widths (method : string) (brunt_beamcorrect : bool)
    (beam_fwhm : option npfloat) : M unit :=
  beam <- (if brunt_beamcorrect then
             match beam_fwhm with
             | None =>
                 match find_beam_width with
                 | Some b => ret (Some b)
                 | None => raise ExternalError "find_beam_width"
                 end
             | Some b => ret (Some b)
             end
           else ret beam_fwhm) ;;
  k <- n_eigs ;;
  acors <- autocorr_images (Some k) ;;
  noise <- noise_ACF (Some (-10)%Z) ;;
  let (w, e) := WidthEstimate2D acors noise method brunt_beamcorrect beam in
  modify (store_spatial_width w) ;;;
  modify (store_spatial_width_error e).

Definition spatial_width : M (list npfloat) :=
  attr "_spatial_width" _spatial_width.
Definition spatial_width_error : M (list npfloat) :=
  attr "_spatial_width_error" _spatial_width_error.

Definition find_spectral_widths (method : string) : M unit :=
  k <- n_eigs ;;
  acorr_spec <- autocorr_spec (Some k) ;;
  let (w, e) := WidthEstimate1D acorr_spec method in
  modify (store_spectral_width w) ;;;
  modify (store_spectral_width_error e).

Definition spectral_width : M (list npfloat) :=
  attr "_spectral_width" _spectral_width.
Definition spectral_width_error : M (list npfloat) :=
  attr "_spectral_width_error" _spectral_width_error.

(* ----------------------------------------------------------------- *)
(** *** [fit_plaw] *)

(** [are_finite]: the product of the four [np.isfinite] masks. *)
Definition finite_mask (spec_w spat_w spat_e spec_e : list npfloat)
    : result (list bool) :=
  rbind (broadcast2 andb (map isfinite spec_w) (map isfinite spat_w))
    (fun m1 =>
  rbind (broadcast2 andb m1 (map isfinite spat_e)) (fun m2 =>
  broadcast2 andb m2 (map isfinite spec_e))).

(** [0.434 * err[are_finite] / width[are_finite]] *)
Definition log_error (err width : list npfloat) (mask : list bool)
    : result (list npfloat) :=
  rbind (mask_select err mask) (fun e =>
  rbind (mask_select width mask) (fun w =>
  broadcast2 fdiv (map (fmul (Fin 0.434)) e) w)).

Definition fit_plaw (fit_method : string) : M unit :=
  modify (store_decomp_only false) ;;;
  (if negb (fit_method =? "odr") && negb (fit_method =? "bayes") then
     raise TypeError "fit_method must be 'odr' or 'bayes'."
   else ret tt) ;;;
  modify (store_fit_method fit_method) ;;;
  spec_w <- spectral_width ;;
  spat_w <- spatial_width ;;
  spat_e <- spatial_width_error ;;
  spec_e <- spectral_width_error ;;
  are_finite <- lift (finite_mask spec_w spat_w spat_e spec_e) ;;
  let num_pts := (Z.of_nat (length spec_w) - count_false are_finite)%Z in
  (if (num_pts <? 2)%Z then
     raise PyWarning "Less then 2 valid points. Cannot fit model."
   else if (num_pts <? 5)%Z then
     warn "There are less than 5 points to fit to. The fit will not be well constrained and results should be closely examined."
   else ret tt) ;;;
  y <- lift (rbind (mask_select spec_w are_finite)
               (fun v => Ok (map np_log10 v))) ;;
  x <- lift (rbind (mask_select spat_w are_finite)
               (fun v => Ok (map np_log10 v))) ;;
  y_err <- lift (log_error spec_e spec_w are_finite) ;;
  x_err <- lift (log_error spat_e spat_w are_finite) ;;
  fitted <-
    (if fit_method =? "odr" then
       let '(params, errors) := leastsq_linear x y x_err y_err in
       ret (params,
            ([fsub (fst params) (fst errors); fadd (fst params) (fst errors)],
             [fsub (snd params) (snd errors); fadd (snd params) (snd errors)]))
     else
       let '(params, errors, samps) := bayes_linear x y x_err y_err in
       modify (store_samps samps) ;;;
       ret (params, errors)) ;;
  let params := fst fitted in
  let errors := snd fitted in
  modify (store_index (fst params)) ;;;
  modify (store_index_error_range (fst errors)) ;;;
  modify (store_intercept (np_power (Fin 10) (snd params))) ;;;
  modify (store_intercept_error_range (map (np_power (Fin 10)) (snd errors))).

Definition index : M npfloat := attr "_index" _index.

Definition index_error_range : M (list npfloat) :=
  attr "_index_error_range" _index_error_range.

Definition gamma : M npfloat :=
  i <- index ;; ret (brunt_index_correct i).

Definition gamma_error_range : M (list npfloat) :=
  r <- index_error_range ;; ret (map brunt_index_correct r).

Definition intercept : M npfloat := attr "_intercept" _intercept.

Definition intercept_error_range : M (list npfloat) :=
  attr "_intercept_error_range" _intercept_error_range.

(* ----------------------------------------------------------------- *)
(** *** [sonic_length]

    [T_k] is the temperature in Kelvin, [None] when the conversion to
    Kelvin fails; the result is in pixels. *)

(** The interval of the MCMC branch (lines 682-694). *)
Definition bayes_error_range (c_s index : npfloat) (use_gamma : bool)
    (samps : list npfloat * list npfloat) : list npfloat :=
  let percentiles := [15; 85]%Z in
  let slopes := fst samps in
  let intercepts := snd samps in
  let slopes := if use_gamma then map brunt_index_correct slopes
                else slopes in
  let all_lambds :=
    map (fun b => np_power (fdiv c_s (np_power (Fin 10) b))
                    (fdiv (Fin 1) index)) intercepts in
  np_percentile all_lambds percentiles.

(** The interval of the ODR branch (lines 668-680). *)
Definition odr_error_range (c_s index index_lo icpt icpt_lo lambd : npfloat)
    : list npfloat :=
  let index_err := fabs (fsub index index_lo) in
  let intercept_err :=
    fdiv (fmul (Fin 0.434) (fabs (fsub icpt icpt_lo))) icpt in
  let term1 := fmul (np_log10 (fdiv c_s icpt)) (fdiv index_err index) in
  let term2 := fdiv intercept_err icpt in
  let lambd_error :=
    fmul (fdiv lambd index)
      (fsqrt (fadd (np_power term1 (Fin 2)) (np_power term2 (Fin 2)))) in
  [fsub lambd lambd_error; fadd lambd lambd_error].

Definition sonic_length (T_k : option npfloat) (mu : npfloat)
    (use_gamma : bool) : M (npfloat * list npfloat) :=
  T <- match T_k with
       | Some t => ret t
       | None => raise UnitConversionError "Cannot convert T_k to Kelvin."
       end ;;
  let c_s := sound_speed_pix T mu in
  ir <- (if use_gamma then
           g <- gamma ;; r <- gamma_error_range ;; ret (g, r)
         else
           i <- index ;; r <- index_error_range ;; ret (i, r)) ;;
  let index := fst ir in
  let index_error_range := snd ir in
  icpt <- intercept ;;
  let lambd := np_power (fdiv c_s icpt) (fdiv (Fin 1) index) in
  fm <- attr "_fit_method" _fit_method ;;
  lambd_error_range <-
    (if fm =? "odr" then
       index_lo <- lift (item index_error_range 0) ;;
       icpt_range <- intercept_error_range ;;
       icpt_lo <- lift (item icpt_range 0) ;;
       ret (odr_error_range c_s index index_lo icpt icpt_lo lambd)
     else
       samps <- attr "_samps" _samps ;;
       ret (bayes_error_range c_s index use_gamma samps)) ;;
  ret (lambd, lambd_error_range).

(* ----------------------------------------------------------------- *)
(** *** [run] (with [verbose=False]) *)

Definition run (mean_sub decomp_only : bool) (n_eigs_in : n_eigs_arg)
    (min_eigval : option npfloat)
    (eigen_cut_method spatial_method spectral_method fit_method : string)
    (beam_fwhm : option npfloat) (brunt_beamcorrect : bool) : M unit :=
  beam <- (match beam_fwhm with
           | None =>
               if brunt_beamcorrect && negb decomp_only then
                 match find_beam_width with
                 | Some b => ret (Some b)
                 | None =>
                     raise ValueError "Cannot load beam size from the header."
                 end
               else ret None
           | Some b => ret (Some b)
           end) ;;
  compute_pca mean_sub n_eigs_in min_eigval eigen_cut_method ;;;
  modify (store_decomp_only decomp_only) ;;;
  if negb decomp_only then
    find_spatial_widths spatial_method brunt_beamcorrect beam ;;;
    find_spectral_widths spectral_method ;;;
    fit_plaw fit_method
  else ret tt.

End Pipeline.

(* ================================================================= *)
(** ** [PCA_Distance] *)

Module PCADistance.

Record t : Type := mk {
  pca1 : PCA;
  pca2 : PCA;
  _mean_sub : bool;
  _n_eigs : Z;
  distance : option npfloat
}.

(** [np.linalg.norm] of a 1-D array. *)
Definition np_linalg_norm (v : list npfloat) : npfloat :=
  fsqrt (np_sum (map (fun x => fmul x x) v)).

(** [eigvals[slicer] / np.sum(eigvals[slicer])] *)
Definition normalized (slicer : list npfloat -> list npfloat)
    (eigvals : list npfloat) : list npfloat :=
  map (fun e => fdiv e (np_sum (slicer eigvals))) (slicer eigvals).

Definition slicer_of (mean_sub : bool) (n : Z) : list npfloat -> list npfloat :=
  if mean_sub then py_slice (Some 0%Z) (Some n)
  else py_slice (Some 1%Z) (Some n).

(** [distance_metric(verbose=False)]: returns the instance, with
    [distance] assigned. *)
Definition distance_metric (self : t) : result t :=
  let slicer := slicer_of (_mean_sub self) (_n_eigs self) in
  rbind (result_of (eigvals (pca1 self))) (fun ev1 =>
  let eigvals1 := normalized slicer ev1 in
  rbind (result_of (eigvals (pca2 self))) (fun ev2 =>
  let eigvals2 := normalized slicer ev2 in
  rbind (broadcast2 fsub eigvals1 eigvals2) (fun diff =>
  Ok (mk (pca1 self) (pca2 self) (_mean_sub self) (_n_eigs self)
        (Some (np_linalg_norm diff)))))).

Section Build.

Context {collab : Collaborators}.

(** [PCA(cube).run(mean_sub=..., n_eigs=..., decomp_only=True)] *)
Definition decompose (c : cube_input) (mean_sub : bool) (n : Z) : result PCA :=
  rbind (PCA_init c None) (fun p =>
  match run mean_sub true (Count n) None "value" "contour" "walk-down" "odr"
          None true p with
  | (Ok _, p', _) => Ok p'
  | (Raise e, _, _) => Raise e
  end).

(** [PCA_Distance(cube1, cube2, n_eigs=..., fiducial_model=...,
    mean_sub=...)] *)
Definition init (cube1 cube2 : cube_input) (n_eigs_in : n_eigs_arg)
    (fiducial_model : option PCA) (mean_sub : bool) : result t :=
  match n_eigs_in with
  | Auto =>
      Raise (Exn ValueError
               "'auto' n_eigs mode is disabled for distance computation.")
  | Count n =>
      rbind (match fiducial_model with
             | Some p => Ok p
             | None => decompose cube1 mean_sub n
             end) (fun p1 =>
      rbind (decompose cube2 mean_sub n) (fun p2 =>
      Ok (mk p1 p2 mean_sub n None)))
  end.

End Build.

End PCADistance.

(* ================================================================= *)
(** * Notions used by the properties *)

Local Open Scope R_scope.

Definition fins (l : list R) : list npfloat := map Fin l.

Definition rsum (l : list R) : R := fold_right Rplus 0 l.

(* ----------------------------------------------------------------- *)
(** ** Mode selection *)

(** The cumulative normalized sum at position [i]: the sum of the first
    [i + 1] eigenvalues, each divided by the total of all of them. *)
Definition cumulative_normalized (eigenvalues : list npfloat) (i : nat)
    : npfloat :=
  np_sum (firstn (S i)
            (map (fun e => fdiv e (np_sum eigenvalues)) eigenvalues)).

(** The positions counted by the proportion method. *)
Definition positions_within (eigenvalues : list npfloat)
    (min_eigval : npfloat) : list nat :=
  filter (fun i => fle (cumulative_normalized eigenvalues i) min_eigval)
    (seq 0 (length eigenvalues)).

(** The leading positions of [l] at which [p] holds: those before the
    first one at which it fails. *)
Fixpoint leading_run (p : nat -> bool) (l : list nat) : list nat :=
  match l with
  | [] => []
  | i :: t => if p i then i :: leading_run p t else []
  end.

(** The leading eigenvalues whose cumulative normalized sum is within
    the threshold, as the specification words the proportion method. *)
Definition leading_within (eigenvalues : list npfloat)
    (min_eigval : npfloat) : list nat :=
  leading_run (fun i => fle (cumulative_normalized eigenvalues i) min_eigval)
    (seq 0 (length eigenvalues)).

(* ----------------------------------------------------------------- *)
(** ** Cubes *)

Definition cube_forall (P : npfloat -> bool) (c : cube) : bool :=
  forallb (forallb (forallb P)) c.

(** [c[k, i, j]] *)
Definition sample (c : cube) (k i j : nat) : option npfloat :=
  match nth_error c k with
  | Some im =>
      match nth_error im i with
      | Some row => nth_error row j
      | None => None
      end
  | None => None
  end.

(** A cube with an infinite sample. *)
Definition cube_with_inf : cube_input :=
  mkInput [[[PInf; Fin 1]]] Float64 true.

(** The last [k] elements. *)
Definition lastn {A} (k : nat) (l : list A) : list A :=
  skipn (length l - k) l.

(* ----------------------------------------------------------------- *)
(** ** The points of a fit *)

(** The four widths of one mode. *)
Record mode : Type := mkMode {
  m_spectral : npfloat;
  m_spatial : npfloat;
  m_spatial_err : npfloat;
  m_spectral_err : npfloat
}.

Definition mode_is_valid (m : mode) : bool :=
  isfinite (m_spectral m) && isfinite (m_spatial m) &&
  isfinite (m_spatial_err m) && isfinite (m_spectral_err m).

Definition log_x (vm : list mode) := map (fun m => np_log10 (m_spatial m)) vm.
Definition log_y (vm : list mode) := map (fun m => np_log10 (m_spectral m)) vm.
Definition log_x_err (vm : list mode) :=
  map (fun m => fdiv (fmul (Fin 0.434) (m_spatial_err m)) (m_spatial m)) vm.
Definition log_y_err (vm : list mode) :=
  map (fun m => fdiv (fmul (Fin 0.434) (m_spectral_err m)) (m_spectral m)) vm.

Definition few_points_warning : string :=
  "There are less than 5 points to fit to. The fit will not be well constrained and results should be closely examined.".

(** The interval as the specification words it: lambda recomputed for
    every posterior sample from that sample's slope (gamma-corrected
    when [use_gamma]) and intercept, then the 15th and 85th
    percentiles. *)
Definition per_sample_error_range (c_s : npfloat) (use_gamma : bool)
    (samps : list npfloat * list npfloat) : list npfloat :=
  let slopes := if use_gamma then map brunt_index_correct (fst samps)
                else fst samps in
  np_percentile
    (map2 (fun m b => np_power (fdiv c_s (np_power (Fin 10) b))
                        (fdiv (Fin 1) m))
       slopes (snd samps))
    [15; 85]%Z.

Section SpecSide.

Context {collab : Collaborators}.

(** The regression [fit_plaw] runs on the kept modes, with the range of
    the ODR errors built as the method builds it. *)
Definition regression (fit_method : string) (vm : list mode) :=
  if fit_method =? "odr" then
    let '(params, errors) :=
      leastsq_linear (log_x vm) (log_y vm) (log_x_err vm) (log_y_err vm) in
    (params,
     ([fsub (fst params) (fst errors); fadd (fst params) (fst errors)],
      [fsub (snd params) (snd errors); fadd (snd params) (snd errors)]),
     None)
  else
    let '(params, errors, samps) :=
      bayes_linear (log_x vm) (log_y vm) (log_x_err vm) (log_y_err vm) in
    (params, errors, Some samps).

(** The eigenvalues as [compute_pca] orders them. *)
Definition sorted_eigenvalues (self : PCA) (mean_sub : bool) : list npfloat :=
  rev (np_sort (fst (eigh (var_cov_cube (covariance_input self) mean_sub)))).

End SpecSide.

(* ----------------------------------------------------------------- *)
(** ** Distances *)

(** What [distance_metric] leaves in [distance], or the exception. *)
Definition distance_of (r : result PCADistance.t)
    : result (option npfloat) :=
  rbind r (fun t' => Ok (PCADistance.distance t')).



(** The slice of [distance_metric], on plain reals. *)
Definition rslicer (mean_sub : bool) (n : Z) : list R -> list R :=
  if mean_sub then py_slice (Some 0%Z) (Some n)
  else py_slice (Some 1%Z) (Some n).

Definition sq (x : R) : R := x * x.



(** A cube with a NaN sample. *)
Definition cube_with_nan : cube_input :=
  mkInput [[[NaN; Fin 1]]] Float64 true.

(* ================================================================= *)
(** * Worked inputs

    Two small cubes, with what the collaborators return on them, and
    the pipeline states they lead to. *)

(** What the FFT lines of [autocorr_images] compute in exact arithmetic:
    subtracting the mean of the transform removes the pixel at the
    origin, the product with the conjugate is the power spectrum, and
    its inverse transform is the circular autocorrelation, which
    [fftshift] then centres. *)
Definition pixel (im : image) (i j : nat) : npfloat :=
  nth j (nth i im []) (Fin 0).

Definition circular_autocorr (im : image) : image :=
  let h := length im in
  let w := length (hd [] im) in
  map (fun k =>
         map (fun l =>
                np_sum
                  (map (fun ij =>
                          fmul (pixel im (fst ij) (snd ij))
                               (pixel im ((fst ij + k) mod h)
                                         ((snd ij + l) mod w)))
                     (list_prod (seq 0 h) (seq 0 w))))
           (seq 0 w))
    (seq 0 h).

Definition zero_origin (im : image) : image :=
  match im with
  | (_ :: r) :: t => (Fin 0 :: r) :: t
  | _ => im
  end.

Definition fftshift1 {A} (l : list A) : list A :=
  let n := length l in
  (skipn (n - n / 2) l ++ firstn (n - n / 2) l)%list.

Definition fftshift (im : image) : image := fftshift1 (map fftshift1 im).

(** Three channels of one row and three pixels that do not overlap: the
    mean of the products of two channels is 12, 3, 3 on the diagonal and
    0 elsewhere. *)
Definition diag_cube : cube_input :=
  mkInput [[fins [6; 0; 0]]; [fins [0; 3; 0]]; [fins [0; 0; 3]]]
    Float64 true.

(** The collaborators on [diag_cube]: its covariance matrix, the
    eigenvalues of that matrix in ascending order with their
    eigenvectors as columns, the exact autocorrelations, and fixed
    answers of the width estimators, the regressions and the unit
    service. *)
Definition diag_collab : Collaborators := {|
  var_cov_cube := fun _ _ =>
    [fins [12; 0; 0]; fins [0; 3; 0]; fins [0; 0; 3]];
  eigh := fun _ =>
    (fins [3; 3; 12], [fins [0; 0; 1]; fins [1; 0; 0]; fins [0; 1; 0]]);
  autocorr2d := fun im => fftshift (circular_autocorr (zero_origin im));
  autocorr1d := fun v => hd [] (circular_autocorr (zero_origin [v]));
  WidthEstimate2D := fun _ _ _ _ _ => (fins [1; 10; 100], fins [0.1; 0.1; 0.1]);
  WidthEstimate1D := fun _ _ => (fins [2; 20; 200], fins [0.1; 0.1; 0.1]);
  find_beam_width := None;
  leastsq_linear := fun _ _ _ _ => ((Fin 1, Fin 0), (Fin 0.1, Fin 0.2));
  bayes_linear := fun _ _ _ _ =>
    ((Fin 1, Fin 0), (fins [0.5; 2], fins [-1; 1]),
     (fins [0.5; 1; 2], fins [0; 0; 0]));
  sound_speed_pix := fun _ _ => Fin 4
|}.

(** [PCA(diag_cube)] *)
Definition diag_init : PCA :=
  mkPCA [[fins [6; 0; 0]]; [fins [0; 3; 0]]; [fins [0; 0; 3]]] Float64 3
    None None None None None None None None None None None None None None
    None None None None.

(** [PCA(diag_cube).run(mean_sub=False, n_eigs=3, decomp_only=True)] *)
Definition decomposed : PCA :=
  mkPCA [[fins [6; 0; 0]]; [fins [0; 3; 0]]; [fins [0; 0; 3]]] Float64 3
    (Some 3%Z) (Some true)
    (Some [fins [12; 0; 0]; fins [0; 3; 0]; fins [0; 0; 3]])
    (Some (Fin 6)) (Some (Fin 1))
    (Some (fins [12; 3; 3]))
    (Some [fins [1; 0; 0]; fins [0; 0; 1]; fins [0; 1; 0]])
    (Some false)
    None None None None None None None None None None.

(** Another decomposed state, with eigenvalues 9, 6, 3. *)
Definition other_decomposed : PCA :=
  store_eigvals (fins [9; 6; 3]) decomposed.

(** Three modes, the last with a spatial width that is not finite. *)
Definition three_modes : list mode :=
  [mkMode (Fin 2) (Fin 1) (Fin 0.1) (Fin 0.1);
   mkMode (Fin 20) (Fin 10) (Fin 0.1) (Fin 0.1);
   mkMode (Fin 200) NaN (Fin 0.1) (Fin 0.1)].

(** [decomposed] once the widths of [three_modes] have been found. *)
Definition measured : PCA :=
  store_spectral_width_error (map m_spectral_err three_modes)
    (store_spectral_width (map m_spectral three_modes)
       (store_spatial_width_error (map m_spatial_err three_modes)
          (store_spatial_width (map m_spatial three_modes) decomposed))).

(** [measured] after an MCMC fit with index 1, intercept [10**0] and
    three posterior samples of slope 0.5, 1, 2 and intercept 0. *)
Definition fitted_bayes : PCA :=
  store_intercept_error_range (fins [0.1; 10])
    (store_intercept (Fin 1)
       (store_index_error_range (fins [0.5; 2])
          (store_index (Fin 1)
             (store_samps (fins [0.5; 1; 2], fins [0; 0; 0])
                (store_fit_method "bayes" measured))))).




(* ================================================================= *)
(** * Further notions *)

(** A method that reads the instance and neither assigns an attribute
    nor warns. *)
Definition read_only {A} (m : M A) : Prop :=
  forall self : PCA,
    state_of (m self) = self /\ warnings_of (m self) = [].

Definition no_nan (l : list npfloat) : Prop :=
  Forall (fun x => isnan x = false) l.

(** Largest first. *)
Definition descending (l : list npfloat) : Prop :=
  StronglySorted (fun a b => fle b a = true) l.

(** Smallest first. *)
Definition ascending (l : list npfloat) : Prop :=
  StronglySorted (fun a b => fle a b = true) l.

Section SpecSideMore.

Context {collab : Collaborators}.

(** The state a successful [compute_pca] leaves when it has selected
    [k] eigenvalues. *)
Definition after_compute_pca (self : PCA) (mean_sub : bool) (k : Z) : PCA :=
  let cov := var_cov_cube (covariance_input self) mean_sub in
  let all := rev (np_sort (fst (eigh cov))) in
  let total := np_sum (if mean_sub then all else skipn 1 all) in
  let part := if mean_sub then firstn (Z.to_nat k) all
              else skipn 1 (firstn (Z.to_nat k) all) in
  store_mean_sub mean_sub
    (store_eigvecs
       (take_columns (snd (eigh cov)) (rev (np_argsort (fst (eigh cov)))))
       (store_eigvals all
          (store_var_prop (fdiv (np_sum part) total)
             (store_total_variance total
                (store_n_eigs k
                   (store_cov_matrix cov (store_decomp_only true self))))))).

(** How [compute_pca] arrives at the number [k] of eigenvalues. *)
Definition selected (self : PCA) (mean_sub : bool) (n_in : n_eigs_arg)
    (min_eigval : option npfloat) (method : string) (k : Z) : Prop :=
  match n_in with
  | Auto =>
      exists m : npfloat,
        min_eigval = Some m /\
        set_n_eigs (sorted_eigenvalues self mean_sub) m method = Ok k
  | Count n =>
      (n = (-1)%Z /\ k = spectral_shape self) \/
      ((1 <= n <= spectral_shape self)%Z /\ k = n)
  end.

End SpecSideMore.

(** The number of images in what [eigimages] or [autocorr_images]
    returns. *)
Definition n_images (a : ndarray) : nat :=
  match a with
  | Arr1 _ => 0
  | Arr2 _ => 1
  | Arr3 s => length s
  end.

(** A method that leaves the part [proj] of the instance as it was,
    whether it returns or raises. *)
Definition keeps {A B} (proj : PCA -> B) (m : M A) : Prop :=
  forall self : PCA, proj (state_of (m self)) = proj self.

(** What the decomposition stores. *)
Definition decomposition (self : PCA) :=
  (_data self, dtype self, spectral_shape self, _n_eigs self,
   cov_matrix self, _total_variance self, _var_prop self, _eigvals self,
   _eigvecs self, _mean_sub self).

(** What the width estimates store. *)
Definition widths (self : PCA) :=
  (_spatial_width self, _spatial_width_error self, _spectral_width self,
   _spectral_width_error self).

(** What the fit stores. *)
Definition fit_results (self : PCA) :=
  (_fit_method self, _samps self, _index self, _index_error_range self,
   _intercept self, _intercept_error_range self).

(** [measured] after an ODR fit with index 1 +/- 0.1 and logarithmic
    intercept 0 +/- 0.2. *)
Definition fitted_odr : PCA :=
  store_intercept_error_range (fins [Rpower 10 (-0.2); Rpower 10 0.2])
    (store_intercept (Fin 1)
       (store_index_error_range (fins [0.9; 1.1])
          (store_index (Fin 1)
             (store_fit_method "odr" (store_decomp_only false measured))))).

(** [PCA(diag_cube).run(mean_sub=False, n_eigs=3, brunt_beamcorrect=False)]
    with the collaborators of [diag_collab]. *)
Definition fully_run : PCA :=
  store_intercept_error_range (fins [Rpower 10 (-0.2); Rpower 10 0.2])
    (store_intercept (Fin 1)
       (store_index_error_range (fins [0.9; 1.1])
          (store_index (Fin 1)
             (store_fit_method "odr"
                (store_spectral_width_error (fins [0.1; 0.1; 0.1])
                   (store_spectral_width (fins [2; 20; 200])
                      (store_spatial_width_error (fins [0.1; 0.1; 0.1])
                         (store_spatial_width (fins [1; 10; 100])
                            (store_decomp_only false decomposed))))))))).



(** An attribute that has been assigned. *)
Definition has {A} (field : PCA -> option A) (self : PCA) : Prop :=
  exists a : A, field self = Some a.

(* ================================================================= *)
(** * Properties *)

(** ** Deciding comparisons of reals *)

Local Open Scope R_scope.

Lemma Rltb_true (a b : R) : a < b -> Rltb a b = true.
Proof. unfold Rltb. destruct (Rlt_dec a b); [reflexivity | contradiction]. Qed.

Lemma Rltb_false (a b : R) : ~ a < b -> Rltb a b = false.
Proof. unfold Rltb. destruct (Rlt_dec a b); [contradiction | reflexivity]. Qed.

Lemma Rleb_true (a b : R) : a <= b -> Rleb a b = true.
Proof. unfold Rleb. destruct (Rle_dec a b); [reflexivity | contradiction]. Qed.

Lemma Rleb_false (a b : R) : ~ a <= b -> Rleb a b = false.
Proof. unfold Rleb. destruct (Rle_dec a b); [contradiction | reflexivity]. Qed.

Lemma Reqb_true (a b : R) : a = b -> Reqb a b = true.
Proof. unfold Reqb. destruct (Req_dec_T a b); [reflexivity | contradiction]. Qed.

Lemma Reqb_false (a b : R) : a <> b -> Reqb a b = false.
Proof. unfold Reqb. destruct (Req_dec_T a b); [contradiction | reflexivity]. Qed.

(** Settle every comparison of reals that occurs in the goal. *)
Ltac rdec :=
  unfold Rltb, Rleb, Reqb in *;
  repeat match goal with
         | |- context [Rlt_dec ?a ?b] => destruct (Rlt_dec a b); try lra
         | |- context [Rle_dec ?a ?b] => destruct (Rle_dec a b); try lra
         | |- context [Req_dec_T ?a ?b] => destruct (Req_dec_T a b); try lra
         end.

(** Equal finite values: equal reals. *)
Ltac fin_eq := repeat (f_equal; try lra).

Lemma Fin_inj (a b : R) : Fin a = Fin b -> a = b.
Proof. intros H; injection H; auto. Qed.

Lemma fadd_0_l (x : npfloat) : fadd (Fin 0) x = x.
Proof. destruct x; simpl; try reflexivity. f_equal; lra. Qed.

Lemma fle_refl_fin (c : R) : fle (Fin c) (Fin c) = true.
Proof. simpl. apply Rleb_true. lra. Qed.

(* ----------------------------------------------------------------- *)
(** ** The gamma correction *)

Lemma brunt_low (v : R) :
  v < 0.67 -> brunt_index_correct (Fin v) = Fin ((v - 0.32) / 0.59).
Proof.
  intros Hv. unfold brunt_index_correct. simpl.
  rewrite (Rltb_true Hv). rewrite Reqb_false by lra. reflexivity.
Qed.

Lemma brunt_high (v : R) :
  ~ v < 0.67 -> brunt_index_correct (Fin v) = Fin ((v - 0.03) / 1.07).
Proof.
  intros Hv. unfold brunt_index_correct. simpl.
  rewrite (Rltb_false Hv). rewrite Reqb_false by lra. reflexivity.
Qed.

(** C5.  [brunt_index_correct] is [(value - 0.32) / 0.59] below 0.67 and
    [(value - 0.03) / 1.07] otherwise (a value that is not below 0.67,
    NaN included, takes the second formula); [PCA.gamma] applies it to the
    fitted index and [PCA.gamma_error_range] to each bound of
    [index_error_range] on its own; at 0.67 the function takes the second
    branch, and the two formulas have the values [(0.67-0.32)/0.59] and
    [(0.67-0.03)/1.07] there. *)
Theorem brunt_index_correct_piecewise :
  (forall v : R, v < 0.67 ->
     brunt_index_correct (Fin v) = Fin ((v - 0.32) / 0.59)) /\
  (forall x : npfloat, flt x (Fin 0.67) = false ->
     brunt_index_correct x = fdiv (fsub x (Fin 0.03)) (Fin 1.07)) /\
  (forall v : R, ~ v < 0.67 ->
     brunt_index_correct (Fin v) = Fin ((v - 0.03) / 1.07)) /\
  (forall (self : PCA) (i : npfloat), _index self = Some i ->
     gamma self = (Ok (brunt_index_correct i), self, [])) /\
  (forall (self : PCA) (lo hi : npfloat),
     _index_error_range self = Some [lo; hi] ->
     gamma_error_range self =
       (Ok [brunt_index_correct lo; brunt_index_correct hi], self, [])) /\
  brunt_index_correct (Fin 0.67) = Fin ((0.67 - 0.03) / 1.07) /\
  fdiv (fsub (Fin 0.67) (Fin 0.32)) (Fin 0.59) = Fin ((0.67 - 0.32) / 0.59) /\
  fdiv (fsub (Fin 0.67) (Fin 0.03)) (Fin 1.07) = Fin ((0.67 - 0.03) / 1.07).
Proof.
  repeat split.
  - exact brunt_low.
  - intros x Hx. unfold brunt_index_correct. rewrite Hx. reflexivity.
  - exact brunt_high.
  - intros self i Hi. unfold gamma, index, attr, bind, ret.
    rewrite Hi. reflexivity.
  - intros self lo hi Hr. unfold gamma_error_range, index_error_range, attr,
      bind, ret. rewrite Hr. reflexivity.
  - apply brunt_high. lra.
  - simpl. rewrite Reqb_false by lra. reflexivity.
  - simpl. rewrite Reqb_false by lra. reflexivity.
Qed.

(* ----------------------------------------------------------------- *)
(** ** Automatic mode selection *)

Lemma length_where_from (i : nat) (mask : list bool) :
  length (where_from i mask) = length (filter (fun b => b) mask).
Proof.
  revert i. induction mask as [|b t IH]; intros i; simpl; [reflexivity|].
  destruct b; simpl; rewrite IH; reflexivity.
Qed.

Lemma filter_map_length {A B} (f : A -> B) (p : B -> bool) (l : list A) :
  length (filter p (map f l)) = length (filter (fun a => p (f a)) l).
Proof.
  induction l as [|a t IH]; simpl; [reflexivity|].
  destruct (p (f a)); simpl; rewrite IH; reflexivity.
Qed.

Lemma count_where {A} (p : A -> bool) (l : list A) :
  length (np_where (map p l)) = length (filter p l).
Proof.
  unfold np_where. rewrite length_where_from.
  rewrite (filter_map_length p (fun b => b)). reflexivity.
Qed.

Lemma cumsum_from_prefix (l : list npfloat) : forall acc,
  cumsum_from acc l =
  map (fun i => fold_left fadd (firstn (S i) l) acc) (seq 0 (length l)).
Proof.
  induction l as [|x t IH]; intros acc; [reflexivity|].
  cbn [cumsum_from length seq map]. f_equal.
  rewrite IH, <- seq_shift, map_map. reflexivity.
Qed.

Lemma np_cumsum_prefix (l : list npfloat) :
  np_cumsum l = map (fun i => np_sum (firstn (S i) l)) (seq 0 (length l)).
Proof.
  destruct l as [|x t]; [reflexivity|].
  unfold np_cumsum, np_sum. cbn [length seq map]. f_equal.
  - simpl. symmetry. apply fadd_0_l.
  - rewrite cumsum_from_prefix, <- seq_shift, map_map.
    apply map_ext. intros i. cbn [firstn fold_left].
    rewrite fadd_0_l. reflexivity.
Qed.

(** When the counted positions are downward closed they are a leading
    run [0, 1, ..., k-1]. *)
Lemma filter_antitone_prefix (p : nat -> bool) (n : nat) :
  (forall i, p (S i) = true -> p i = true) ->
  filter p (seq 0 n) = seq 0 (length (filter p (seq 0 n))).
Proof.
  intros Hp.
  assert (Hdown : forall j i, (i <= j)%nat -> p j = true -> p i = true).
  { induction j as [|j IH]; intros i Hij Hj.
    - replace i with 0%nat by lia. exact Hj.
    - destruct (Nat.eq_dec i (S j)) as [->|Hne]; [exact Hj|].
      apply IH; [lia | apply Hp; exact Hj]. }
  induction n as [|n IH]; [reflexivity|].
  rewrite seq_S, filter_app. cbn [plus filter].
  destruct (p n) eqn:Hn.
  - assert (Hall : filter p (seq 0 n) = seq 0 n).
    { apply forallb_filter_id. apply forallb_forall. intros i Hi.
      apply in_seq in Hi. apply (Hdown n); [lia | exact Hn]. }
    rewrite Hall, length_app, length_seq. cbn [length].
    rewrite Nat.add_1_r, seq_S. reflexivity.
  - rewrite app_nil_r. exact IH.
Qed.

Lemma fold_left_fadd_fin (l : list R) : forall a,
  fold_left fadd (map Fin l) (Fin a) = Fin (a + rsum l).
Proof.
  induction l as [|x t IH]; intros a; simpl.
  - f_equal; lra.
  - rewrite IH. f_equal; lra.
Qed.

Lemma np_sum_fin (l : list R) : np_sum (map Fin l) = Fin (rsum l).
Proof. unfold np_sum. rewrite fold_left_fadd_fin. f_equal; lra. Qed.

Lemma rsum_firstn_mono (l : list R) : forall i,
  Forall (fun r => 0 <= r) l -> rsum (firstn i l) <= rsum (firstn (S i) l).
Proof.
  induction l as [|x t IH]; intros i Hl.
  - destruct i; simpl; lra.
  - inversion Hl as [|? ? Hx Ht]; subst.
    destruct i as [|i].
    + simpl. destruct t; simpl; lra.
    + specialize (IH i Ht). cbn [firstn rsum fold_right] in *.
      unfold rsum in IH. lra.
Qed.

Lemma Forall_div_nonneg (l : list R) (T : R) :
  0 < T -> Forall (fun r => 0 <= r) l ->
  Forall (fun r => 0 <= r) (map (fun r => r / T) l).
Proof.
  intros HT Hl. induction Hl as [|x t Hx Ht IH]; simpl; constructor; auto.
  apply Rle_mult_inv_pos; assumption.
Qed.

Lemma cumulative_normalized_fin (rs : list R) (i : nat) :
  0 < rsum rs ->
  cumulative_normalized (map Fin rs) i =
  Fin (rsum (firstn (S i) (map (fun r => r / rsum rs) rs))).
Proof.
  intros HT. unfold cumulative_normalized.
  rewrite np_sum_fin, map_map.
  rewrite (map_ext (fun x => fdiv (Fin x) (Fin (rsum rs)))
             (fun x => Fin (x / rsum rs))).
  - rewrite <- (map_map (fun r => r / rsum rs) Fin), firstn_map.
    apply np_sum_fin.
  - intros a. simpl. rewrite Reqb_false by lra. reflexivity.
Qed.

(** For finite non-negative eigenvalues with a positive total, as the
    eigenvalues of a covariance matrix are, the positions counted by the
    proportion method are the leading ones. *)
Lemma proportion_count_is_leading_run (rs : list R) (min_eigval : npfloat) :
  Forall (fun r => 0 <= r) rs -> 0 < rsum rs ->
  positions_within (map Fin rs) min_eigval =
  seq 0 (length (positions_within (map Fin rs) min_eigval)).
Proof.
  intros Hrs HT. unfold positions_within.
  apply filter_antitone_prefix. intros i.
  rewrite !cumulative_normalized_fin by assumption.
  pose proof (rsum_firstn_mono (S i) (Forall_div_nonneg HT Hrs)) as Hm.
  destruct min_eigval as [m| | |]; cbn [fle]; try congruence.
  unfold Rleb. destruct (Rle_dec _ m); [|discriminate].
  intros _. destruct (Rle_dec _ m); [reflexivity|]. lra.
Qed.

Lemma leading_run_of_prefix (p : nat -> bool) (l : list nat) :
  filter p l = firstn (length (filter p l)) l ->
  leading_run p l = filter p l.
Proof.
  induction l as [|x t IH]; intros H; cbn in *; [reflexivity|].
  destruct (p x) eqn:Hx.
  - cbn in H. injection H as H. rewrite (IH H). reflexivity.
  - destruct (filter p t) as [|y u] eqn:Hf; [reflexivity|].
    cbn in H. injection H as Hy _. subst y.
    assert (Hin : In x (filter p t)) by (rewrite Hf; left; reflexivity).
    apply filter_In in Hin. destruct Hin as [_ Hp]. congruence.
Qed.

Lemma firstn_seq_prefix (k : nat) : forall s n : nat,
  (k <= n)%nat -> firstn k (seq s n) = seq s k.
Proof.
  induction k as [|k IH]; intros s n Hk; [reflexivity|].
  destruct n as [|n]; [lia|]. cbn. rewrite IH by lia. reflexivity.
Qed.

Lemma positions_within_bound (eigenvalues : list npfloat) (m : npfloat) :
  (length (positions_within eigenvalues m) <= length eigenvalues)%nat.
Proof.
  unfold positions_within.
  assert (H : forall (p : nat -> bool) (l : list nat),
            (length (filter p l) <= length l)%nat).
  { intros p l. induction l as [|x t IH]; cbn; [lia|].
    destruct (p x); cbn; lia. }
  specialize (H (fun i => fle (cumulative_normalized eigenvalues i) m)
                (seq 0 (length eigenvalues))).
  rewrite length_seq in H. exact H.
Qed.

(** C4, as the code has it.  With [method='value'], [set_n_eigs]
    returns the number of eigenvalues that are at least [min_eigval];
    with [method='proportion'] it returns the number of positions,
    anywhere in the array, at which the cumulative normalized sum is at
    most [min_eigval], and a position at which that sum equals the
    threshold is one of those counted.  For finite non-negative
    eigenvalues with a positive total, as those of a covariance matrix
    are, the counted positions are the leading ones, and the result is
    the count of the leading eigenvalues within the threshold. *)
Theorem set_n_eigs_counts (eigenvalues : list npfloat)
    (min_eigval : npfloat) :
  set_n_eigs eigenvalues min_eigval "value" =
    Ok (Z.of_nat (length (filter (fun e => fle min_eigval e) eigenvalues))) /\
  set_n_eigs eigenvalues min_eigval "proportion" =
    Ok (Z.of_nat (length (positions_within eigenvalues min_eigval))) /\
  (forall (i : nat) (c : R),
     (i < length eigenvalues)%nat ->
     cumulative_normalized eigenvalues i = Fin c ->
     min_eigval = Fin c ->
     In i (positions_within eigenvalues min_eigval)) /\
  (forall rs : list R,
     eigenvalues = fins rs ->
     Forall (fun r => 0 <= r) rs -> 0 < rsum rs ->
     positions_within eigenvalues min_eigval =
       leading_within eigenvalues min_eigval /\
     leading_within eigenvalues min_eigval =
       seq 0 (length (leading_within eigenvalues min_eigval)) /\
     set_n_eigs eigenvalues min_eigval "proportion" =
       Ok (Z.of_nat (length (leading_within eigenvalues min_eigval)))).
Proof.
  assert (Hprop : set_n_eigs eigenvalues min_eigval "proportion" =
    Ok (Z.of_nat (length (positions_within eigenvalues min_eigval)))).
  { unfold set_n_eigs, positions_within.
    cbn [String.eqb Ascii.eqb Bool.eqb].
    rewrite count_where, np_cumsum_prefix, filter_map_length, length_map.
    reflexivity. }
  split; [|split; [exact Hprop|split]].
  - unfold set_n_eigs. cbn [String.eqb Ascii.eqb Bool.eqb].
    rewrite count_where. reflexivity.
  - intros i c Hi Hc Hm. unfold positions_within.
    apply filter_In. split.
    + apply in_seq. lia.
    + rewrite Hc, Hm. apply fle_refl_fin.
  - intros rs -> Hrs HT.
    pose proof (proportion_count_is_leading_run min_eigval Hrs HT) as Hrun.
    fold (fins rs) in Hrun.
    assert (Hlead : leading_within (fins rs) min_eigval =
                    positions_within (fins rs) min_eigval).
    { unfold leading_within. apply leading_run_of_prefix.
      fold (positions_within (fins rs) min_eigval).
      rewrite firstn_seq_prefix by apply positions_within_bound.
      exact Hrun. }
    rewrite Hlead. split; [reflexivity|]. split; [exact Hrun | exact Hprop].
Qed.

(** C4, as stated, fails: with the eigenvalues 3, 1, -1 and the
    threshold 1 the cumulative normalized sums are 1, 4/3 and 1; the
    proportion method counts positions 0 and 2 and returns 2, while
    only one leading eigenvalue is within the threshold. *)
Lemma proportion_counts_past_a_gap :
  set_n_eigs (fins [3; 1; -1]) (Fin 1) "proportion" = Ok 2%Z /\
  positions_within (fins [3; 1; -1]) (Fin 1) = [0; 2]%nat /\
  leading_within (fins [3; 1; -1]) (Fin 1) = [0%nat].
Proof.
  change (fins [3; 1; -1]) with [Fin 3; Fin 1; Fin (-1)].
  assert (H0 : cumulative_normalized [Fin 3; Fin 1; Fin (-1)] 0 = Fin 1).
  { unfold cumulative_normalized, np_sum. cbn.
    rewrite Reqb_false by lra. cbn. f_equal. field. }
  assert (H1 : cumulative_normalized [Fin 3; Fin 1; Fin (-1)] 1
               = Fin (4 / 3)).
  { unfold cumulative_normalized, np_sum. cbn.
    rewrite !Reqb_false by lra. cbn. f_equal. field. }
  assert (H2 : cumulative_normalized [Fin 3; Fin 1; Fin (-1)] 2 = Fin 1).
  { unfold cumulative_normalized, np_sum. cbn.
    rewrite !Reqb_false by lra. cbn. f_equal. field. }
  assert (Hpos : positions_within [Fin 3; Fin 1; Fin (-1)] (Fin 1)
                 = [0; 2]%nat).
  { unfold positions_within. cbn [length seq filter].
    rewrite H0, H1, H2. cbn [fle].
    rewrite (Rleb_true (a := 1) (b := 1)) by lra.
    rewrite (Rleb_false (a := 4 / 3) (b := 1)) by lra. reflexivity. }
  split; [|split; [exact Hpos|]].
  - assert (Hp : set_n_eigs [Fin 3; Fin 1; Fin (-1)] (Fin 1) "proportion" =
      Ok (Z.of_nat
            (length (positions_within [Fin 3; Fin 1; Fin (-1)] (Fin 1))))).
    { unfold set_n_eigs, positions_within.
      cbn [String.eqb Ascii.eqb Bool.eqb].
      rewrite count_where, np_cumsum_prefix, filter_map_length, length_map.
      reflexivity. }
    rewrite Hp, Hpos. reflexivity.
  - unfold leading_within. cbn [length seq leading_run].
    rewrite H0, H1. cbn [fle].
    rewrite (Rleb_true (a := 1) (b := 1)) by lra.
    rewrite (Rleb_false (a := 4 / 3) (b := 1)) by lra. reflexivity.
Qed.

(* ----------------------------------------------------------------- *)
(** ** Construction: what happens to non-finite samples *)

Lemma patch_nan_not_nan (d : float_dtype) (x : npfloat) :
  negb (isnan (patch_nan d x)) = true.
Proof. destruct x; reflexivity. Qed.

Lemma finfo_eps_pos (d : float_dtype) : 0 < finfo_eps d.
Proof. destruct d; simpl; lra. Qed.

Lemma sample_patch_cube (d : float_dtype) (c : cube) (k i j : nat) :
  sample (patch_cube d c) k i j = option_map (patch_nan d) (sample c k i j).
Proof.
  unfold sample, patch_cube, cube, image in *.
  rewrite nth_error_map.
  destruct (nth_error c k) as [im|]; cbn [option_map]; [|reflexivity].
  rewrite nth_error_map.
  destruct (nth_error im i) as [row|]; cbn [option_map]; [|reflexivity].
  apply nth_error_map.
Qed.

Lemma PCA_init_data (c : cube_input) (n : option Z) (self : PCA) :
  PCA_init c n = Ok self ->
  covariance_input self = patch_cube (arr_dtype c) (arr c).
Proof.
  unfold PCA_init, _enforce_velocity_axis.
  destruct (spectral_is_velocity c); simpl; [|discriminate].
  destruct n; [discriminate|]. intros H. injection H as <-. reflexivity.
Qed.

(** C9, as the code has it.  Construction replaces every NaN sample by
    the machine epsilon of the data's dtype, which is positive and so
    not zero, and leaves every other sample, the infinite ones included,
    as it is; the array handed to the covariance builder holds no NaN. *)
Theorem init_replaces_nan_by_eps (c : cube_input) (n : option Z)
    (self : PCA) :
  PCA_init c n = Ok self ->
  cube_forall (fun x => negb (isnan x)) (covariance_input self) = true /\
  (forall k i j x, sample (arr c) k i j = Some x ->
     sample (covariance_input self) k i j =
     Some (if isnan x then Fin (finfo_eps (arr_dtype c)) else x)) /\
  0 < finfo_eps (arr_dtype c) /\
  Fin (finfo_eps (arr_dtype c)) <> Fin 0.
Proof.
  intros Hinit. rewrite (PCA_init_data _ _ Hinit).
  split; [|split; [|split]].
  - unfold cube_forall, patch_cube.
    apply forallb_forall. intros im Him. apply in_map_iff in Him.
    destruct Him as (im0 & <- & _).
    apply forallb_forall. intros row Hrow. apply in_map_iff in Hrow.
    destruct Hrow as (row0 & <- & _).
    apply forallb_forall. intros x Hx. apply in_map_iff in Hx.
    destruct Hx as (x0 & <- & _). apply patch_nan_not_nan.
  - intros k i j x Hx. rewrite sample_patch_cube, Hx. reflexivity.
  - apply finfo_eps_pos.
  - intros H. apply Fin_inj in H. pose proof (finfo_eps_pos (arr_dtype c)).
    lra.
Qed.

(** C9, as stated, fails: an infinite sample goes through construction
    unchanged, so the array seen by the covariance builder is not all
    finite. *)
Lemma init_keeps_infinite_sample :
  exists self : PCA,
    PCA_init cube_with_inf None = Ok self /\
    sample (covariance_input self) 0 0 0 = Some PInf /\
    cube_forall isfinite (covariance_input self) = false.
Proof.
  eexists. split; [reflexivity|]. split; reflexivity.
Qed.

(* ----------------------------------------------------------------- *)
(** ** Sequencing *)

Lemma bind_ret_l {A B} (a : A) (k : A -> M B) (self : PCA) :
  bind (ret a) k self = k a self.
Proof.
  unfold bind, ret. destruct (k a self) as [[r s] w]. reflexivity.
Qed.

Lemma bind_ok {A B} (m : M A) (k : A -> M B) (self self1 : PCA) (a : A)
    (w1 : list string) :
  m self = (Ok a, self1, w1) ->
  bind m k self =
    (result_of (k a self1), state_of (k a self1),
     (w1 ++ warnings_of (k a self1))%list).
Proof.
  intros Hm. unfold bind. rewrite Hm.
  destruct (k a self1) as [[r s] w]. reflexivity.
Qed.

Lemma bind_raise {A B} (m : M A) (k : A -> M B) (self self1 : PCA) (e : exn)
    (w1 : list string) :
  m self = (Raise e, self1, w1) -> bind m k self = (Raise e, self1, w1).
Proof. intros Hm. unfold bind. rewrite Hm. reflexivity. Qed.

Lemma bind_modify {B} (f : PCA -> PCA) (k : unit -> M B) (self : PCA) :
  bind (modify f) k self = k tt (f self).
Proof.
  unfold bind, modify. destruct (k tt (f self)) as [[r s] w]. reflexivity.
Qed.

Lemma bind_get {B} (k : PCA -> M B) (self : PCA) :
  bind get k self = k self self.
Proof.
  unfold bind, get. destruct (k self self) as [[r s] w]. reflexivity.
Qed.

Lemma bind_attr {A B} (name : string) (field : PCA -> option A)
    (k : A -> M B) (self : PCA) (a : A) :
  field self = Some a -> bind (attr name field) k self = k a self.
Proof.
  intros Hf. unfold bind, attr. rewrite Hf.
  destruct (k a self) as [[r s] w]. reflexivity.
Qed.

Lemma bind_attr_missing {A B} (name : string) (field : PCA -> option A)
    (k : A -> M B) (self : PCA) :
  field self = None ->
  bind (attr name field) k self = (Raise (Exn AttributeError name), self, []).
Proof. intros Hf. unfold bind, attr. rewrite Hf. reflexivity. Qed.

Lemma bind_lift_ok {A B} (a : A) (k : A -> M B) (self : PCA) :
  bind (lift (Ok a)) k self = k a self.
Proof.
  unfold bind, lift. destruct (k a self) as [[r s] w]. reflexivity.
Qed.

Lemma bind_lift_raise {A B} (e : exn) (k : A -> M B) (self : PCA) :
  bind (lift (Raise e)) k self = (Raise e, self, []).
Proof. reflexivity. Qed.

Lemma bind_raise_l {A B} (c : exn_class) (msg : string) (k : A -> M B)
    (self : PCA) :
  bind (raise c msg) k self = (Raise (Exn c msg), self, []).
Proof. reflexivity. Qed.

Lemma bind_warn {B} (msg : string) (k : unit -> M B) (self : PCA) :
  bind (warn msg) k self =
    (result_of (k tt self), state_of (k tt self),
     msg :: warnings_of (k tt self)).
Proof.
  unfold bind, warn. destruct (k tt self) as [[r s] w]. reflexivity.
Qed.

Lemma bind_assoc {A B C} (m : M A) (f : A -> M B) (g : B -> M C)
    (self : PCA) :
  bind (bind m f) g self = bind m (fun a => bind (f a) g) self.
Proof.
  unfold bind. destruct (m self) as [[[a|e] s1] w1]; [|reflexivity].
  destruct (f a s1) as [[[b|e] s2] w2]; [|reflexivity].
  destruct (g b s2) as [[r s3] w3]. rewrite app_assoc. reflexivity.
Qed.

(** Step through the straight-line part of a method. *)
Ltac step :=
  first
    [ rewrite bind_modify
    | rewrite bind_get
    | rewrite bind_ret_l
    | rewrite bind_lift_ok
    | rewrite bind_lift_raise
    | rewrite bind_raise_l
    | erewrite bind_attr by reflexivity ].

(* ----------------------------------------------------------------- *)
(** ** Slices *)

Lemma py_slice_negative_start {A} (n : Z) (l : list A) :
  (n < 0)%Z -> py_slice (Some n) None l = lastn (Z.to_nat (- n)) l.
Proof.
  intros Hn. unfold py_slice, lastn, clamp_index.
  destruct (Z.ltb_spec n 0) as [_|]; [|lia].
  replace (Z.to_nat (Z.max (Z.of_nat (length l) + n) 0))
    with (length l - Z.to_nat (- n))%nat by lia.
  apply firstn_all2. rewrite length_skipn. lia.
Qed.

Lemma py_slice_to {A} (k : Z) (l : list A) :
  (0 <= k)%Z -> py_slice None (Some k) l = firstn (Z.to_nat k) l.
Proof.
  intros Hk. unfold py_slice, clamp_index.
  destruct (Z.ltb_spec k 0) as [|_]; [lia|].
  cbn [Z.to_nat skipn]. rewrite Z.sub_0_r.
  destruct (Z.min_spec k (Z.of_nat (length l))) as [[_ ->]|[H ->]];
    [reflexivity|].
  rewrite Nat2Z.id. rewrite firstn_all. symmetry. apply firstn_all2. lia.
Qed.

Lemma py_slice_from_1 {A} (l : list A) :
  py_slice (Some 1%Z) None l = skipn 1 l.
Proof.
  unfold py_slice, clamp_index. cbn [Z.ltb Z.compare].
  destruct l as [|x t]; [reflexivity|].
  replace (Z.min 1 (Z.of_nat (length (x :: t)))) with 1%Z
    by (cbn [length]; lia).
  apply firstn_all2. rewrite length_skipn. lia.
Qed.

Lemma py_slice_1_to {A} (k : Z) (l : list A) :
  (0 <= k)%Z ->
  py_slice (Some 1%Z) (Some k) l = skipn 1 (firstn (Z.to_nat k) l).
Proof.
  intros Hk. unfold py_slice, clamp_index. cbn [Z.ltb Z.compare].
  destruct (Z.ltb_spec k 0) as [|_]; [lia|].
  destruct l as [|x t].
  - cbn. rewrite firstn_nil. destruct (Z.to_nat k); reflexivity.
  - replace (Z.min 1 (Z.of_nat (length (x :: t)))) with 1%Z
      by (cbn [length]; lia).
    change (Z.to_nat 1) with 1%nat.
    rewrite skipn_firstn_comm.
    destruct (Z.min_spec k (Z.of_nat (length (x :: t)))) as [[_ ->]|[H ->]].
    + f_equal. lia.
    + rewrite !firstn_all2; [reflexivity| |]; rewrite length_skipn;
        cbn [length] in *; lia.
Qed.

Section Properties.

Context {collab : Collaborators}.

(* ----------------------------------------------------------------- *)
(** ** A rejected fit method *)

(** C8 on the code.  With a [fit_method] other than 'odr' and 'bayes',
    [fit_plaw] raises at its check, without a warning and with the
    stored fit-method name and all other attributes as they were; but
    the decomposition-only flag has been assigned [False] before the
    check, so a state whose flag was [True] (or unset) is not the state
    it was before the call. *)
Theorem fit_plaw_invalid_method (self : PCA) (fit_method : string) :
  fit_method <> "odr" -> fit_method <> "bayes" ->
  fit_plaw fit_method self =
    (Raise (Exn TypeError "fit_method must be 'odr' or 'bayes'."),
     store_decomp_only false self, []) /\
  _fit_method (state_of (fit_plaw fit_method self)) = _fit_method self /\
  _decomp_only (state_of (fit_plaw fit_method self)) = Some false /\
  (_decomp_only self <> Some false ->
   state_of (fit_plaw fit_method self) <> self).
Proof.
  intros Hodr Hbayes.
  assert (Heq : fit_plaw fit_method self =
    (Raise (Exn TypeError "fit_method must be 'odr' or 'bayes'."),
     store_decomp_only false self, [])).
  { unfold fit_plaw, bind, modify.
    apply String.eqb_neq in Hodr. apply String.eqb_neq in Hbayes.
    rewrite Hodr, Hbayes. reflexivity. }
  rewrite Heq. unfold state_of. cbn [fst snd].
  split; [reflexivity|]. destruct self; cbn.
  split; [reflexivity|]. split; [reflexivity|].
  intros Hflag Hsame. apply Hflag. injection Hsame. auto.
Qed.

(* ----------------------------------------------------------------- *)
(** ** Negative mode counts *)

Lemma valid_eigenvectors_run (self : PCA) (ev : list npfloat) :
  _eigvals self = Some ev ->
  _valid_eigenvectors self =
    (Ok (np_where (map (fun e => fge e (Fin (finfo_eps (dtype self)))) ev)),
     self, []).
Proof.
  intros Hev. unfold _valid_eigenvectors, eigvals, attr, bind, get, ret.
  rewrite Hev. reflexivity.
Qed.

Lemma py_range_nonpositive (n : Z) : (n <= 0)%Z -> py_range n = [].
Proof.
  intros Hn. unfold py_range. replace (Z.to_nat n) with 0%nat by lia.
  reflexivity.
Qed.

(** C10.  For a negative [n_eigs], [autocorr_spec] iterates over an
    empty range, never binds [acors] and raises instead of returning,
    whatever the state; [eigimages] iterates over the last [|n_eigs|]
    valid eigenvectors, and [autocorr_images] hands the negative count
    to [eigimages] unchanged. *)
Theorem autocorr_spec_negative_raises (self : PCA) (n : Z) :
  (n < 0)%Z ->
  py_range n = [] /\
  autocorr_spec (Some n) self =
    (Raise (Exn UnboundLocalError "acors"), self, []) /\
  (forall ev, _eigvals self = Some ev ->
     eigimages_iterat n self =
       (Ok (lastn (Z.to_nat (- n))
              (np_where
                 (map (fun e => fge e (Fin (finfo_eps (dtype self)))) ev))),
        self, [])) /\
  eigimages (Some n) self =
    (iterat <- eigimages_iterat n ;;
     imgs <- for_each iterat []
               (fun acc idx => im <- eigimage idx ;; ret (acc ++ [im])%list) ;;
     stack_results "eigimgs" imgs) self /\
  autocorr_images (Some n) self =
    (eigimgs <- eigimages (Some n) ;;
     match eigimgs with
     | Arr3 imgs => stack_results "acors" (map autocorr2d imgs)
     | Arr2 [] | Arr1 [] => raise UnboundLocalError "acors"
     | Arr2 (_ :: _) | Arr1 (_ :: _) =>
         raise IndexError "fft2 of an array with less than two axes"
     end) self.
Proof.
  intros Hn. split; [apply py_range_nonpositive; lia|].
  split; [|split; [|split]].
  - unfold autocorr_spec, bind, ret.
    rewrite py_range_nonpositive by lia. reflexivity.
  - intros ev Hev. unfold eigimages_iterat.
    destruct (Z.gtb_spec n 0) as [|_]; [lia|].
    destruct (Z.ltb_spec n 0) as [_|]; [|lia].
    unfold bind. rewrite (valid_eigenvectors_run _ Hev).
    unfold ret. rewrite py_slice_negative_start by lia. reflexivity.
  - unfold eigimages. rewrite bind_ret_l. reflexivity.
  - unfold autocorr_images. rewrite bind_ret_l. reflexivity.
Qed.

End Properties.

(* ----------------------------------------------------------------- *)
(** ** The points a fit is made from *)

Lemma map2_map {A B C D} (f : B -> C -> D) (g : A -> B) (h : A -> C) (l : list A) :
  map2 f (map g l) (map h l) = map (fun a => f (g a) (h a)) l.
Proof. induction l; simpl; congruence. Qed.

Lemma broadcast2_map {A B C D} (f : B -> C -> D) (g : A -> B) (h : A -> C) (l : list A) :
  broadcast2 f (map g l) (map h l) = Ok (map (fun a => f (g a) (h a)) l).
Proof. unfold broadcast2. rewrite !length_map, Nat.eqb_refl, map2_map. reflexivity. Qed.

Lemma finite_mask_modes (ms : list mode) :
  finite_mask (map m_spectral ms) (map m_spatial ms) (map m_spatial_err ms)
    (map m_spectral_err ms) = Ok (map mode_is_valid ms).
Proof.
  unfold finite_mask. rewrite !map_map.
  rewrite (broadcast2_map andb (fun m => isfinite (m_spectral m))). cbn [rbind].
  rewrite (broadcast2_map andb _ (fun m => isfinite (m_spatial_err m))). cbn [rbind].
  rewrite (broadcast2_map andb _ (fun m => isfinite (m_spectral_err m))). reflexivity.
Qed.

Lemma mask_select_map {A B} (g : A -> B) (p : A -> bool) (l : list A) :
  mask_select (map g l) (map p l) = Ok (map g (filter p l)).
Proof.
  unfold mask_select. rewrite !length_map, Nat.eqb_refl. f_equal.
  induction l as [|a t IH]; simpl; [reflexivity|].
  destruct (p a); simpl; rewrite IH; reflexivity.
Qed.

Lemma count_false_map {A} (p : A -> bool) (l : list A) :
  (Z.of_nat (length l) - count_false (map p l) = Z.of_nat (length (filter p l)))%Z.
Proof.
  unfold count_false.
  assert (H : length l = (length (filter negb (map p l)) + length (filter p l))%nat).
  { induction l as [|a t IH]; cbn [length map filter]; [reflexivity|].
    destruct (p a); cbn [negb length]; lia. }
  lia.
Qed.


Lemma log_error_modes (g h : mode -> npfloat) (ms : list mode) :
  log_error (map g ms) (map h ms) (map mode_is_valid ms) =
  Ok (map (fun m => fdiv (fmul (Fin 0.434) (g m)) (h m)) (filter mode_is_valid ms)).
Proof.
  unfold log_error. rewrite !mask_select_map. cbn [rbind].
  rewrite map_map. apply (broadcast2_map fdiv).
Qed.

Section FitProperties.
Context {collab : Collaborators}.

(** C6.  [fit_plaw] keeps the modes whose spectral width, spatial width
    and two errors are all finite; with fewer than 2 of them it raises
    (the exception of the source is [Warning]) before any regression;
    with 2 to 4 of them it emits one warning and goes on to run the
    regression of the chosen engine on the logarithms of the kept modes
    and to store its results; with 5 or more it does the same without a
    warning. *)
Theorem fit_plaw_point_count (self : PCA) (ms : list mode)
    (fit_method : string) :
  _spectral_width self = Some (map m_spectral ms) ->
  _spatial_width self = Some (map m_spatial ms) ->
  _spatial_width_error self = Some (map m_spatial_err ms) ->
  _spectral_width_error self = Some (map m_spectral_err ms) ->
  fit_method = "odr" \/ fit_method = "bayes" ->
  let vm := filter mode_is_valid ms in
  let out := fit_plaw fit_method self in
  let params := fst (fst (regression fit_method vm)) in
  let errors := snd (fst (regression fit_method vm)) in
  ((length vm < 2)%nat ->
     result_of out =
       Raise (Exn PyWarning "Less then 2 valid points. Cannot fit model.") /\
     warnings_of out = []) /\
  ((2 <= length vm)%nat ->
     result_of out = Ok tt /\
     warnings_of out =
       (if (length vm <? 5)%nat then [few_points_warning] else []) /\
     _fit_method (state_of out) = Some fit_method /\
     _index (state_of out) = Some (fst params) /\
     _index_error_range (state_of out) = Some (fst errors) /\
     _intercept (state_of out) = Some (np_power (Fin 10) (snd params)) /\
     _intercept_error_range (state_of out) =
       Some (map (np_power (Fin 10)) (snd errors)) /\
     (fit_method = "bayes" ->
      _samps (state_of out) = snd (regression fit_method vm))).
Proof.
  intros H1 H2 H3 H4 Hm vm out params errors. subst params errors.
  assert (Hchk : negb (fit_method =? "odr") && negb (fit_method =? "bayes") = false).
  { destruct Hm as [-> | ->]; reflexivity. }
  destruct self as [d0 d1 d2 d3 d4 d5 d6 d7 d8 d9 d10 d11 d12 d13 d14 d15 d16
    d17 d18 d19 d20].
  cbn in H1, H2, H3, H4. subst.
  subst out. unfold fit_plaw.
  rewrite bind_modify. rewrite Hchk. rewrite bind_ret_l. rewrite bind_modify.
  unfold spectral_width, spatial_width, spatial_width_error, spectral_width_error.
  cbn [store_decomp_only store_fit_method].
  repeat step.
  rewrite finite_mask_modes. step.
  rewrite length_map, count_false_map. fold vm.
  rewrite !mask_select_map, !log_error_modes. cbn [rbind]. fold vm.
  rewrite !map_map.
  change (map (fun x : mode => np_log10 (m_spectral x)) vm) with (log_y vm).
  change (map (fun x : mode => np_log10 (m_spatial x)) vm) with (log_x vm).
  change (map (fun m : mode => fdiv (fmul (Fin 0.434) (m_spectral_err m)) (m_spectral m)) vm) with (log_y_err vm).
  change (map (fun m : mode => fdiv (fmul (Fin 0.434) (m_spatial_err m)) (m_spatial m)) vm) with (log_x_err vm).
  split.
  - intros Hn. destruct (Z.ltb_spec (Z.of_nat (length vm)) 2) as [_|]; [|lia].
    rewrite bind_raise_l. split; reflexivity.
  - intros Hn. destruct (Z.ltb_spec (Z.of_nat (length vm)) 2) as [|_]; [lia|].
    assert (Hrest : forall st0,
      exists final,
      (y <- lift (Ok (log_y vm));;
       x <- lift (Ok (log_x vm));;
       y_err <- lift (Ok (log_y_err vm));;
       x_err <- lift (Ok (log_x_err vm));;
       fitted <-
       (if fit_method =? "odr"
        then
         let
         '(params, errors) := leastsq_linear x y x_err y_err in
          ret
            (params,
             ([fsub (fst params) (fst errors); fadd (fst params) (fst errors)],
              [fsub (snd params) (snd errors); fadd (snd params) (snd errors)]))
        else
         let
         '(params, errors, samps) := bayes_linear x y x_err y_err in
          modify (store_samps samps);;; ret (params, errors));;
       modify (store_index (fst (fst fitted)));;;
       modify (store_index_error_range (fst (snd fitted)));;;
       modify (store_intercept (np_power (Fin 10) (snd (fst fitted))));;;
       modify
         (store_intercept_error_range
            (map (np_power (Fin 10)) (snd (snd fitted))))) st0 = (Ok tt, final, []) /\
       _fit_method final = _fit_method st0 /\
       _index final = Some (fst (fst (fst (regression fit_method vm)))) /\
     _index_error_range final = Some (fst (snd (fst (regression fit_method vm)))) /\
     _intercept final = Some (np_power (Fin 10) (snd (fst (fst (regression fit_method vm))))) /\
     _intercept_error_range final = Some (map (np_power (Fin 10)) (snd (snd (fst (regression fit_method vm))))) /\
     (fit_method = "bayes" -> _samps final = snd (regression fit_method vm))).
    { intros st0. repeat step. unfold regression.
      destruct Hm as [-> | ->]; cbn [String.eqb Ascii.eqb Bool.eqb].
      - destruct (leastsq_linear (log_x vm) (log_y vm) (log_x_err vm) (log_y_err vm)) as [params errors].
        repeat step. unfold modify. eexists. split; [reflexivity|].
        destruct st0 as [e0 e1 e2 e3 e4 e5 e6 e7 e8 e9 e10 e11 e12 e13 e14 e15 e16
          e17 e18 e19 e20]; cbn. repeat split; try reflexivity. discriminate.
      - destruct (bayes_linear (log_x vm) (log_y vm) (log_x_err vm) (log_y_err vm)) as [[params errors] samps].
        rewrite bind_assoc. repeat step. unfold modify. eexists. split; [reflexivity|].
        destruct st0 as [e0 e1 e2 e3 e4 e5 e6 e7 e8 e9 e10 e11 e12 e13 e14 e15 e16
          e17 e18 e19 e20]; cbn. repeat split; reflexivity. }
    match goal with |- context [(_ ;;; ?k) ?st] => destruct (Hrest st) as (final & Hrun & Hfm & Hrest') end.
    destruct (Z.ltb_spec (Z.of_nat (length vm)) 5) as [H5|H5].
    + rewrite bind_warn, Hrun. unfold result_of, state_of, warnings_of. cbn [fst snd].
      destruct (Nat.ltb_spec (length vm) 5) as [_|]; [|lia].
      split; [reflexivity|]. split; [reflexivity|]. split; [exact Hfm|]. exact Hrest'.
    + rewrite bind_ret_l, Hrun. unfold result_of, state_of, warnings_of. cbn [fst snd].
      destruct (Nat.ltb_spec (length vm) 5) as [|_]; [lia|].
      split; [reflexivity|]. split; [reflexivity|]. split; [exact Hfm|]. exact Hrest'.
Qed.
End FitProperties.

(* ----------------------------------------------------------------- *)
(** ** Variance totals after the decomposition *)

Ltac step_in H :=
  first
    [ rewrite bind_modify in H
    | rewrite bind_get in H
    | rewrite bind_ret_l in H
    | rewrite bind_lift_ok in H
    | rewrite bind_lift_raise in H
    | rewrite bind_raise_l in H
    | erewrite bind_attr in H by reflexivity ].

Section DecompositionProperties.
Context {collab : Collaborators}.

Lemma n_eigs_setter_ok {B} (v : Z) (k : unit -> M B) (self : PCA) :
  (0 < v)%Z -> bind (n_eigs_setter v) k self = k tt (store_n_eigs v self).
Proof.
  intros Hv. unfold n_eigs_setter. destruct (Z.leb_spec v 0) as [|_]; [lia|].
  apply bind_modify.
Qed.

Lemma n_eigs_setter_raise {B} (v : Z) (k : unit -> M B) (self : PCA) :
  (v <= 0)%Z -> bind (n_eigs_setter v) k self = (Raise (Exn ValueError "n_eigs must be > 0."), self, []).
Proof.
  intros Hv. unfold n_eigs_setter. destruct (Z.leb_spec v 0) as [_|]; [|lia].
  apply bind_raise_l.
Qed.

(** The tail of [compute_pca], after [n_eigs] has been set. *)
Lemma compute_pca_tail (mean_sub : bool) (all : list npfloat)
    (vecs : matrix) (st st' : PCA) (k : Z) (w : list string) :
  _n_eigs st = Some k -> (0 < k)%Z ->
  (((if mean_sub then
     modify (store_total_variance (np_sum all)) ;;;
     k <- n_eigs ;;
     tot <- total_variance ;;
     modify (store_var_prop
               (fdiv (np_sum (py_slice None (Some k) all)) tot))
   else
     modify (store_total_variance
               (np_sum (py_slice (Some 1%Z) None all))) ;;;
     k <- n_eigs ;;
     tot <- total_variance ;;
     modify (store_var_prop
               (fdiv (np_sum (py_slice (Some 1%Z) (Some k) all)) tot))) ;;;
  modify (store_eigvals all) ;;;
  modify (store_eigvecs vecs) ;;;
  modify (store_mean_sub mean_sub)) st) = (Ok tt, st', w) ->
  _n_eigs st' = Some k /\ _eigvals st' = Some all /\ _mean_sub st' = Some mean_sub /\
  _total_variance st' = Some (np_sum (if mean_sub then all else skipn 1 all)) /\
  _var_prop st' =
    Some (fdiv (np_sum (if mean_sub then firstn (Z.to_nat k) all
                        else skipn 1 (firstn (Z.to_nat k) all)))
            (np_sum (if mean_sub then all else skipn 1 all))).
Proof.
  intros Hk Hpos H.
  destruct st as [d0 d1 d2 d3 d4 d5 d6 d7 d8 d9 d10 d11 d12 d13 d14 d15 d16
    d17 d18 d19 d20]. cbn in Hk. subst d3.
  unfold n_eigs, total_variance in H.
  destruct mean_sub.
  - rewrite !bind_assoc in H. repeat step_in H. unfold modify in H.
    injection H as <- _. cbn. rewrite py_slice_to by lia. repeat split; reflexivity.
  - rewrite !bind_assoc in H. repeat step_in H. unfold modify in H.
    injection H as <- _. cbn [store_mean_sub store_eigvecs store_eigvals store_var_prop store_total_variance _n_eigs _eigvals _mean_sub _total_variance _var_prop].
    rewrite py_slice_1_to, py_slice_from_1 by lia. repeat split; reflexivity.
Qed.


(** C3, as the code has it.  After a successful [compute_pca] with
    [mean_sub=False] the total variance is the sum of the eigenvalues
    from index 1 on and the variance proportion is the sum of the
    eigenvalues at indices 1 to [n_eigs - 1] divided by that total; with
    [mean_sub=True] both sums start at index 0.  The automatic selection
    of [n_eigs] is [set_n_eigs] applied to all the eigenvalues, index 0
    included, whatever [mean_sub] is. *)
Theorem compute_pca_variance (self self' : PCA) (mean_sub : bool)
    (n_in : n_eigs_arg) (min_eigval : option npfloat) (method : string)
    (w : list string) :
  compute_pca mean_sub n_in min_eigval method self = (Ok tt, self', w) ->
  let all := sorted_eigenvalues self mean_sub in
  exists k : Z,
    (0 < k)%Z /\
    _n_eigs self' = Some k /\
    _eigvals self' = Some all /\
    (mean_sub = false ->
       _total_variance self' = Some (np_sum (skipn 1 all)) /\
       _var_prop self' =
         Some (fdiv (np_sum (skipn 1 (firstn (Z.to_nat k) all)))
                 (np_sum (skipn 1 all)))) /\
    (mean_sub = true ->
       _total_variance self' = Some (np_sum all) /\
       _var_prop self' =
         Some (fdiv (np_sum (firstn (Z.to_nat k) all)) (np_sum all))) /\
    (forall m, n_in = Auto -> min_eigval = Some m ->
       set_n_eigs all m method = Ok k).
Proof.
  intros H all.
  unfold compute_pca in H.
  rewrite bind_modify in H.
  assert (Hguard : (match n_in, min_eigval with
                    | Auto, None => true | _, _ => false end) = false).
  { destruct n_in, min_eigval; try reflexivity.
    rewrite bind_raise_l in H. discriminate. }
  assert (Hstep : forall (B : Type) (k : unit -> M B) st,
    bind (match n_in, min_eigval with
          | Auto, None => raise ValueError "min_eigval must be given when using n_eigs='auto'."
          | _, _ => ret tt end) k st = k tt st).
  { intros B k st. destruct n_in, min_eigval; try discriminate; apply bind_ret_l. }
  rewrite Hstep in H. clear Hstep.
  rewrite bind_get, bind_modify in H.
  unfold covariance_input in *.
  replace (_data (store_decomp_only true self)) with (_data self) in H
    by (destruct self; reflexivity).
  fold (covariance_input self) in H.
  subst all. unfold sorted_eigenvalues.
  destruct (eigh (var_cov_cube (covariance_input self) mean_sub)) as [vals vecs].
  cbn [fst].
  set (all := rev (np_sort vals)) in *.
  set (st1 := store_cov_matrix _ _) in H.
  assert (Hsel : exists k, (0 < k)%Z /\
     (forall m, n_in = Auto -> min_eigval = Some m -> set_n_eigs all m method = Ok k) /\
     exists st2, _n_eigs st2 = Some k /\
     ((if mean_sub then
     modify (store_total_variance (np_sum all)) ;;;
     k <- n_eigs ;;
     tot <- total_variance ;;
     modify (store_var_prop
               (fdiv (np_sum (py_slice None (Some k) all)) tot))
   else
     modify (store_total_variance
               (np_sum (py_slice (Some 1%Z) None all))) ;;;
     k <- n_eigs ;;
     tot <- total_variance ;;
     modify (store_var_prop
               (fdiv (np_sum (py_slice (Some 1%Z) (Some k) all)) tot))) ;;;
  modify (store_eigvals all) ;;;
  modify (store_eigvecs (take_columns vecs (rev (np_argsort vals)))) ;;;
  modify (store_mean_sub mean_sub)) st2 = (Ok tt, self', w)).
  { destruct n_in as [|n].
    - destruct min_eigval as [m|]; [|discriminate].
      destruct (set_n_eigs all m method) as [k|e] eqn:Hset.
      + rewrite bind_assoc, bind_lift_ok in H.
        destruct (Z.leb_spec k 0) as [Hle|Hgt].
        * rewrite n_eigs_setter_raise in H by lia. discriminate.
        * rewrite n_eigs_setter_ok in H by lia.
          exists k. split; [lia|]. split.
          { intros m' _ Hm'. injection Hm' as <-. exact Hset. }
          eexists. split; [|exact H]. destruct st1; reflexivity.
      + rewrite bind_assoc, bind_lift_raise in H. discriminate.
    - destruct (Z.eqb_spec n (-1)) as [->|Hn1].
      + destruct (Z.leb_spec (spectral_shape (store_decomp_only true self)) 0) as [Hle|Hgt].
        * rewrite n_eigs_setter_raise in H by lia. discriminate.
        * rewrite n_eigs_setter_ok in H by lia.
          eexists. split; [exact Hgt|]. split; [discriminate|].
          eexists. split; [|exact H]. destruct st1; reflexivity.
      + destruct ((n <? -1)%Z || (n >? spectral_shape (store_decomp_only true self))%Z || (n =? 0)%Z) eqn:Hbad.
        * rewrite bind_raise_l in H. discriminate.
        * apply orb_false_elim in Hbad. destruct Hbad as [Hbad H0].
          apply orb_false_elim in Hbad. destruct Hbad as [Hlt Hgt].
          apply Z.ltb_ge in Hlt. apply Z.eqb_neq in H0.
          rewrite n_eigs_setter_ok in H by lia.
          exists n. split; [lia|]. split; [discriminate|].
          eexists. split; [|exact H]. destruct st1; reflexivity. }
  destruct Hsel as (k & Hpos & Hauto & st2 & Hk & Hrun).
  eapply compute_pca_tail in Hrun; [|exact Hk|exact Hpos].
  destruct Hrun as (Hn & Hev & Hms & Htv & Hvp).
  exists k. split; [exact Hpos|]. split; [exact Hn|]. split; [exact Hev|].
  split; [|split].
  - intros ->. split; assumption.
  - intros ->. split; assumption.
  - exact Hauto.
Qed.

End DecompositionProperties.

(* ----------------------------------------------------------------- *)
(** ** The divisor of the noise ACF *)

Lemma of_int_negative_divisor (n : Z) (s : R) :
  (n < 0)%Z -> fdiv (Fin s) (of_int n) = Fin (- (s / IZR (Z.abs n))).
Proof.
  intros Hn. unfold of_int. cbn [fdiv].
  assert (Hneg : IZR n < 0) by (apply (IZR_lt n 0); exact Hn).
  rewrite Reqb_false by lra. f_equal.
  rewrite Z.abs_neq by lia. rewrite opp_IZR. field. lra.
Qed.

Lemma of_int_abs_divisor (n : Z) (s : R) :
  (n < 0)%Z -> fdiv (Fin s) (of_int (Z.abs n)) = Fin (s / IZR (Z.abs n)).
Proof.
  intros Hn. unfold of_int. cbn [fdiv].
  assert (Hpos : 0 < IZR (Z.abs n)) by (apply (IZR_lt 0); lia).
  rewrite Reqb_false by lra. reflexivity.
Qed.

Section NoiseProperties.

Context {collab : Collaborators}.

(** C2 on the code.  For a negative [n_eigs], [noise_ACF] divides the
    NaN-ignoring sum of the autocorrelation images by [float(n_eigs)],
    a negative number, not by [|n_eigs|]: each summed value [s] comes
    out as [-(s / |n_eigs|)], the opposite of the average, so a
    positive sum gives a negative noise ACF. *)
Theorem noise_ACF_negative_divisor (self self' : PCA) (n : Z)
    (acors : ndarray) (w : list string) :
  (n < 0)%Z ->
  autocorr_images (Some n) self = (Ok acors, self', w) ->
  noise_ACF (Some n) self =
    (Ok (nd_divide (np_nansum_axis0 acors) (Fin (IZR n))), self', w) /\
  (forall s : R,
     fdiv (Fin s) (of_int n) = Fin (- (s / IZR (Z.abs n))) /\
     fdiv (Fin s) (of_int (Z.abs n)) = Fin (s / IZR (Z.abs n))) /\
  (forall s : R, 0 < s ->
     exists r : R, fdiv (Fin s) (of_int n) = Fin r /\ r < 0).
Proof.
  intros Hn Hac. split; [|split].
  - unfold noise_ACF. rewrite bind_ret_l.
    erewrite bind_ok by exact Hac. unfold ret, result_of, state_of, warnings_of.
    cbn [fst snd]. rewrite app_nil_r. reflexivity.
  - intros s. split.
    + apply of_int_negative_divisor; exact Hn.
    + apply of_int_abs_divisor; exact Hn.
  - intros s Hs. eexists. split.
    + apply of_int_negative_divisor; exact Hn.
    + assert (Hpos : 0 < IZR (Z.abs n)) by (apply (IZR_lt 0); lia).
      assert (0 < s / IZR (Z.abs n)) by (apply Rdiv_lt_0_compat; assumption).
      lra.
Qed.

End NoiseProperties.

(* ----------------------------------------------------------------- *)
(** ** The sonic-length interval of the MCMC path *)

Section SonicProperties.

Context {collab : Collaborators}.


End SonicProperties.

(* ----------------------------------------------------------------- *)
(** ** Evaluating the worked inputs *)

Ltac decide_R :=
  match goal with
  | |- context [Rltb ?a ?b] =>
      first [ rewrite (@Rltb_true a b) by lra
            | rewrite (@Rltb_false a b) by lra ]
  | |- context [Rleb ?a ?b] =>
      first [ rewrite (@Rleb_true a b) by lra
            | rewrite (@Rleb_false a b) by lra ]
  | |- context [Reqb ?a ?b] =>
      first [ rewrite (@Reqb_true a b) by lra
            | rewrite (@Reqb_false a b) by lra ]
  end.

Ltac np_eval :=
  repeat first
    [ rewrite bind_assoc
    | step
    | decide_R
    | match goal with
      | |- context [Pos.to_nat ?p] =>
          let v := eval compute in (Pos.to_nat p) in
          change (Pos.to_nat p) with v
      end
    | progress cbn -[IZR Rltb Rleb Reqb pow Rpower sqrt ln Int_part finfo_eps
                     float64_max bind] ].

Ltac np_finish :=
  unfold modify, ret, lift, raise, warn;
  np_eval;
  repeat (f_equal; try lra).

Lemma finfo_eps_small (d : float_dtype) : finfo_eps d < 1.
Proof. destruct d; unfold finfo_eps; lra. Qed.

Lemma diag_cube_init : PCA_init diag_cube None = Ok diag_init.
Proof. reflexivity. Qed.

Lemma diag_cube_decomposes :
  compute_pca (collab := diag_collab) false (Count 3) None "value" diag_init =
    (Ok tt, decomposed, []).
Proof.
  unfold compute_pca, diag_init, decomposed, n_eigs_setter, n_eigs,
    total_variance.
  np_eval. np_finish.
Qed.

(* ----------------------------------------------------------------- *)
(** ** The eigenvalue distance *)

Module DistanceProperties.

Import PCADistance.

Lemma py_slice_map {A B} (f : A -> B) s e (l : list A) :
  py_slice s e (map f l) = map f (py_slice s e l).
Proof.
  unfold py_slice. rewrite length_map, skipn_map, firstn_map. reflexivity.
Qed.

Lemma slicer_fins (mean_sub : bool) (n : Z) (l : list R) :
  slicer_of mean_sub n (fins l) = fins (rslicer mean_sub n l).
Proof. unfold slicer_of, rslicer, fins. destruct mean_sub; apply py_slice_map. Qed.

Lemma normalized_fins (mean_sub : bool) (n : Z) (l : list R) :
  rsum (rslicer mean_sub n l) <> 0 ->
  normalized (slicer_of mean_sub n) (fins l) =
  fins (map (fun e => e / rsum (rslicer mean_sub n l)) (rslicer mean_sub n l)).
Proof.
  intros Hs. unfold normalized. rewrite slicer_fins. unfold fins.
  rewrite np_sum_fin, !map_map. apply map_ext. intros a.
  cbn [fdiv]. rewrite Reqb_false by exact Hs. reflexivity.
Qed.





Lemma map2_fsub_fins (a b : list R) :
  map2 fsub (fins a) (fins b) = fins (map2 Rminus a b).
Proof.
  revert b. induction a as [|x a IH]; intros [|y b]; cbn; try reflexivity.
  unfold fins in IH. rewrite IH. reflexivity.
Qed.

Lemma rsum_sq_nonneg (l : list R) : 0 <= rsum (map sq l).
Proof.
  induction l as [|x l IH]; cbn; [lra|].
  unfold rsum in IH. unfold sq at 1. nra.
Qed.

Lemma norm_fins (ds : list R) :
  np_linalg_norm (fins ds) = Fin (sqrt (rsum (map sq ds))).
Proof.
  unfold np_linalg_norm, fins. rewrite map_map.
  rewrite <- (map_map sq Fin), np_sum_fin. cbn [fsqrt].
  rewrite Rltb_false; [reflexivity|].
  pose proof (rsum_sq_nonneg ds). lra.
Qed.


Lemma distance_of_metric (A B : PCA) (mean_sub : bool) (n : Z)
    (d0 : option npfloat) :
  distance_of (distance_metric (mk A B mean_sub n d0)) =
  rbind (result_of (eigvals A)) (fun ev1 =>
  rbind (result_of (eigvals B)) (fun ev2 =>
  rbind (rbind (broadcast2 fsub (normalized (slicer_of mean_sub n) ev1)
                  (normalized (slicer_of mean_sub n) ev2))
           (fun d => Ok (np_linalg_norm d)))
    (fun x => Ok (Some x)))).
Proof.
  unfold distance_of, distance_metric. cbn [pca1 pca2 _mean_sub _n_eigs].
  destruct (result_of (eigvals A)) as [ev1|e]; [|reflexivity]. cbn [rbind].
  destruct (result_of (eigvals B)) as [ev2|e]; [|reflexivity]. cbn [rbind].
  destruct (broadcast2 fsub _ _) as [d|e]; reflexivity.
Qed.

Lemma eigvals_result (A : PCA) :
  result_of (eigvals A) =
  match _eigvals A with
  | Some ev => Ok ev
  | None => Raise (Exn AttributeError "_eigvals")
  end.
Proof. unfold eigvals, attr, result_of. destruct (_eigvals A); reflexivity. Qed.








End DistanceProperties.




(* ----------------------------------------------------------------- *)
(** ** The worked cube through the pipeline *)

Lemma diag_cube_runs :
  run (collab := diag_collab) false true (Count 3) None "value" "contour"
    "walk-down" "odr" None true diag_init = (Ok tt, decomposed, []).
Proof.
  unfold run, compute_pca, diag_init, decomposed, n_eigs_setter, n_eigs,
    total_variance.
  np_eval. np_finish.
Qed.

(** C3, as stated, fails: with [mean_sub=False] and the eigenvalues 12,
    3, 3 of [diag_cube], the automatic selection at proportion 0.9 counts
    the cumulative proportions 12/18 and 15/18 of all three eigenvalues
    and sets [n_eigs] to 2; with the first eigenvalue left out the
    proportions would be 3/6 and 6/6 and the count 1. *)
Lemma auto_selection_counts_first_eigenvalue :
  exists st : PCA,
    compute_pca (collab := diag_collab) false Auto (Some (Fin 0.9))
      "proportion" diag_init = (Ok tt, st, []) /\
    _mean_sub st = Some false /\
    _eigvals st = Some (fins [12; 3; 3]) /\
    _n_eigs st = Some 2%Z /\
    set_n_eigs (fins [12; 3; 3]) (Fin 0.9) "proportion" = Ok 2%Z /\
    set_n_eigs (skipn 1 (fins [12; 3; 3])) (Fin 0.9) "proportion" = Ok 1%Z.
Proof.
  eexists. split; [|split; [|split; [|split; [|split]]]].
  - unfold compute_pca, diag_init, n_eigs_setter, n_eigs, total_variance,
      set_n_eigs.
    np_eval. unfold modify. reflexivity.
  - reflexivity.
  - reflexivity.
  - reflexivity.
  - unfold set_n_eigs. np_eval. reflexivity.
  - unfold set_n_eigs. np_eval. reflexivity.
Qed.

(** [noise_ACF(-2)] on the decomposed worked cube: the last two valid
    modes have the autocorrelation images [0, 9, 0]; their sum 18 at the
    centre is divided by -2. *)
Lemma noise_ACF_of_decomposed :
  autocorr_images (collab := diag_collab) (Some (-2)%Z) decomposed =
    (Ok (Arr3 [[fins [0; 9; 0]]; [fins [0; 9; 0]]]), decomposed, []) /\
  noise_ACF (collab := diag_collab) (Some (-2)%Z) decomposed =
    (Ok (inl (Arr2 [fins [0; -9; 0]])), decomposed, []).
Proof.
  pose proof (finfo_eps_small Float64) as Hs.
  pose proof (finfo_eps_pos Float64) as Hp.
  assert (Hac :
    autocorr_images (collab := diag_collab) (Some (-2)%Z) decomposed =
    (Ok (Arr3 [[fins [0; 9; 0]]; [fins [0; 9; 0]]]), decomposed, [])).
  { unfold autocorr_images, eigimages, eigimages_iterat, _valid_eigenvectors,
      eigimage, stack_results, eigvals, eigvecs, decomposed.
    np_eval. np_finish. }
  split; [exact Hac|].
  unfold noise_ACF. rewrite bind_ret_l. erewrite bind_ok by exact Hac.
  np_finish.
Qed.

(* ----------------------------------------------------------------- *)
(** ** The worked MCMC fit *)

Lemma Rpower_4_1 : Rpower (4 / 1) (1 / 1) = 4.
Proof.
  replace (4 / 1) with 4 by lra. replace (1 / 1) with 1 by lra.
  apply Rpower_1. lra.
Qed.

Lemma Rpower_4_2 : Rpower (4 / 1) (1 / 0.5) = 16.
Proof.
  replace (4 / 1) with 4 by lra. replace (1 / 0.5) with (INR 2) by (simpl; lra).
  rewrite Rpower_pow by lra. simpl. lra.
Qed.

Lemma Rpower_4_half : Rpower (4 / 1) (1 / 2) = 2.
Proof.
  replace (4 / 1) with 4 by lra. replace (1 / 2) with (/ 2) by lra.
  rewrite Rpower_sqrt by lra. replace 4 with (2 * 2) by lra.
  apply sqrt_square. lra.
Qed.

(** [sonic_length(use_gamma=False)] on the worked MCMC fit: every
    posterior sample gives lambda = 4 because the exponent is 1/index
    for all of them, so the interval is [4, 4]; recomputed with each
    sample's own slope the lambdas are 16, 4, 2 and the interval is
    [2.6, 12.4]. *)
Lemma sonic_length_of_fitted_bayes :
  sonic_length (collab := diag_collab) (Some (Fin 10)) (Fin 1.36) false
    fitted_bayes = (Ok (Fin 4, fins [4; 4]), fitted_bayes, []) /\
  per_sample_error_range (Fin 4) false (fins [0.5; 1; 2], fins [0; 0; 0]) =
    fins [2.6; 12.4].
Proof.
  split.
  - unfold sonic_length, gamma, gamma_error_range, index, index_error_range,
      intercept, bayes_error_range, np_percentile, percentile1, np_sort,
      sort_by, fitted_bayes, measured, decomposed.
    np_eval. rewrite Rpower_4_1. np_finish.
  - unfold per_sample_error_range, np_percentile, percentile1, np_sort,
      sort_by.
    np_eval. rewrite ?Rpower_4_1, ?Rpower_4_2, ?Rpower_4_half.
    np_eval. np_finish.
Qed.

(* ================================================================= *)
(** * The properties on the worked inputs *)


Lemma noise_ACF_negative_divisor_witness :
  (-2 < 0)%Z /\
  noise_ACF (collab := diag_collab) (Some (-2)%Z) decomposed =
    (Ok (nd_divide
           (np_nansum_axis0 (Arr3 [[fins [0; 9; 0]]; [fins [0; 9; 0]]]))
           (Fin (IZR (-2)))),
     decomposed, []).
Proof.
  split; [lia|].
  destruct (@noise_ACF_negative_divisor diag_collab decomposed decomposed
              (-2)%Z _ [] ltac:(lia) (proj1 noise_ACF_of_decomposed))
    as [H _].
  exact H.
Defined.

Lemma compute_pca_variance_witness :
  compute_pca (collab := diag_collab) false (Count 3) None "value" diag_init =
    (Ok tt, decomposed, []) /\
  _total_variance decomposed =
    Some (np_sum (skipn 1 (sorted_eigenvalues (collab := diag_collab)
                             diag_init false))).
Proof.
  split; [exact diag_cube_decomposes|].
  pose proof (@compute_pca_variance diag_collab diag_init decomposed false
                (Count 3) None "value" [] diag_cube_decomposes) as H.
  cbv zeta in H. destruct H as (k & _ & _ & _ & Hf & _).
  exact (proj1 (Hf eq_refl)).
Defined.

Lemma set_n_eigs_counts_witness :
  set_n_eigs (fins [1; 1]) (Fin 0.5) "value" = Ok 2%Z /\
  set_n_eigs (fins [1; 1]) (Fin 0.5) "proportion" = Ok 1%Z /\
  In 0%nat (positions_within (fins [1; 1]) (Fin 0.5)) /\
  positions_within (fins [1; 1]) (Fin 0.5) =
    leading_within (fins [1; 1]) (Fin 0.5).
Proof.
  assert (Hc0 : cumulative_normalized (fins [1; 1]) 0 = Fin 0.5).
  { unfold cumulative_normalized. np_eval. np_finish. }
  assert (Hc1 : cumulative_normalized (fins [1; 1]) 1 = Fin 1).
  { unfold cumulative_normalized. np_eval. np_finish. }
  destruct (set_n_eigs_counts (fins [1; 1]) (Fin 0.5))
    as (Hv & Hp & Hin & Hlead).
  split; [|split; [|split]].
  - rewrite Hv. cbn [fins map filter fle].
    rewrite !(Rleb_true (a := 0.5) (b := 1)) by lra. reflexivity.
  - rewrite Hp. unfold positions_within.
    change (fins [1; 1]) with [Fin 1; Fin 1] in *.
    cbn [length seq filter].
    rewrite Hc0, Hc1. cbn [fle].
    rewrite (Rleb_true (a := 0.5) (b := 0.5)) by lra.
    rewrite (Rleb_false (a := 1) (b := 0.5)) by lra. reflexivity.
  - apply (Hin 0%nat 0.5); [cbn; lia | exact Hc0 | reflexivity].
  - apply (Hlead [1; 1] eq_refl).
    + repeat constructor; lra.
    + cbn. lra.
Defined.

Lemma brunt_index_correct_piecewise_witness :
  brunt_index_correct (Fin 0.5) = Fin ((0.5 - 0.32) / 0.59) /\
  brunt_index_correct (Fin 2) = Fin ((2 - 0.03) / 1.07) /\
  gamma fitted_bayes = (Ok (brunt_index_correct (Fin 1)), fitted_bayes, []) /\
  gamma_error_range fitted_bayes =
    (Ok [brunt_index_correct (Fin 0.5); brunt_index_correct (Fin 2)],
     fitted_bayes, []).
Proof.
  destruct brunt_index_correct_piecewise as (H1 & _ & H3 & H4 & H5 & _).
  split; [apply H1; lra|]. split; [apply H3; lra|].
  split; [apply H4; reflexivity | apply H5; reflexivity].
Defined.

Lemma fit_plaw_point_count_witness :
  length (filter mode_is_valid three_modes) = 2%nat /\
  result_of (fit_plaw (collab := diag_collab) "odr" measured) = Ok tt /\
  warnings_of (fit_plaw (collab := diag_collab) "odr" measured) =
    [few_points_warning] /\
  _index (state_of (fit_plaw (collab := diag_collab) "odr" measured)) =
    Some (Fin 1).
Proof.
  split; [reflexivity|].
  pose proof (@fit_plaw_point_count diag_collab measured three_modes "odr"
                eq_refl eq_refl eq_refl eq_refl (or_introl eq_refl)) as H.
  cbv zeta in H. destruct H as [_ H].
  destruct (H ltac:(cbn; lia)) as (H1 & H2 & _ & H4 & _).
  split; [exact H1|]. split; [exact H2 | exact H4].
Defined.


Lemma fit_plaw_invalid_method_witness :
  _decomp_only decomposed = Some true /\
  fit_plaw (collab := diag_collab) "ols" decomposed =
    (Raise (Exn TypeError "fit_method must be 'odr' or 'bayes'."),
     store_decomp_only false decomposed, []) /\
  state_of (fit_plaw (collab := diag_collab) "ols" decomposed) <> decomposed.
Proof.
  destruct (@fit_plaw_invalid_method diag_collab decomposed "ols"
              ltac:(discriminate) ltac:(discriminate)) as (H1 & _ & _ & H4).
  split; [reflexivity|]. split; [exact H1|]. apply H4. discriminate.
Defined.

Lemma init_replaces_nan_by_eps_witness :
  PCA_init cube_with_nan None =
    Ok (mkPCA [[[Fin (finfo_eps Float64); Fin 1]]] Float64 1
          None None None None None None None None None None None None None
          None None None None None) /\
  sample [[[Fin (finfo_eps Float64); Fin 1]]] 0 0 0 =
    Some (Fin (finfo_eps Float64)) /\
  cube_forall (fun x => negb (isnan x)) [[[Fin (finfo_eps Float64); Fin 1]]] =
    true.
Proof.
  split; [reflexivity|].
  destruct (@init_replaces_nan_by_eps cube_with_nan None _ eq_refl)
    as (H1 & H2 & _).
  split; [exact (H2 0%nat 0%nat 0%nat NaN eq_refl) | exact H1].
Defined.

Lemma autocorr_spec_negative_raises_witness :
  (-2 < 0)%Z /\
  autocorr_spec (collab := diag_collab) (Some (-2)%Z) decomposed =
    (Raise (Exn UnboundLocalError "acors"), decomposed, []) /\
  eigimages_iterat (-2) decomposed = (Ok [1; 2]%nat, decomposed, []).
Proof.
  split; [lia|].
  destruct (@autocorr_spec_negative_raises diag_collab decomposed (-2)%Z
              ltac:(lia)) as (_ & H2 & H3 & _).
  split; [exact H2|].
  rewrite (H3 _ eq_refl).
  pose proof (finfo_eps_small Float64) as Hs.
  pose proof (finfo_eps_pos Float64) as Hp.
  unfold lastn. np_eval. reflexivity.
Defined.


(* ================================================================= *)
(** * Further properties *)

(** ** The order of float values *)

Lemma fle_trans (a b c : npfloat) :
  fle a b = true -> fle b c = true -> fle a c = true.
Proof.
  destruct a as [x| | |], b as [y| | |], c as [z| | |]; cbn;
    try reflexivity; try discriminate.
  unfold Rleb. destruct (Rle_dec x y); [|discriminate].
  destruct (Rle_dec y z); [|discriminate].
  intros _ _. destruct (Rle_dec x z); [reflexivity|lra].
Qed.

Lemma fle_refl (a : npfloat) : isnan a = false -> fle a a = true.
Proof.
  destruct a; cbn; try reflexivity; try discriminate.
  intros _. apply Rleb_true. lra.
Qed.

Lemma fle_total (a b : npfloat) :
  isnan a = false -> isnan b = false -> flt a b = false -> fle b a = true.
Proof.
  destruct a as [x| | |], b as [y| | |]; cbn; try reflexivity;
    try discriminate.
  unfold Rltb, Rleb. destruct (Rlt_dec x y); [discriminate|].
  intros _ _ _. destruct (Rle_dec y x); [reflexivity|lra].
Qed.

Lemma flt_fle (a b : npfloat) : flt a b = true -> fle a b = true.
Proof.
  destruct a as [x| | |], b as [y| | |]; cbn; try reflexivity;
    try discriminate.
  unfold Rltb, Rleb. destruct (Rlt_dec x y); [|discriminate].
  intros _. destruct (Rle_dec x y); [reflexivity|lra].
Qed.

(* ----------------------------------------------------------------- *)
(** ** [set_n_eigs]: range and monotonicity *)

Lemma filter_length_le {A} (p : A -> bool) (l : list A) :
  (length (filter p l) <= length l)%nat.
Proof.
  induction l as [|a t IH]; cbn; [lia|]. destruct (p a); cbn; lia.
Qed.

Lemma filter_length_mono {A} (p q : A -> bool) (l : list A) :
  (forall a, p a = true -> q a = true) ->
  (length (filter p l) <= length (filter q l))%nat.
Proof.
  intros Hpq. induction l as [|a t IH]; cbn; [lia|].
  destruct (p a) eqn:Hp.
  - rewrite (Hpq a Hp). cbn. lia.
  - destruct (q a); cbn; lia.
Qed.

Lemma set_n_eigs_value (eigenvalues : list npfloat) (m : npfloat) :
  set_n_eigs eigenvalues m "value" =
  Ok (Z.of_nat (length (filter (fun e => fle m e) eigenvalues))).
Proof.
  unfold set_n_eigs. cbn [String.eqb Ascii.eqb Bool.eqb].
  rewrite count_where. reflexivity.
Qed.

Lemma set_n_eigs_proportion (eigenvalues : list npfloat) (m : npfloat) :
  set_n_eigs eigenvalues m "proportion" =
  Ok (Z.of_nat (length (positions_within eigenvalues m))).
Proof.
  unfold set_n_eigs, positions_within.
  cbn [String.eqb Ascii.eqb Bool.eqb].
  rewrite count_where, np_cumsum_prefix, filter_map_length, length_map.
  reflexivity.
Qed.

(** X1.  Raising the threshold never selects more eigenvalues with
    [method='value'] and never selects fewer with
    [method='proportion']. *)
Theorem set_n_eigs_monotone (eigenvalues : list npfloat)
    (m1 m2 : npfloat) :
  fle m1 m2 = true ->
  exists v1 v2 p1 p2 : Z,
    set_n_eigs eigenvalues m1 "value" = Ok v1 /\
    set_n_eigs eigenvalues m2 "value" = Ok v2 /\
    (v2 <= v1)%Z /\
    set_n_eigs eigenvalues m1 "proportion" = Ok p1 /\
    set_n_eigs eigenvalues m2 "proportion" = Ok p2 /\
    (p1 <= p2)%Z.
Proof.
  intros Hm. do 4 eexists.
  split; [apply set_n_eigs_value|]. split; [apply set_n_eigs_value|].
  split.
  - apply inj_le. apply filter_length_mono.
    intros e He. exact (fle_trans _ _ _ Hm He).
  - split; [apply set_n_eigs_proportion|].
    split; [apply set_n_eigs_proportion|].
    apply inj_le. unfold positions_within. apply filter_length_mono.
    intros i Hi. exact (fle_trans _ _ _ Hi Hm).
Qed.

(** X2.  Whatever the eigenvalues and the threshold, the two methods
    return a count between 0 and the number of eigenvalues; a NaN
    threshold selects nothing; any other method name raises
    ValueError. *)
Theorem set_n_eigs_range (eigenvalues : list npfloat) (m : npfloat)
    (method : string) :
  (method = "value" \/ method = "proportion" ->
   exists n : Z,
     set_n_eigs eigenvalues m method = Ok n /\
     (0 <= n <= Z.of_nat (length eigenvalues))%Z) /\
  (method = "value" \/ method = "proportion" ->
   set_n_eigs eigenvalues NaN method = Ok 0%Z) /\
  (method <> "value" -> method <> "proportion" ->
   exn_class_of (set_n_eigs eigenvalues m method) = Some ValueError).
Proof.
  split; [|split].
  - intros [-> | ->]; eexists.
    + split; [apply set_n_eigs_value|].
      pose proof (filter_length_le (fun e => fle m e) eigenvalues). lia.
    + split; [apply set_n_eigs_proportion|].
      unfold positions_within.
      pose proof (filter_length_le
                    (fun i => fle (cumulative_normalized eigenvalues i) m)
                    (seq 0 (length eigenvalues))) as H.
      rewrite length_seq in H. lia.
  - assert (Hnone : forall A (f : A -> npfloat) (l : list A),
              filter (fun a => fle (f a) NaN) l = []).
    { intros A f l. induction l as [|a t IH]; cbn; [reflexivity|].
      destruct (f a); cbn; exact IH. }
    intros [-> | ->].
    + rewrite set_n_eigs_value.
      replace (filter (fun e => fle NaN e) eigenvalues) with (@nil npfloat);
        [reflexivity|].
      induction eigenvalues as [|a t IH]; cbn; [reflexivity|exact IH].
    + rewrite set_n_eigs_proportion. unfold positions_within.
      rewrite Hnone. reflexivity.
  - intros Hv Hp. unfold set_n_eigs.
    apply String.eqb_neq in Hv. apply String.eqb_neq in Hp.
    rewrite Hv, Hp. reflexivity.
Qed.

(* ----------------------------------------------------------------- *)
(** ** Sorting *)

Lemma sorts_before_flt (a b : npfloat) :
  isnan a = false -> isnan b = false -> sorts_before a b = flt a b.
Proof. destruct a, b; cbn; try reflexivity; discriminate. Qed.

Lemma insert_by_perm {A} (key : A -> npfloat) (x : A) (l : list A) :
  Permutation (insert_by key x l) (x :: l).
Proof.
  induction l as [|y t IH]; cbn; [reflexivity|].
  destruct (sorts_before (key x) (key y)); [reflexivity|].
  rewrite IH. apply perm_swap.
Qed.

Lemma sort_by_perm {A} (key : A -> npfloat) (l : list A) :
  Permutation (sort_by key l) l.
Proof.
  unfold sort_by.
  assert (H : forall acc, Permutation
            (fold_left (fun acc x => insert_by key x acc) l acc) (acc ++ l)).
  { induction l as [|x t IH]; intros acc; cbn.
    - rewrite app_nil_r. reflexivity.
    - rewrite IH, insert_by_perm. apply Permutation_middle. }
  exact (H []).
Qed.

Lemma insert_ascending (x : npfloat) (l : list npfloat) :
  isnan x = false -> no_nan l -> ascending l ->
  ascending (insert_by (fun a => a) x l).
Proof.
  intros Hx Hl Hs. induction Hs as [|y t Hs IH Hy]; cbn.
  - constructor; constructor.
  - inversion Hl as [|? ? Hny Hnt]; subst.
    rewrite (sorts_before_flt _ _ Hx Hny).
    destruct (flt x y) eqn:Hlt.
    + constructor; [constructor; assumption|].
      apply flt_fle in Hlt. constructor; [exact Hlt|].
      eapply Forall_impl; [|exact Hy].
      intros a Ha. exact (fle_trans _ _ _ Hlt Ha).
    + constructor; [apply IH; assumption|].
      eapply Permutation_Forall;
        [symmetry; apply insert_by_perm|].
      constructor; [|exact Hy]. apply fle_total; assumption.
Qed.

Lemma no_nan_perm (l l' : list npfloat) :
  Permutation l l' -> no_nan l -> no_nan l'.
Proof. intros Hp Hl. exact (Permutation_Forall Hp Hl). Qed.

Lemma np_sort_ascending (l : list npfloat) : no_nan l -> ascending (np_sort l).
Proof.
  intros Hl. unfold np_sort, sort_by.
  assert (H : forall acc, no_nan acc -> ascending acc -> no_nan l ->
            ascending (fold_left (fun acc x => insert_by (fun a => a) x acc)
                         l acc)).
  { clear Hl. induction l as [|x t IH]; intros acc Hna Hacc Hl; cbn.
    - exact Hacc.
    - inversion Hl as [|? ? Hx Ht]; subst. apply IH.
      + eapply no_nan_perm; [symmetry; apply insert_by_perm|].
        constructor; assumption.
      + apply insert_ascending; assumption.
      + exact Ht. }
  apply H; [constructor | constructor | exact Hl].
Qed.

Lemma ascending_rev (l : list npfloat) : ascending l -> descending (rev l).
Proof.
  intros Hs. induction Hs as [|x t Hs IH Hx]; cbn; [constructor|].
  assert (Happ : forall l1, descending l1 ->
            Forall (fun a => fle x a = true) l1 -> descending (l1 ++ [x])).
  { intros l1 H1. induction H1 as [|y u Hu IHu Hy]; intros Hall; cbn.
    - constructor; constructor.
    - inversion Hall as [|? ? Hxy Hrest]; subst.
      constructor; [apply IHu; exact Hrest|].
      apply Forall_app. split; [exact Hy|]. constructor; [exact Hxy|constructor]. }
  apply Happ; [exact IH|].
  apply Forall_rev. exact Hx.
Qed.

Lemma np_sort_perm (l : list npfloat) : Permutation (np_sort l) l.
Proof. apply sort_by_perm. Qed.

(* ----------------------------------------------------------------- *)
(** ** What [compute_pca] leaves behind *)

Section DecompositionOutcome.

Context {collab : Collaborators}.

Lemma compute_pca_tail_run (mean_sub : bool) (all : list npfloat)
    (vecs : matrix) (st : PCA) (k : Z) :
  (0 < k)%Z ->
  (((if mean_sub then
     modify (store_total_variance (np_sum all)) ;;;
     k <- n_eigs ;;
     tot <- total_variance ;;
     modify (store_var_prop
               (fdiv (np_sum (py_slice None (Some k) all)) tot))
   else
     modify (store_total_variance
               (np_sum (py_slice (Some 1%Z) None all))) ;;;
     k <- n_eigs ;;
     tot <- total_variance ;;
     modify (store_var_prop
               (fdiv (np_sum (py_slice (Some 1%Z) (Some k) all)) tot))) ;;;
  modify (store_eigvals all) ;;;
  modify (store_eigvecs vecs) ;;;
  modify (store_mean_sub mean_sub)) (store_n_eigs k st)) =
  (Ok tt,
   store_mean_sub mean_sub
     (store_eigvecs vecs
        (store_eigvals all
           (store_var_prop
              (fdiv (np_sum (if mean_sub then firstn (Z.to_nat k) all
                             else skipn 1 (firstn (Z.to_nat k) all)))
                 (np_sum (if mean_sub then all else skipn 1 all)))
              (store_total_variance
                 (np_sum (if mean_sub then all else skipn 1 all))
                 (store_n_eigs k st))))),
   []).
Proof.
  intros Hpos.
  destruct st as [d0 d1 d2 d3 d4 d5 d6 d7 d8 d9 d10 d11 d12 d13 d14 d15 d16
    d17 d18 d19 d20].
  unfold n_eigs, total_variance.
  destruct mean_sub.
  - repeat (rewrite ?bind_assoc; step). unfold modify. cbn.
    rewrite py_slice_to by lia. reflexivity.
  - repeat (rewrite ?bind_assoc; step). unfold modify.
    cbn [store_mean_sub store_eigvecs store_eigvals store_var_prop
         store_total_variance store_n_eigs].
    rewrite py_slice_1_to, py_slice_from_1 by lia. reflexivity.
Qed.

Lemma compute_pca_outcome (self self' : PCA) (mean_sub : bool)
    (n_in : n_eigs_arg) (min_eigval : option npfloat) (method : string)
    (w : list string) :
  compute_pca mean_sub n_in min_eigval method self = (Ok tt, self', w) ->
  exists k : Z,
    (0 < k)%Z /\
    selected self mean_sub n_in min_eigval method k /\
    self' = after_compute_pca self mean_sub k /\
    w = [].
Proof.
  intros H.
  unfold compute_pca in H.
  rewrite bind_modify in H.
  assert (Hguard : (match n_in, min_eigval with
                    | Auto, None => true | _, _ => false end) = false).
  { destruct n_in, min_eigval; try reflexivity.
    rewrite bind_raise_l in H. discriminate. }
  assert (Hstep : forall (B : Type) (k : unit -> M B) st,
    bind (match n_in, min_eigval with
          | Auto, None =>
              raise ValueError
                "min_eigval must be given when using n_eigs='auto'."
          | _, _ => ret tt end) k st = k tt st).
  { intros B k st. destruct n_in, min_eigval; try discriminate;
      apply bind_ret_l. }
  rewrite Hstep in H. clear Hstep.
  rewrite bind_get, bind_modify in H.
  unfold covariance_input in H.
  replace (_data (store_decomp_only true self)) with (_data self) in H
    by (destruct self; reflexivity).
  replace (spectral_shape (store_decomp_only true self))
    with (spectral_shape self) in H by (destruct self; reflexivity).
  unfold selected, after_compute_pca, sorted_eigenvalues, covariance_input.
  destruct (eigh (var_cov_cube (_data self) mean_sub)) as [vals vecs].
  cbn [fst snd].
  destruct n_in as [|n].
  - destruct min_eigval as [m|]; [|discriminate].
    destruct (set_n_eigs (rev (np_sort vals)) m method) as [k|e] eqn:Hset.
    + rewrite bind_assoc, bind_lift_ok in H.
      destruct (Z.leb_spec k 0) as [Hle|Hgt].
      * rewrite n_eigs_setter_raise in H by lia. discriminate.
      * rewrite n_eigs_setter_ok in H by lia.
        rewrite compute_pca_tail_run in H by lia.
        injection H as <- <-.
        exists k. split; [lia|]. split; [|split; reflexivity].
        exists m. split; [reflexivity | exact Hset].
    + rewrite bind_assoc, bind_lift_raise in H. discriminate.
  - destruct (Z.eqb_spec n (-1)) as [->|Hn1].
    + destruct (Z.leb_spec (spectral_shape self) 0) as [Hle|Hgt].
      * rewrite n_eigs_setter_raise in H by lia. discriminate.
      * rewrite n_eigs_setter_ok in H by lia.
        rewrite compute_pca_tail_run in H by lia.
        injection H as <- <-.
        eexists. split; [exact Hgt|]. split; [|split; reflexivity].
        left. split; reflexivity.
    + destruct ((n <? -1)%Z || (n >? spectral_shape self)%Z || (n =? 0)%Z)
        eqn:Hbad.
      * rewrite bind_raise_l in H. discriminate.
      * apply orb_false_elim in Hbad. destruct Hbad as [Hbad H0].
        apply orb_false_elim in Hbad. destruct Hbad as [Hlt Hgt].
        apply Z.ltb_ge in Hlt. apply Z.eqb_neq in H0.
        assert (Hle : (n <= spectral_shape self)%Z).
        { destruct (Z.gtb_spec n (spectral_shape self)); [discriminate|lia]. }
        rewrite n_eigs_setter_ok in H by lia.
        rewrite compute_pca_tail_run in H by lia.
        injection H as <- <-.
        exists n. split; [lia|]. split; [|split; reflexivity].
        right. split; [lia | reflexivity].
Qed.

End DecompositionOutcome.

Lemma set_n_eigs_ok_bound (l : list npfloat) (m : npfloat) (method : string)
    (k : Z) :
  set_n_eigs l m method = Ok k -> (0 <= k <= Z.of_nat (length l))%Z.
Proof.
  unfold set_n_eigs.
  destruct (method =? "value").
  - intros H. injection H as <-. rewrite count_where.
    pose proof (filter_length_le (fun e => fge e m) l). lia.
  - destruct (method =? "proportion"); [|discriminate].
    intros H. injection H as <-. rewrite count_where.
    match goal with |- context [filter ?p ?c] =>
      pose proof (filter_length_le p c) as Hle end.
    assert (Hlen : forall c, length (np_cumsum c) = length c).
    { intros c. rewrite np_cumsum_prefix, length_map, length_seq.
      reflexivity. }
    rewrite Hlen, length_map in Hle. lia.
Qed.

Lemma rsum_nonneg (l : list R) : Forall (fun r => 0 <= r) l -> 0 <= rsum l.
Proof.
  intros Hl. induction Hl as [|x t Hx Ht IH]; cbn; [lra|].
  unfold rsum in IH. lra.
Qed.

Lemma rsum_firstn_le (l : list R) (k : nat) :
  Forall (fun r => 0 <= r) l -> 0 <= rsum (firstn k l) <= rsum l.
Proof.
  intros Hl. revert k. induction Hl as [|x t Hx Ht IH]; intros k.
  - rewrite firstn_nil. cbn. lra.
  - destruct k as [|k]; cbn.
    + pose proof (rsum_nonneg Ht) as Hn. unfold rsum in Hn. lra.
    + specialize (IH k). unfold rsum in IH. lra.
Qed.

Lemma skipn_1_firstn {A} (k : nat) (l : list A) :
  skipn 1 (firstn k l) = firstn (k - 1) (skipn 1 l).
Proof.
  destruct k as [|k]; [reflexivity|].
  destruct l as [|x t]; cbn.
  - rewrite firstn_nil. reflexivity.
  - rewrite Nat.sub_0_r. reflexivity.
Qed.

Lemma fins_firstn (k : nat) (l : list R) : firstn k (fins l) = fins (firstn k l).
Proof. unfold fins. apply firstn_map. Qed.

Lemma fins_skipn (k : nat) (l : list R) : skipn k (fins l) = fins (skipn k l).
Proof. unfold fins. apply skipn_map. Qed.

Lemma np_sum_fins (l : list R) : np_sum (fins l) = Fin (rsum l).
Proof. apply np_sum_fin. Qed.

Section DecompositionFacts.

Context {collab : Collaborators}.

(** X3.  After a successful [compute_pca], [n_eigs] is at least 1; for
    an explicit count it is that count and at most the number of
    channels, for [-1] it is the number of channels, and for 'auto' it
    is what [set_n_eigs] counted, at most the number of eigenvalues. *)
Theorem compute_pca_n_eigs_range (self self' : PCA) (mean_sub : bool)
    (n_in : n_eigs_arg) (min_eigval : option npfloat) (method : string)
    (w : list string) :
  compute_pca mean_sub n_in min_eigval method self = (Ok tt, self', w) ->
  exists k : Z,
    _n_eigs self' = Some k /\
    (1 <= k)%Z /\
    (forall n : Z, n_in = Count n ->
       (k <= spectral_shape self)%Z /\
       (n = (-1)%Z -> k = spectral_shape self) /\
       (n <> (-1)%Z -> k = n)) /\
    (n_in = Auto ->
       (k <= Z.of_nat (length (fst (eigh (var_cov_cube
                                           (covariance_input self)
                                           mean_sub)))))%Z).
Proof.
  intros H. apply compute_pca_outcome in H.
  destruct H as (k & Hpos & Hsel & -> & _).
  exists k. split; [destruct self; reflexivity|]. split; [lia|].
  unfold selected in Hsel. split.
  - intros n ->. destruct Hsel as [[-> ->] | [Hn ->]].
    + split; [lia|]. split; [reflexivity | congruence].
    + split; [lia|]. split; [lia | reflexivity].
  - intros ->. destruct Hsel as (m & _ & Hset).
    apply set_n_eigs_ok_bound in Hset.
    unfold sorted_eigenvalues in Hset.
    rewrite length_rev in Hset.
    rewrite (Permutation_length (np_sort_perm _)) in Hset. lia.
Qed.

(** X4.  After a successful [compute_pca], the stored eigenvalues are
    those of [eigh] in another order, and when none of them is NaN they
    are in descending order. *)
Theorem compute_pca_eigvals_sorted (self self' : PCA) (mean_sub : bool)
    (n_in : n_eigs_arg) (min_eigval : option npfloat) (method : string)
    (w : list string) :
  compute_pca mean_sub n_in min_eigval method self = (Ok tt, self', w) ->
  exists all : list npfloat,
    _eigvals self' = Some all /\
    Permutation all
      (fst (eigh (var_cov_cube (covariance_input self) mean_sub))) /\
    (no_nan (fst (eigh (var_cov_cube (covariance_input self) mean_sub))) ->
     descending all).
Proof.
  intros H. apply compute_pca_outcome in H.
  destruct H as (k & _ & _ & -> & _).
  eexists. split; [destruct self; reflexivity|].
  cbv zeta. split.
  - rewrite <- Permutation_rev. apply np_sort_perm.
  - intros Hn. apply ascending_rev. apply np_sort_ascending. exact Hn.
Qed.

(** X5.  After a successful [compute_pca] on finite non-negative
    eigenvalues whose total variance (from index 1 on when
    [mean_sub=False]) is positive, the variance proportion lies between
    0 and 1; it is 1 when [n_eigs] covers all eigenvalues, and 0 when
    [mean_sub=False] and [n_eigs] is 1. *)
Theorem compute_pca_var_prop_bounds (self self' : PCA) (mean_sub : bool)
    (n_in : n_eigs_arg) (min_eigval : option npfloat) (method : string)
    (w : list string) (rs : list R) :
  compute_pca mean_sub n_in min_eigval method self = (Ok tt, self', w) ->
  sorted_eigenvalues self mean_sub = fins rs ->
  Forall (fun r => 0 <= r) rs ->
  0 < rsum (if mean_sub then rs else skipn 1 rs) ->
  exists (k : Z) (v : R),
    _n_eigs self' = Some k /\
    _var_prop self' = Some (Fin v) /\
    0 <= v <= 1 /\
    ((Z.of_nat (length rs) <= k)%Z -> v = 1) /\
    (mean_sub = false -> k = 1%Z -> v = 0).
Proof.
  intros H Hall Hrs Htot. apply compute_pca_outcome in H.
  destruct H as (k & Hpos & _ & -> & _).
  unfold sorted_eigenvalues in Hall.
  set (kept := if mean_sub then rs else skipn 1 rs) in *.
  set (part := if mean_sub then firstn (Z.to_nat k) rs
               else firstn (Z.to_nat k - 1) (skipn 1 rs)).
  assert (Hkept : Forall (fun r => 0 <= r) kept).
  { subst kept. destruct mean_sub; [exact Hrs|].
    destruct Hrs; cbn; [constructor | assumption]. }
  assert (Hpart : 0 <= rsum part <= rsum kept).
  { subst part kept. destruct mean_sub; apply rsum_firstn_le; assumption. }
  exists k, (rsum part / rsum kept).
  split; [destruct self; reflexivity|]. split.
  - assert (Hvp : _var_prop (after_compute_pca self mean_sub k) =
      Some (fdiv (np_sum (if mean_sub then firstn (Z.to_nat k) (fins rs)
                          else skipn 1 (firstn (Z.to_nat k) (fins rs))))
              (np_sum (if mean_sub then fins rs else skipn 1 (fins rs))))).
    { unfold after_compute_pca, covariance_input in *. rewrite Hall.
      destruct self; reflexivity. }
    rewrite Hvp. f_equal. subst part kept.
    destruct mean_sub.
    + rewrite fins_firstn, !np_sum_fins. cbn [fdiv].
      rewrite Reqb_false by lra. reflexivity.
    + rewrite skipn_1_firstn, fins_skipn, fins_firstn, !np_sum_fins.
      cbn [fdiv]. rewrite Reqb_false by lra. reflexivity.
  - split; [|split].
    + split.
      * apply Rmult_le_pos; [lra|]. apply Rlt_le, Rinv_0_lt_compat. lra.
      * apply (Rmult_le_reg_r (rsum kept)); [lra|].
        unfold Rdiv. rewrite Rmult_assoc, Rinv_l by lra. lra.
    + intros Hk. subst part kept. destruct mean_sub.
      * rewrite firstn_all2 by lia. field. lra.
      * rewrite firstn_all2 by (rewrite length_skipn; lia). field. lra.
    + intros -> ->. subst part kept.
      change (Z.to_nat 1 - 1)%nat with 0%nat. cbn [firstn rsum fold_right].
      unfold Rdiv. apply Rmult_0_l.
Qed.

(** X6.  A successful [compute_pca] assigns the decomposition attributes
    and sets the decomposition-only flag; the data, and the widths and
    fit results of an earlier run, are left as they were. *)
Theorem compute_pca_keeps_earlier_fit (self self' : PCA) (mean_sub : bool)
    (n_in : n_eigs_arg) (min_eigval : option npfloat) (method : string)
    (w : list string) :
  compute_pca mean_sub n_in min_eigval method self = (Ok tt, self', w) ->
  w = [] /\
  _decomp_only self' = Some true /\
  _mean_sub self' = Some mean_sub /\
  cov_matrix self' = Some (var_cov_cube (covariance_input self) mean_sub) /\
  _data self' = _data self /\
  spectral_shape self' = spectral_shape self /\
  _spatial_width self' = _spatial_width self /\
  _spatial_width_error self' = _spatial_width_error self /\
  _spectral_width self' = _spectral_width self /\
  _spectral_width_error self' = _spectral_width_error self /\
  _fit_method self' = _fit_method self /\
  _samps self' = _samps self /\
  _index self' = _index self /\
  _index_error_range self' = _index_error_range self /\
  _intercept self' = _intercept self /\
  _intercept_error_range self' = _intercept_error_range self.
Proof.
  intros H. apply compute_pca_outcome in H.
  destruct H as (k & _ & _ & -> & ->).
  destruct self; cbn. repeat split; reflexivity.
Qed.

End DecompositionFacts.

(* ----------------------------------------------------------------- *)
(** ** How [compute_pca] fails *)

Lemma filter_none {A} (p : A -> bool) (l : list A) :
  Forall (fun a => p a = false) l -> filter p l = [].
Proof.
  intros Hl. induction Hl as [|a t Ha Ht IH]; cbn; [reflexivity|].
  rewrite Ha. exact IH.
Qed.

Section DecompositionFailures.

Context {collab : Collaborators}.

Lemma compute_pca_prefix (self : PCA) (mean_sub : bool) (n_in : n_eigs_arg)
    (m : option npfloat) (method : string) :
  (n_in = Auto -> m <> None) ->
  compute_pca mean_sub n_in m method self =
  (let cov := var_cov_cube (covariance_input self) mean_sub in
   let all := rev (np_sort (fst (eigh cov))) in
   let eigvecs := take_columns (snd (eigh cov))
                    (rev (np_argsort (fst (eigh cov)))) in
   match n_in with
   | Auto =>
       match m with
       | Some m =>
           n <- lift (set_n_eigs all m method) ;;
           n_eigs_setter n
       | None => raise TypeError "min_eigval is None"
       end
   | Count n =>
       if (n =? -1)%Z then n_eigs_setter (spectral_shape self)
       else if ((n <? -1) || (n >? spectral_shape self) || (n =? 0))%Z then
         raise PyWarning
           "n_eigs must be less than the number of velocity channels or -1 for all"
       else n_eigs_setter n
   end ;;;
   (if mean_sub then
      modify (store_total_variance (np_sum all)) ;;;
      k <- n_eigs ;;
      tot <- total_variance ;;
      modify (store_var_prop
                (fdiv (np_sum (py_slice None (Some k) all)) tot))
    else
      modify (store_total_variance
                (np_sum (py_slice (Some 1%Z) None all))) ;;;
      k <- n_eigs ;;
      tot <- total_variance ;;
      modify (store_var_prop
                (fdiv (np_sum (py_slice (Some 1%Z) (Some k) all)) tot))) ;;;
   modify (store_eigvals all) ;;;
   modify (store_eigvecs eigvecs) ;;;
   modify (store_mean_sub mean_sub))
    (store_cov_matrix (var_cov_cube (covariance_input self) mean_sub)
       (store_decomp_only true self)).
Proof.
  intros Hm. unfold compute_pca. rewrite bind_modify.
  assert (Hstep : forall (B : Type) (k : unit -> M B) st,
    bind (match n_in, m with
          | Auto, None =>
              raise ValueError
                "min_eigval must be given when using n_eigs='auto'."
          | _, _ => ret tt end) k st = k tt st).
  { intros B k st. destruct n_in, m; try apply bind_ret_l.
    exfalso. apply Hm; reflexivity. }
  rewrite Hstep, bind_get, bind_modify.
  unfold covariance_input.
  replace (_data (store_decomp_only true self)) with (_data self)
    by (destruct self; reflexivity).
  replace (spectral_shape (store_decomp_only true self))
    with (spectral_shape self) by (destruct self; reflexivity).
  cbv zeta.
  destruct (eigh (var_cov_cube (_data self) mean_sub)) as [vals vecs].
  reflexivity.
Qed.

(** X7.  [compute_pca] with [n_eigs='auto'] and no [min_eigval] raises
    ValueError before the covariance matrix is computed: only the
    decomposition-only flag has been set.  With a count that is 0, below
    -1 or above the number of channels it raises after the covariance
    matrix has been stored: the matrix is new, while [n_eigs] and the
    eigenvalues are still those of before. *)
Theorem compute_pca_rejected_count (self : PCA) (mean_sub : bool)
    (min_eigval : option npfloat) (method : string) :
  compute_pca mean_sub Auto None method self =
    (Raise (Exn ValueError
              "min_eigval must be given when using n_eigs='auto'."),
     store_decomp_only true self, []) /\
  (forall n : Z,
     (n = 0 \/ n < -1 \/ 0 <= spectral_shape self < n)%Z ->
     let out := compute_pca mean_sub (Count n) min_eigval method self in
     exn_class_of (result_of out) = Some PyWarning /\
     state_of out =
       store_cov_matrix (var_cov_cube (covariance_input self) mean_sub)
         (store_decomp_only true self) /\
     _n_eigs (state_of out) = _n_eigs self /\
     _eigvals (state_of out) = _eigvals self /\
     _eigvecs (state_of out) = _eigvecs self).
Proof.
  split.
  - unfold compute_pca. rewrite bind_modify. reflexivity.
  - intros n Hn out. subst out.
    rewrite compute_pca_prefix by discriminate. cbv zeta.
    destruct (Z.eqb_spec n (-1)) as [->|Hn1]; [lia|].
    assert (Hbad : ((n <? -1) || (n >? spectral_shape self) || (n =? 0))%Z
                   = true).
    { destruct Hn as [-> | [Hn | Hn]].
      - rewrite orb_true_r. reflexivity.
      - apply Z.ltb_lt in Hn. rewrite Hn. reflexivity.
      - destruct Hn as [_ Hn].
        apply Z.gt_lt_iff, Z.gtb_gt in Hn. rewrite Hn, orb_true_r.
        reflexivity. }
    rewrite Hbad, bind_raise_l. unfold result_of, state_of. cbn [fst snd].
    destruct self; cbn. repeat split; reflexivity.
Qed.

(** X8.  Automatic selection that selects nothing fails: when
    [set_n_eigs] counts 0, as it does with [method='value'] when no
    eigenvalue reaches [min_eigval], [compute_pca] raises ValueError
    from the [n_eigs] setter; with a method other than 'value' and
    'proportion' it raises ValueError from [set_n_eigs].  In both cases
    the covariance matrix has been stored and no eigenvalue has. *)
Theorem compute_pca_auto_rejected (self : PCA) (mean_sub : bool)
    (m : npfloat) (method : string) :
  let out := compute_pca mean_sub Auto (Some m) method self in
  let rejected :=
    exn_class_of (result_of out) = Some ValueError /\
    state_of out =
      store_cov_matrix (var_cov_cube (covariance_input self) mean_sub)
        (store_decomp_only true self) in
  (set_n_eigs (sorted_eigenvalues self mean_sub) m method = Ok 0%Z ->
   rejected) /\
  (method = "value" ->
   Forall (fun e => fle m e = false) (sorted_eigenvalues self mean_sub) ->
   rejected) /\
  (method <> "value" -> method <> "proportion" -> rejected).
Proof.
  intros out rejected. subst rejected out.
  assert (Hzero : set_n_eigs (sorted_eigenvalues self mean_sub) m method =
                  Ok 0%Z ->
    exn_class_of
      (result_of (compute_pca mean_sub Auto (Some m) method self)) =
      Some ValueError /\
    state_of (compute_pca mean_sub Auto (Some m) method self) =
      store_cov_matrix (var_cov_cube (covariance_input self) mean_sub)
        (store_decomp_only true self)).
  { intros Hset. rewrite compute_pca_prefix by discriminate. cbv zeta.
    unfold sorted_eigenvalues in Hset. rewrite Hset.
    rewrite bind_assoc, bind_lift_ok, n_eigs_setter_raise by lia.
    split; reflexivity. }
  split; [exact Hzero|]. split.
  - intros -> Hall. apply Hzero. rewrite set_n_eigs_value.
    rewrite (filter_none (fun e => fle m e) Hall). reflexivity.
  - intros Hv Hp. rewrite compute_pca_prefix by discriminate. cbv zeta.
    unfold set_n_eigs.
    apply String.eqb_neq in Hv. apply String.eqb_neq in Hp.
    rewrite Hv, Hp. rewrite bind_assoc, bind_lift_raise.
    split; reflexivity.
Qed.

End DecompositionFailures.

(* ----------------------------------------------------------------- *)
(** ** Queries *)

Lemma ro_ret {A} (a : A) : read_only (ret a).
Proof. intros self. split; reflexivity. Qed.

Lemma ro_raise {A} (c : exn_class) (msg : string) :
  read_only (raise (A := A) c msg).
Proof. intros self. split; reflexivity. Qed.

Lemma ro_get : read_only get.
Proof. intros self. split; reflexivity. Qed.

Lemma ro_lift {A} (r : result A) : read_only (lift r).
Proof. intros self. split; reflexivity. Qed.

Lemma ro_attr {A} (name : string) (field : PCA -> option A) :
  read_only (attr name field).
Proof.
  intros self. unfold attr. destruct (field self); split; reflexivity.
Qed.

Lemma ro_bind {A B} (m : M A) (k : A -> M B) :
  read_only m -> (forall a, read_only (k a)) -> read_only (bind m k).
Proof.
  intros Hm Hk self. specialize (Hm self). unfold bind.
  destruct (m self) as [[[a|e] s] w]; unfold state_of, warnings_of in *;
    cbn [fst snd] in *; destruct Hm as [-> ->].
  - specialize (Hk a self). unfold state_of, warnings_of in Hk.
    destruct (k a self) as [[r s2] w2]. cbn [fst snd] in *.
    destruct Hk as [-> ->]. split; reflexivity.
  - split; reflexivity.
Qed.

Lemma ro_for_each {A B} (l : list A) (body : B -> A -> M B) :
  (forall acc x, read_only (body acc x)) ->
  forall acc, read_only (for_each l acc body).
Proof.
  intros Hb. induction l as [|x t IH]; intros acc; cbn.
  - apply ro_ret.
  - apply ro_bind; [apply Hb | intros a; apply IH].
Qed.

Ltac ro :=
  repeat first
    [ apply ro_ret | apply ro_raise | apply ro_get | apply ro_lift
    | apply ro_attr
    | apply ro_for_each; intros
    | apply ro_bind; [|intros]
    | match goal with
      | |- read_only (match ?x with _ => _ end) => destruct x
      | |- read_only (if ?b then _ else _) => destruct b
      end ].

Section Queries.

Context {collab : Collaborators}.

Lemma ro_eigimages (n : option Z) : read_only (eigimages n).
Proof.
  unfold eigimages, eigimages_iterat, _valid_eigenvectors, eigimage,
    stack_results, n_eigs, eigvals, eigvecs.
  ro.
Qed.

Lemma ro_autocorr_images (n : option Z) : read_only (autocorr_images n).
Proof.
  unfold autocorr_images, n_eigs. apply ro_bind; [ro|]. intros k.
  apply ro_bind; [apply ro_eigimages|]. intros r.
  unfold stack_results. ro.
Qed.

(** X9.  The query methods read the instance and leave it as it is,
    whether they return or raise: [eigimages], [autocorr_images],
    [autocorr_spec], [noise_ACF], [gamma], [gamma_error_range] and
    [sonic_length] assign no attribute and emit no warning. *)
Theorem queries_are_read_only (n : option Z) (T_k : option npfloat)
    (mu : npfloat) (use_gamma : bool) :
  read_only (eigimages n) /\
  read_only (autocorr_images n) /\
  read_only (autocorr_spec n) /\
  read_only (noise_ACF n) /\
  read_only gamma /\
  read_only gamma_error_range /\
  read_only (sonic_length T_k mu use_gamma).
Proof.
  split; [apply ro_eigimages|]. split; [apply ro_autocorr_images|].
  split; [|split; [|split; [|split]]].
  - unfold autocorr_spec, n_eigs, eigvecs. ro.
  - unfold noise_ACF, n_eigs. apply ro_bind; [ro|]. intros k.
    apply ro_bind; [apply ro_autocorr_images|]. intros r. ro.
  - unfold gamma, index. ro.
  - unfold gamma_error_range, index_error_range. ro.
  - unfold sonic_length, gamma, gamma_error_range, index, index_error_range,
      intercept, intercept_error_range.
    ro.
Qed.

End Queries.

(* ----------------------------------------------------------------- *)
(** ** A single retained eigenvalue *)

Lemma bind_fails {A B} (m : M A) (k : A -> M B) (self : PCA) :
  (forall a s w, m self = (Ok a, s, w) -> is_ok (result_of (k a s)) = false) ->
  is_ok (result_of (bind m k self)) = false.
Proof.
  intros H. unfold bind.
  destruct (m self) as [[[a|e] s] w]; [|reflexivity].
  specialize (H a s w eq_refl).
  destruct (k a s) as [[r s2] w2]. exact H.
Qed.

Lemma bind_fails_l {A B} (m : M A) (k : A -> M B) (self : PCA) :
  is_ok (result_of (m self)) = false ->
  is_ok (result_of (bind m k self)) = false.
Proof.
  intros H. apply bind_fails. intros a s w E. rewrite E in H. discriminate.
Qed.

Lemma ro_state {A} (m : M A) (self s : PCA) (r : result A) (w : list string) :
  read_only m -> m self = (r, s, w) -> s = self.
Proof.
  intros Hro E. destruct (Hro self) as [Hs _]. rewrite E in Hs. exact Hs.
Qed.

Section SingleMode.

Context {collab : Collaborators}.

Lemma eigimages_single (self s : PCA) (v : ndarray) (w : list string) :
  eigimages (Some 1%Z) self = (Ok v, s, w) -> exists im, v = Arr2 im.
Proof.
  unfold eigimages, eigimages_iterat. rewrite !bind_ret_l.
  change (1 >? 0)%Z with true. cbv iota. rewrite bind_ret_l.
  change (seq 0 (Z.to_nat 1)) with [0%nat].
  cbn [for_each]. unfold bind.
  destruct (eigimage 0 self) as [[[im|e] s1] w1]; [|discriminate].
  cbn. intros H. injection H as <- _ _. exists im. reflexivity.
Qed.

Lemma autocorr_images_single (self : PCA) :
  is_ok (result_of (autocorr_images (Some 1%Z) self)) = false.
Proof.
  unfold autocorr_images. rewrite bind_ret_l.
  apply bind_fails. intros v s w E.
  apply eigimages_single in E. destruct E as [im ->].
  destruct im; reflexivity.
Qed.



(** X11.  The full pipeline cannot be run for one eigenvalue:
    [run(n_eigs=1, decomp_only=False)] raises on every cube, with every
    choice of the other arguments. *)
Theorem run_single_mode_fails (self : PCA) (mean_sub : bool)
    (min_eigval : option npfloat)
    (eigen_cut_method spatial_method spectral_method fit_method : string)
    (beam_fwhm : option npfloat) (brunt_beamcorrect : bool) :
  is_ok (result_of
           (run mean_sub false (Count 1) min_eigval eigen_cut_method
              spatial_method spectral_method fit_method beam_fwhm
              brunt_beamcorrect self)) = false.
Proof.
  unfold run. cbn [negb].
  apply bind_fails. intros beam s0 w0 E0.
  apply bind_fails. intros [] s1 w1 E1.
  apply compute_pca_outcome in E1.
  destruct E1 as (k & _ & Hsel & -> & _).
  destruct Hsel as [[Habs _]|[_ ->]]; [discriminate|].
  rewrite bind_modify.
  apply bind_fails_l.
  unfold find_spatial_widths.
  apply bind_fails. intros b s w E.
  assert (s = store_decomp_only false (after_compute_pca s0 mean_sub 1)) as ->.
  { revert E. apply ro_state. ro. }
  unfold n_eigs. erewrite bind_attr
    by (unfold after_compute_pca; destruct s0; reflexivity).
  apply bind_fails_l. apply autocorr_images_single.
Qed.

End SingleMode.

(* ----------------------------------------------------------------- *)
(** ** The gamma correction keeps the order *)

Lemma brunt_PInf : brunt_index_correct PInf = PInf.
Proof.
  unfold brunt_index_correct. cbn.
  rewrite (Rltb_false (a := 1.07) (b := 0)) by lra. reflexivity.
Qed.

Lemma brunt_NInf : brunt_index_correct NInf = NInf.
Proof.
  unfold brunt_index_correct. cbn.
  rewrite (Rltb_false (a := 0.59) (b := 0)) by lra. reflexivity.
Qed.

Lemma brunt_fin (a : R) :
  exists c : R, brunt_index_correct (Fin a) = Fin c /\
    (a < 0.67 -> c = (a - 0.32) / 0.59) /\
    (~ a < 0.67 -> c = (a - 0.03) / 1.07).
Proof.
  destruct (Rlt_dec a 0.67) as [H|H].
  - exists ((a - 0.32) / 0.59). split; [apply brunt_low; exact H|].
    split; [reflexivity | contradiction].
  - exists ((a - 0.03) / 1.07). split; [apply brunt_high; exact H|].
    split; [contradiction | reflexivity].
Qed.


Lemma brunt_fle_mono (x y : npfloat) :
  fle x y = true ->
  fle (brunt_index_correct x) (brunt_index_correct y) = true.
Proof.
  intros H.
  destruct x as [a| | |], y as [b| | |]; try discriminate H;
    rewrite ?brunt_PInf, ?brunt_NInf; try reflexivity.
  - cbn in H. unfold Rleb in H.
    destruct (Rle_dec a b) as [Hab|]; [|discriminate].
    destruct (brunt_fin a) as (c & -> & Hc1 & Hc2).
    destruct (brunt_fin b) as (d & -> & Hd1 & Hd2).
    cbn. apply Rleb_true.
    destruct (Rlt_dec a 0.67) as [Ha|Ha], (Rlt_dec b 0.67) as [Hb|Hb];
      rewrite ?(Hc1 Ha), ?(Hc2 Ha), ?(Hd1 Hb), ?(Hd2 Hb); lra.
  - destruct (brunt_fin a) as (c & -> & _). reflexivity.
  - destruct (brunt_fin b) as (d & -> & _). reflexivity.
Qed.


(** X13.  When the fitted index lies within its error range, [gamma]
    lies within [gamma_error_range]: both return, and the corrected
    bounds enclose the corrected index. *)
Theorem gamma_within_its_range (self : PCA) (i lo hi : npfloat) :
  _index self = Some i ->
  _index_error_range self = Some [lo; hi] ->
  fle lo i = true -> fle i hi = true ->
  exists g glo ghi : npfloat,
    result_of (gamma self) = Ok g /\
    result_of (gamma_error_range self) = Ok [glo; ghi] /\
    fle glo g = true /\ fle g ghi = true.
Proof.
  intros Hi Hr Hlo Hhi.
  exists (brunt_index_correct i), (brunt_index_correct lo),
    (brunt_index_correct hi).
  unfold gamma, gamma_error_range, index, index_error_range.
  erewrite !bind_attr by eassumption.
  repeat split; auto using brunt_fle_mono.
Qed.

(* ----------------------------------------------------------------- *)
(** ** How many eigenimages *)

Lemma bind_inv {A B} (m : M A) (k : A -> M B) (self s' : PCA) (b : B)
    (w : list string) :
  bind m k self = (Ok b, s', w) ->
  exists (a : A) (s1 : PCA) (w1 w2 : list string),
    m self = (Ok a, s1, w1) /\ k a s1 = (Ok b, s', w2) /\
    w = (w1 ++ w2)%list.
Proof.
  unfold bind. destruct (m self) as [[[a|e] s1] w1]; [|discriminate].
  destruct (k a s1) as [[r s2] w2] eqn:Hk. intros H.
  injection H as -> -> <-.
  exists a, s1, w1, w2. repeat split; assumption.
Qed.

Lemma for_each_append_length {A B} (f : A -> M B) (l : list A) :
  forall (acc r : list B) (self s : PCA) (w : list string),
  for_each l acc (fun acc x => y <- f x ;; ret (acc ++ [y])%list) self =
    (Ok r, s, w) ->
  length r = (length acc + length l)%nat.
Proof.
  induction l as [|x t IH]; intros acc r self s w H; cbn in H.
  - injection H as <- _ _. cbn. lia.
  - apply bind_inv in H. destruct H as (a & s1 & w1 & w2 & H1 & H2 & _).
    apply bind_inv in H1. destruct H1 as (y & s0 & w0 & w0' & _ & Hr & _).
    injection Hr as <- _ _.
    apply IH in H2. rewrite H2, length_app. cbn. lia.
Qed.

Lemma stack_results_count (name : string) (imgs : list image) (self s : PCA)
    (v : ndarray) (w : list string) :
  stack_results name imgs self = (Ok v, s, w) ->
  n_images v = length imgs /\ imgs <> [].
Proof.
  destruct imgs as [|a [|b t]]; cbn; intros H; try discriminate;
    injection H as <- _ _; cbn; rewrite ?length_map; split;
    (reflexivity || discriminate).
Qed.

Lemma length_lastn {A} (k : nat) (l : list A) :
  length (lastn k l) = Nat.min k (length l).
Proof. unfold lastn. rewrite length_skipn. lia. Qed.

Section EigenimageCount.

Context {collab : Collaborators}.

(** X14.  When [eigimages(n)] returns, it returns exactly [n] images
    for a positive [n]; for a negative [n] it returns the images of the
    last [|n|] eigenvalues that reach the machine epsilon, fewer when
    there are not that many (and at least one); it never returns for
    [n == 0]. *)
Theorem eigimages_count (self s : PCA) (n : Z) (v : ndarray)
    (w : list string) :
  eigimages (Some n) self = (Ok v, s, w) ->
  n <> 0%Z /\
  (0 < n_images v)%nat /\
  ((0 < n)%Z -> n_images v = Z.to_nat n) /\
  ((n < 0)%Z ->
   exists ev : list npfloat,
     _eigvals self = Some ev /\
     n_images v =
       Nat.min (Z.to_nat (- n))
         (length (filter (fun e => fge e (Fin (finfo_eps (dtype self)))) ev))).
Proof.
  unfold eigimages. rewrite bind_ret_l. intros H.
  apply bind_inv in H. destruct H as (it & s1 & w1 & w2 & Hit & H & _).
  apply bind_inv in H. destruct H as (imgs & s2 & w3 & w4 & Himgs & H & _).
  apply for_each_append_length in Himgs. cbn [length plus] in Himgs.
  apply stack_results_count in H. destruct H as [Hcount Hne].
  rewrite Hcount, Himgs.
  assert (Hpos : (0 < length it)%nat).
  { rewrite <- Himgs. destruct imgs; [contradiction|cbn; lia]. }
  unfold eigimages_iterat in Hit.
  destruct (Z.gtb_spec n 0) as [Hgt|Hle].
  - unfold ret in Hit. injection Hit as <- _ _. rewrite length_seq in *.
    repeat split; try lia.
  - destruct (Z.ltb_spec n 0) as [Hlt|Hge]; [|discriminate].
    apply bind_inv in Hit.
    destruct Hit as (valid & s0 & w0 & w0' & Hvalid & Hret & _).
    unfold ret in Hret. injection Hret as <- _ _.
    destruct (_eigvals self) as [ev|] eqn:Hev.
    2:{ unfold _valid_eigenvectors, eigvals in Hvalid.
        rewrite bind_attr_missing in Hvalid by exact Hev. discriminate. }
    rewrite (valid_eigenvectors_run self Hev) in Hvalid.
    injection Hvalid as <- _ _.
    rewrite py_slice_negative_start in * by exact Hlt.
    rewrite length_lastn, count_where in *.
    repeat split; try lia.
    exists ev. split; reflexivity.
Qed.

End EigenimageCount.

(* ----------------------------------------------------------------- *)
(** ** What a stage leaves alone *)

Lemma keeps_ro {A B} (proj : PCA -> B) (m : M A) :
  read_only m -> keeps proj m.
Proof. intros H self. destruct (H self) as [-> _]. reflexivity. Qed.

Lemma keeps_warn {B} (proj : PCA -> B) (msg : string) : keeps proj (warn msg).
Proof. intros self. reflexivity. Qed.

Lemma keeps_modify {B} (proj : PCA -> B) (f : PCA -> PCA) :
  (forall s, proj (f s) = proj s) -> keeps proj (modify f).
Proof. intros H self. apply H. Qed.

Lemma keeps_bind {A B C} (proj : PCA -> C) (m : M A) (k : A -> M B) :
  keeps proj m -> (forall a, keeps proj (k a)) -> keeps proj (bind m k).
Proof.
  intros Hm Hk self. specialize (Hm self). unfold bind.
  destruct (m self) as [[[a|e] s] w]; unfold state_of in *; cbn [fst snd] in *.
  - specialize (Hk a s). unfold state_of in Hk.
    destruct (k a s) as [[r s2] w2]. cbn [fst snd] in *. congruence.
  - exact Hm.
Qed.

Lemma keeps_state {A B} (proj : PCA -> B) (m : M A) (self s : PCA)
    (r : result A) (w : list string) :
  keeps proj m -> m self = (r, s, w) -> proj s = proj self.
Proof. intros Hk E. specialize (Hk self). rewrite E in Hk. exact Hk. Qed.

Ltac kp :=
  repeat first
    [ apply keeps_warn
    | apply keeps_modify; intros []; reflexivity
    | apply keeps_bind; [|intros]
    | match goal with
      | |- keeps _ (match ?x with _ => _ end) => destruct x
      | |- keeps _ (if ?b then _ else _) => destruct b
      end
    | apply keeps_ro; ro ].

Section Frames.

Context {collab : Collaborators}.

Lemma keeps_find_spatial_widths (method : string) (brunt_beamcorrect : bool)
    (beam_fwhm : option npfloat) :
  keeps (fun s => (decomposition s, fit_results s, _spectral_width s,
                   _spectral_width_error s))
    (find_spatial_widths method brunt_beamcorrect beam_fwhm).
Proof.
  unfold find_spatial_widths.
  apply keeps_bind; [kp|]. intros beam.
  apply keeps_bind; [apply keeps_ro; unfold n_eigs; ro|]. intros k.
  apply keeps_bind; [apply keeps_ro; apply ro_autocorr_images|].
  intros acors.
  apply keeps_bind.
  { apply keeps_ro. unfold noise_ACF.
    apply ro_bind; [ro|]. intros n.
    apply ro_bind; [apply ro_autocorr_images|]. intros r. ro. }
  intros noise.
  destruct (WidthEstimate2D _ _ _ _ _) as [wd e]. kp.
Qed.

Lemma keeps_find_spectral_widths (method : string) :
  keeps (fun s => (decomposition s, fit_results s, _spatial_width s,
                   _spatial_width_error s))
    (find_spectral_widths method).
Proof.
  unfold find_spectral_widths.
  apply keeps_bind; [apply keeps_ro; unfold n_eigs; ro|]. intros k.
  apply keeps_bind.
  { apply keeps_ro. unfold autocorr_spec, eigvecs. ro. }
  intros a. destruct (WidthEstimate1D _ _) as [wd e]. kp.
Qed.

Lemma keeps_fit_plaw (fit_method : string) :
  keeps (fun s => (decomposition s, widths s)) (fit_plaw fit_method).
Proof.
  unfold fit_plaw, spectral_width, spatial_width, spatial_width_error,
    spectral_width_error.
  kp.
Qed.

(** X15.  The stages after the decomposition never alter it: whether
    they return or raise, [find_spatial_widths], [find_spectral_widths]
    and [fit_plaw] leave the data, the number of eigenvalues, the
    covariance matrix, the variances, the eigenvalues and the
    eigenvectors as they were; the two width stages leave each other's
    widths and an earlier fit alone, and [fit_plaw] leaves the widths
    alone. *)
Theorem later_stages_keep_earlier_results (method fit_method : string)
    (brunt_beamcorrect : bool) (beam_fwhm : option npfloat) :
  keeps (fun s => (decomposition s, fit_results s, _spectral_width s,
                   _spectral_width_error s))
    (find_spatial_widths method brunt_beamcorrect beam_fwhm) /\
  keeps (fun s => (decomposition s, fit_results s, _spatial_width s,
                   _spatial_width_error s))
    (find_spectral_widths method) /\
  keeps (fun s => (decomposition s, widths s)) (fit_plaw fit_method).
Proof.
  split; [apply keeps_find_spatial_widths|].
  split; [apply keeps_find_spectral_widths | apply keeps_fit_plaw].
Qed.

End Frames.

(* ----------------------------------------------------------------- *)
(** ** The ranges of an ODR fit *)

Lemma pow10_fin (b : R) : np_power (Fin 10) (Fin b) = Fin (Rpower 10 b).
Proof.
  cbn. unfold Reqb. destruct (Req_dec_T b 0) as [->|Hb].
  - rewrite Rpower_O by lra. reflexivity.
  - rewrite Rltb_true by lra. reflexivity.
Qed.

Lemma pow10_PInf : np_power (Fin 10) PInf = PInf.
Proof.
  cbn. rewrite Rabs_pos_eq by lra.
  rewrite Reqb_false, Rltb_false by lra. reflexivity.
Qed.

Lemma pow10_NInf : np_power (Fin 10) NInf = Fin 0.
Proof.
  cbn. rewrite Rabs_pos_eq by lra.
  rewrite Reqb_false, Rltb_false by lra. reflexivity.
Qed.

Lemma pow10_NaN : np_power (Fin 10) NaN = NaN.
Proof. cbn. rewrite Reqb_false by lra. reflexivity. Qed.

Lemma Rpower10_le (a b : R) : a <= b -> Rpower 10 a <= Rpower 10 b.
Proof. intros H. apply Rle_Rpower; lra. Qed.

Lemma Rpower10_lt (a b : R) : a < b -> Rpower 10 a < Rpower 10 b.
Proof. intros H. apply Rpower_lt; lra. Qed.

Lemma Rpower10_pos (a : R) : 0 < Rpower 10 a.
Proof. unfold Rpower. apply exp_pos. Qed.

(** A range [p - e, p + e] whose bounds are in order encloses [p]. *)
Lemma sub_add_bracket (p e : npfloat) :
  fle (fsub p e) (fadd p e) = true ->
  fle (fsub p e) p = true /\ fle p (fadd p e) = true.
Proof.
  destruct p as [a| | |], e as [b| | |]; cbn; try discriminate;
    try (intros _; split; reflexivity).
  unfold Rleb. destruct (Rle_dec (a - b) (a + b)) as [H|]; [|discriminate].
  intros _. split; [destruct (Rle_dec (a - b) a) | destruct (Rle_dec a (a + b))];
    try reflexivity; lra.
Qed.

(** The same after [10 ** _]. *)
Lemma pow10_bracket (p e : npfloat) :
  fle (np_power (Fin 10) (fsub p e)) (np_power (Fin 10) (fadd p e)) = true ->
  fle (np_power (Fin 10) (fsub p e)) (np_power (Fin 10) p) = true /\
  fle (np_power (Fin 10) p) (np_power (Fin 10) (fadd p e)) = true.
Proof.
  destruct p as [a| | |], e as [b| | |]; cbn [fsub fadd];
    rewrite ?pow10_fin, ?pow10_PInf, ?pow10_NInf, ?pow10_NaN; cbn [fle];
    try discriminate; try (intros _; split; reflexivity).
  1:{ unfold Rleb at 1.
      destruct (Rle_dec (Rpower 10 (a - b)) (Rpower 10 (a + b))) as [H|];
        [|discriminate].
      intros _.
      assert (Hb : 0 <= b).
      { destruct (Rle_dec 0 b) as [|Hn]; [assumption|].
        pose proof (@Rpower10_lt (a + b) (a - b) ltac:(lra)). lra. }
      split; apply Rleb_true; apply Rpower10_le; lra. }
  all: intros H; split; try reflexivity; try exact H;
    apply Rleb_true;
    try match goal with
        | a : R |- _ => pose proof (Rpower10_pos a)
        end; lra.
Qed.

Ltac inv_keep H :=
  let a := fresh "a" in
  let s := fresh "s" in
  let Hm := fresh "Hm" in
  apply bind_inv in H;
  destruct H as (a & s & ? & ? & Hm & H & _);
  apply (keeps_state (proj := fun st : PCA => st)) in Hm; [subst s | kp].

Section OdrFit.

Context {collab : Collaborators}.

Lemma fit_plaw_odr_outcome (self self' : PCA) (w : list string) :
  fit_plaw "odr" self = (Ok tt, self', w) ->
  exists p e : npfloat * npfloat,
    self' =
    store_intercept_error_range
      (map (np_power (Fin 10))
         [fsub (snd p) (snd e); fadd (snd p) (snd e)])
      (store_intercept (np_power (Fin 10) (snd p))
         (store_index_error_range
            [fsub (fst p) (fst e); fadd (fst p) (fst e)]
            (store_index (fst p)
               (store_fit_method "odr" (store_decomp_only false self))))).
Proof.
  unfold fit_plaw. intros H.
  rewrite bind_modify in H.
  change (negb ("odr" =? "odr") && negb ("odr" =? "bayes")) with false in H.
  cbv iota in H. rewrite bind_ret_l, bind_modify in H.
  unfold spectral_width, spatial_width, spatial_width_error,
    spectral_width_error in H.
  do 10 inv_keep H.
  change ("odr" =? "odr") with true in H. cbv iota in H.
  destruct (leastsq_linear _ _ _ _) as [p e].
  rewrite bind_ret_l in H. cbn [fst snd] in H.
  rewrite !bind_modify in H. unfold modify in H.
  injection H as <- _. exists p, e. reflexivity.
Qed.

(** X16.  After a successful ODR fit the instance holds an index with a
    two-sided range and an intercept with a two-sided range; whenever
    the bounds of a range are in order (the reported error is not
    negative and nothing is NaN) the range encloses its value.  The
    posterior samples of an earlier MCMC fit stay in place. *)
Theorem fit_plaw_odr_ranges (self self' : PCA) (w : list string) :
  fit_plaw "odr" self = (Ok tt, self', w) ->
  exists i lo hi c clo chi : npfloat,
    _index self' = Some i /\
    _index_error_range self' = Some [lo; hi] /\
    _intercept self' = Some c /\
    _intercept_error_range self' = Some [clo; chi] /\
    (fle lo hi = true -> fle lo i = true /\ fle i hi = true) /\
    (fle clo chi = true -> fle clo c = true /\ fle c chi = true) /\
    _fit_method self' = Some "odr" /\
    _samps self' = _samps self.
Proof.
  intros H. apply fit_plaw_odr_outcome in H. destruct H as (p & e & ->).
  exists (fst p), (fsub (fst p) (fst e)), (fadd (fst p) (fst e)),
    (np_power (Fin 10) (snd p)),
    (np_power (Fin 10) (fsub (snd p) (snd e))),
    (np_power (Fin 10) (fadd (snd p) (snd e))).
  destruct self as [d0 d1 d2 d3 d4 d5 d6 d7 d8 d9 d10 d11 d12 d13 d14 d15 d16
    d17 d18 d19 d20].
  cbn -[np_power].
  repeat split; try reflexivity;
    try (apply sub_add_bracket; assumption);
    try (apply pow10_bracket; assumption).
Qed.

End OdrFit.

Lemma measured_fits_odr :
  fit_plaw (collab := diag_collab) "odr" measured =
    (Ok tt, fitted_odr, [few_points_warning]).
Proof.
  unfold fit_plaw, measured, fitted_odr, decomposed, three_modes,
    spectral_width, spatial_width, spatial_width_error, spectral_width_error,
    few_points_warning.
  np_eval. rewrite bind_warn. np_eval. np_finish.
Qed.

(* ----------------------------------------------------------------- *)
(** ** [run] *)

Section RunProperties.

Context {collab : Collaborators}.

Lemma after_compute_pca_flag (self : PCA) (mean_sub : bool) (k : Z) :
  store_decomp_only true (after_compute_pca self mean_sub k) =
  after_compute_pca self mean_sub k.
Proof.
  unfold after_compute_pca.
  destruct self as [d0 d1 d2 d3 d4 d5 d6 d7 d8 d9 d10 d11 d12 d13 d14 d15 d16
    d17 d18 d19 d20].
  reflexivity.
Qed.

Lemma run_decomp_only_eq (self : PCA) (mean_sub : bool)
    (n_eigs_in : n_eigs_arg) (min_eigval : option npfloat)
    (eigen_cut_method spatial_method spectral_method fit_method : string)
    (beam_fwhm : option npfloat) (brunt_beamcorrect : bool) :
  run mean_sub true n_eigs_in min_eigval eigen_cut_method spatial_method
    spectral_method fit_method beam_fwhm brunt_beamcorrect self =
  compute_pca mean_sub n_eigs_in min_eigval eigen_cut_method self.
Proof.
  unfold run. cbn [negb]. rewrite andb_false_r.
  assert (Hbeam : forall (B : Type) (k : option npfloat -> M B),
    bind (match beam_fwhm with
          | Some b => ret (Some b)
          | None => ret None
          end) k self = k beam_fwhm self).
  { intros B k. destruct beam_fwhm; apply bind_ret_l. }
  rewrite Hbeam. clear Hbeam.
  destruct (compute_pca mean_sub n_eigs_in min_eigval eigen_cut_method self)
    as [[[[]|e] s] w] eqn:E.
  - erewrite bind_ok by exact E.
    rewrite bind_modify. unfold ret, result_of, state_of, warnings_of.
    cbn [fst snd]. rewrite app_nil_r.
    apply compute_pca_outcome in E. destruct E as (k & _ & _ & -> & _).
    rewrite after_compute_pca_flag. reflexivity.
  - erewrite bind_raise by exact E. reflexivity.
Qed.

(** X17.  With [decomp_only=True], [run] is [compute_pca]: the same
    result or exception, the same final instance and the same
    warnings, whatever the width methods, the fit method and the beam
    arguments are; none of them is looked at. *)
Theorem run_decomp_only_is_compute_pca (self : PCA) (mean_sub : bool)
    (n_eigs_in : n_eigs_arg) (min_eigval : option npfloat)
    (eigen_cut_method spatial_method spectral_method fit_method : string)
    (beam_fwhm : option npfloat) (brunt_beamcorrect : bool) :
  run mean_sub true n_eigs_in min_eigval eigen_cut_method spatial_method
    spectral_method fit_method beam_fwhm brunt_beamcorrect self =
  compute_pca mean_sub n_eigs_in min_eigval eigen_cut_method self.
Proof. apply run_decomp_only_eq. Qed.

(** X18.  When the beam correction is asked for, no beam width is
    given and none can be read from the header, the full [run] stops
    with ValueError before anything is computed: the instance is as it
    was. *)
Theorem run_without_beam_fails_first (self : PCA) (mean_sub : bool)
    (n_eigs_in : n_eigs_arg) (min_eigval : option npfloat)
    (eigen_cut_method spatial_method spectral_method fit_method : string) :
  find_beam_width = None ->
  run mean_sub false n_eigs_in min_eigval eigen_cut_method spatial_method
    spectral_method fit_method None true self =
  (Raise (Exn ValueError "Cannot load beam size from the header."), self, []).
Proof.
  intros Hb. unfold run. cbn [negb andb]. rewrite Hb.
  apply bind_raise_l.
Qed.

End RunProperties.

(* ----------------------------------------------------------------- *)
(** ** A complete run *)

Section FullRun.

Context {collab : Collaborators}.

Lemma find_spatial_widths_single (self : PCA) (method : string)
    (brunt_beamcorrect : bool) (beam_fwhm : option npfloat) :
  _n_eigs self = Some 1%Z ->
  is_ok (result_of
           (find_spatial_widths method brunt_beamcorrect beam_fwhm self))
    = false.
Proof.
  intros Hn. unfold find_spatial_widths.
  apply bind_fails. intros beam s w E.
  assert (s = self) as ->.
  { revert E. apply ro_state. ro. }
  unfold n_eigs. erewrite bind_attr by exact Hn.
  apply bind_fails_l. apply autocorr_images_single.
Qed.

Lemma find_spatial_widths_sets (self self' : PCA) (method : string)
    (brunt_beamcorrect : bool) (beam_fwhm : option npfloat)
    (w : list string) :
  find_spatial_widths method brunt_beamcorrect beam_fwhm self =
    (Ok tt, self', w) ->
  has _spatial_width self' /\ has _spatial_width_error self'.
Proof.
  unfold find_spatial_widths. intros H.
  inv_keep H.
  apply bind_inv in H. destruct H as (k & s & ? & ? & Hm & H & _).
  apply (keeps_state (proj := fun st : PCA => st)) in Hm;
    [subst s | apply keeps_ro; unfold n_eigs; ro].
  apply bind_inv in H. destruct H as (ac & s & ? & ? & Hm & H & _).
  apply (keeps_state (proj := fun st : PCA => st)) in Hm;
    [subst s | apply keeps_ro; apply ro_autocorr_images].
  apply bind_inv in H. destruct H as (nz & s & ? & ? & Hm & H & _).
  apply (keeps_state (proj := fun st : PCA => st)) in Hm.
  2:{ apply keeps_ro. unfold noise_ACF.
      apply ro_bind; [ro|]. intros n.
      apply ro_bind; [apply ro_autocorr_images|]. intros r. ro. }
  subst s.
  destruct (WidthEstimate2D _ _ _ _ _) as [wd e].
  rewrite !bind_modify in H. unfold modify in H. injection H as <- _.
  destruct self as [d0 d1 d2 d3 d4 d5 d6 d7 d8 d9 d10 d11 d12 d13 d14 d15 d16
    d17 d18 d19 d20].
  split; eexists; reflexivity.
Qed.

Lemma find_spectral_widths_sets (self self' : PCA) (method : string)
    (w : list string) :
  find_spectral_widths method self = (Ok tt, self', w) ->
  has _spectral_width self' /\ has _spectral_width_error self'.
Proof.
  unfold find_spectral_widths. intros H.
  apply bind_inv in H. destruct H as (k & s & ? & ? & Hm & H & _).
  apply (keeps_state (proj := fun st : PCA => st)) in Hm;
    [subst s | apply keeps_ro; unfold n_eigs; ro].
  apply bind_inv in H. destruct H as (ac & s & ? & ? & Hm & H & _).
  apply (keeps_state (proj := fun st : PCA => st)) in Hm;
    [subst s | apply keeps_ro; unfold autocorr_spec, eigvecs; ro].
  destruct (WidthEstimate1D _ _) as [wd e].
  rewrite !bind_modify in H. unfold modify in H. injection H as <- _.
  destruct self as [d0 d1 d2 d3 d4 d5 d6 d7 d8 d9 d10 d11 d12 d13 d14 d15 d16
    d17 d18 d19 d20].
  split; eexists; reflexivity.
Qed.

Lemma fit_plaw_sets (self self' : PCA) (fit_method : string)
    (w : list string) :
  fit_plaw fit_method self = (Ok tt, self', w) ->
  (fit_method = "odr" \/ fit_method = "bayes") /\
  _decomp_only self' = Some false /\
  _fit_method self' = Some fit_method /\
  has _index self' /\ has _index_error_range self' /\
  has _intercept self' /\ has _intercept_error_range self' /\
  (fit_method = "bayes" -> has _samps self').
Proof.
  unfold fit_plaw. intros H.
  rewrite bind_modify in H.
  assert (Hm : fit_method = "odr" \/ fit_method = "bayes").
  { destruct (String.eqb_spec fit_method "odr") as [|_]; [left; assumption|].
    destruct (String.eqb_spec fit_method "bayes") as [|_];
      [right; assumption|].
    cbn [negb andb] in H. rewrite bind_raise_l in H. discriminate. }
  split; [exact Hm|].
  assert (Hchk : negb (fit_method =? "odr") && negb (fit_method =? "bayes")
                 = false).
  { destruct Hm as [-> | ->]; reflexivity. }
  rewrite Hchk in H. rewrite bind_ret_l, bind_modify in H.
  unfold spectral_width, spatial_width, spatial_width_error,
    spectral_width_error in H.
  do 10 inv_keep H.
  destruct self as [d0 d1 d2 d3 d4 d5 d6 d7 d8 d9 d10 d11 d12 d13 d14 d15 d16
    d17 d18 d19 d20].
  destruct Hm as [-> | ->].
  - change ("odr" =? "odr") with true in H. cbv iota in H.
    destruct (leastsq_linear _ _ _ _) as [p e].
    rewrite bind_ret_l in H. cbn [fst snd] in H.
    rewrite !bind_modify in H. unfold modify in H.
    injection H as <- _. cbn -[np_power].
    repeat split; try (eexists; reflexivity). discriminate.
  - change ("bayes" =? "odr") with false in H. cbv iota in H.
    destruct (bayes_linear _ _ _ _) as [[p e] sm].
    rewrite bind_assoc, bind_modify, bind_ret_l in H. cbn [fst snd] in H.
    rewrite !bind_modify in H. unfold modify in H.
    injection H as <- _. cbn -[np_power].
    repeat split; try (eexists; reflexivity).
Qed.

(** X19.  What a successful full [run] ([decomp_only=False]) has done:
    it kept at least two eigenvalues, the decomposition stored is the
    one [compute_pca] computes for that number, the decomposition-only
    flag is off, the fit method is one of the two engines, and the
    widths, their errors, the index, the intercept and their ranges are
    all assigned. *)
Theorem run_full_outcome (self self' : PCA) (mean_sub : bool)
    (n_eigs_in : n_eigs_arg) (min_eigval : option npfloat)
    (eigen_cut_method spatial_method spectral_method fit_method : string)
    (beam_fwhm : option npfloat) (brunt_beamcorrect : bool)
    (w : list string) :
  run mean_sub false n_eigs_in min_eigval eigen_cut_method spatial_method
    spectral_method fit_method beam_fwhm brunt_beamcorrect self =
    (Ok tt, self', w) ->
  exists k : Z,
    (2 <= k)%Z /\
    selected self mean_sub n_eigs_in min_eigval eigen_cut_method k /\
    decomposition self' = decomposition (after_compute_pca self mean_sub k) /\
    _decomp_only self' = Some false /\
    (fit_method = "odr" \/ fit_method = "bayes") /\
    _fit_method self' = Some fit_method /\
    has _spatial_width self' /\ has _spatial_width_error self' /\
    has _spectral_width self' /\ has _spectral_width_error self' /\
    has _index self' /\ has _index_error_range self' /\
    has _intercept self' /\ has _intercept_error_range self'.
Proof.
  unfold run. cbn [negb]. intros H.
  inv_keep H.
  apply bind_inv in H. destruct H as ([] & s1 & ? & ? & E1 & H & _).
  apply compute_pca_outcome in E1. destruct E1 as (k & Hk & Hsel & -> & _).
  rewrite bind_modify in H.
  apply bind_inv in H. destruct H as ([] & s2 & ? & ? & E2 & H & _).
  apply bind_inv in H. destruct H as ([] & s3 & ? & ? & E3 & E4 & _).
  set (s1 := store_decomp_only false (after_compute_pca self mean_sub k)) in *.
  assert (Hd1 : decomposition s1 =
                decomposition (after_compute_pca self mean_sub k)).
  { unfold s1, after_compute_pca.
    destruct self as [d0 d1 d2 d3 d4 d5 d6 d7 d8 d9 d10 d11 d12 d13 d14 d15
      d16 d17 d18 d19 d20].
    reflexivity. }
  assert (Hn1 : _n_eigs s1 = Some k).
  { unfold s1, after_compute_pca.
    destruct self as [d0 d1 d2 d3 d4 d5 d6 d7 d8 d9 d10 d11 d12 d13 d14 d15
      d16 d17 d18 d19 d20].
    reflexivity. }
  exists k. split.
  { destruct (Z.eq_dec k 1) as [->|]; [|lia].
    pose proof (find_spatial_widths_single s1 spatial_method
                  brunt_beamcorrect a Hn1) as Hf.
    rewrite E2 in Hf. discriminate. }
  split; [exact Hsel|].
  pose proof (keeps_find_spatial_widths spatial_method brunt_beamcorrect a)
    as K2.
  pose proof (keeps_find_spectral_widths spectral_method) as K3.
  pose proof (keeps_fit_plaw fit_method) as K4.
  pose proof (@keeps_state _ _ _ _ _ _ _ _ K2 E2) as F2. cbv beta in F2.
  pose proof (@keeps_state _ _ _ _ _ _ _ _ K3 E3) as F3. cbv beta in F3.
  pose proof (@keeps_state _ _ _ _ _ _ _ _ K4 E4) as F4. cbv beta in F4.
  apply find_spatial_widths_sets in E2. destruct E2 as [[a1 A1] [a2 A2]].
  apply find_spectral_widths_sets in E3. destruct E3 as [[a3 A3] [a4 A4]].
  apply fit_plaw_sets in E4.
  destruct E4 as (Hm & Hflag & Hfm & Hi & Hir & Hc & Hcr & _).
  pose proof (f_equal (fun x => fst (fst (fst x))) F2) as F2d.
  pose proof (f_equal (fun x => fst (fst (fst x))) F3) as F3d.
  pose proof (f_equal (fun x => snd (fst x)) F3) as F3a.
  pose proof (f_equal snd F3) as F3b.
  pose proof (f_equal fst F4) as F4d.
  pose proof (f_equal snd F4) as F4w.
  cbn [fst snd] in F2d, F3d, F3a, F3b, F4d, F4w.
  unfold widths in F4w. injection F4w as W1 W2 W3 W4.
  split; [rewrite F4d, F3d, F2d; exact Hd1|].
  split; [exact Hflag|]. split; [exact Hm|]. split; [exact Hfm|].
  unfold has.
  repeat split; try assumption.
  - exists a1. congruence.
  - exists a2. congruence.
  - exists a3. congruence.
  - exists a4. congruence.
Qed.

End FullRun.

(* ----------------------------------------------------------------- *)
(** ** More on the eigenvalue distance *)

Module DistanceFacts.

Import PCADistance.
Import DistanceProperties.

(** The distance in closed form, for finite eigenvalues whose retained
    parts have sums other than zero and the same length. *)
Lemma distance_value (X Y : PCA) (mean_sub : bool) (n : Z)
    (d0 : option npfloat) (rx ry : list R) :
  _eigvals X = Some (fins rx) -> _eigvals Y = Some (fins ry) ->
  rsum (rslicer mean_sub n rx) <> 0 -> rsum (rslicer mean_sub n ry) <> 0 ->
  length (rslicer mean_sub n rx) = length (rslicer mean_sub n ry) ->
  distance_of (distance_metric (mk X Y mean_sub n d0)) =
  Ok (Some (Fin (sqrt (rsum (map sq
    (map2 Rminus
       (map (fun e => e / rsum (rslicer mean_sub n rx))
          (rslicer mean_sub n rx))
       (map (fun e => e / rsum (rslicer mean_sub n ry))
          (rslicer mean_sub n ry)))))))).
Proof.
  intros HX HY Hsx Hsy Hl.
  rewrite distance_of_metric, !eigvals_result, HX, HY. cbn [rbind].
  rewrite !normalized_fins by assumption.
  unfold broadcast2. unfold fins at 1 2. rewrite !length_map, Hl, Nat.eqb_refl.
  cbn [rbind]. rewrite map2_fsub_fins, norm_fins. reflexivity.
Qed.

Lemma py_slice_minus_one {A} (start : option Z) (l : list A) :
  py_slice start (Some (-1)%Z) l =
  py_slice start (Some (Z.of_nat (length l) - 1)%Z) l.
Proof.
  unfold py_slice, clamp_index. cbn [Z.ltb Z.compare].
  destruct (Z.ltb_spec (Z.of_nat (length l) - 1) 0) as [H|H].
  - replace (Z.of_nat (length l)) with 0%Z by lia. reflexivity.
  - do 3 f_equal. lia.
Qed.

Lemma slicer_minus_one (mean_sub : bool) (l : list npfloat) :
  slicer_of mean_sub (-1) l =
  removelast (if mean_sub then l else tl l).
Proof.
  unfold slicer_of. destruct mean_sub.
  - rewrite py_slice_minus_one. unfold py_slice, clamp_index.
    cbn [Z.ltb Z.compare].
    destruct (Z.ltb_spec (Z.of_nat (length l) - 1) 0) as [H|H].
    + destruct l; [reflexivity | cbn [length] in H; lia].
    + rewrite removelast_firstn_len. cbn [Z.to_nat skipn Z.min].
      replace (Z.min 0 (Z.of_nat (length l))) with 0%Z by lia.
      cbn [Z.to_nat skipn]. f_equal. lia.
  - rewrite py_slice_minus_one. unfold py_slice, clamp_index.
    cbn [Z.ltb Z.compare].
    destruct l as [|x t]; [reflexivity|].
    cbn [tl]. rewrite removelast_firstn_len.
    destruct (Z.ltb_spec (Z.of_nat (length (x :: t)) - 1) 0) as [H|H];
      [cbn [length] in H; lia|].
    replace (Z.min 1 (Z.of_nat (length (x :: t)))) with 1%Z
      by (cbn [length]; lia).
    change (Z.to_nat 1) with 1%nat. cbn [skipn].
    f_equal. cbn [length]. lia.
Qed.

(** X20.  In [PCA_Distance], [n_eigs=-1] does not compare all the
    eigenvalues: the slice ends at -1, so the last (smallest) one is
    dropped, and the distance is the one of [n_eigs = N - 1] for [N]
    eigenvalues. *)
Theorem distance_minus_one_drops_last (A B : PCA) (mean_sub : bool)
    (d0 : option npfloat) (ev1 ev2 : list npfloat) :
  _eigvals A = Some ev1 -> _eigvals B = Some ev2 ->
  length ev1 = length ev2 ->
  slicer_of mean_sub (-1) ev1 =
    removelast (if mean_sub then ev1 else tl ev1) /\
  slicer_of mean_sub (-1) ev2 =
    removelast (if mean_sub then ev2 else tl ev2) /\
  distance_of (distance_metric (mk A B mean_sub (-1) d0)) =
  distance_of
    (distance_metric (mk A B mean_sub (Z.of_nat (length ev1) - 1) d0)).
Proof.
  intros HA HB Hl.
  split; [apply slicer_minus_one|]. split; [apply slicer_minus_one|].
  rewrite !distance_of_metric, !eigvals_result, HA, HB. cbn [rbind].
  assert (Hs : forall ev, length ev = length ev1 ->
            slicer_of mean_sub (-1) ev =
            slicer_of mean_sub (Z.of_nat (length ev1) - 1) ev).
  { intros ev Hev. rewrite <- Hev. unfold slicer_of.
    destruct mean_sub; apply py_slice_minus_one. }
  unfold normalized.
  rewrite (Hs ev1 eq_refl), (Hs ev2 (eq_sym Hl)). reflexivity.
Qed.

Lemma Forall_firstn_keep {A} (P : A -> Prop) (k : nat) (l : list A) :
  Forall P l -> Forall P (firstn k l).
Proof.
  intros H. revert k. induction H as [|x t Hx Ht IH]; intros [|k]; cbn;
    constructor; auto.
Qed.

Lemma Forall_skipn_keep {A} (P : A -> Prop) (k : nat) (l : list A) :
  Forall P l -> Forall P (skipn k l).
Proof.
  intros H. revert k. induction H as [|x t Hx Ht IH]; intros [|k]; cbn;
    auto.
Qed.

Lemma Forall_py_slice {A} (P : A -> Prop) (s e : option Z) (l : list A) :
  Forall P l -> Forall P (py_slice s e l).
Proof.
  intros H. unfold py_slice.
  apply Forall_firstn_keep, Forall_skipn_keep, H.
Qed.

Lemma rslicer_short (mean_sub : bool) (n : Z) (l : list R) :
  (if mean_sub then n = 1 else 1 <= n <= 2)%Z ->
  (length (rslicer mean_sub n l) <= 1)%nat.
Proof.
  intros Hn. unfold rslicer, py_slice, clamp_index.
  destruct mean_sub.
  - subst n. cbn [Z.ltb Z.compare]. rewrite length_firstn. lia.
  - destruct (Z.ltb_spec n 0) as [|_]; [lia|].
    cbn [Z.ltb Z.compare]. rewrite length_firstn, length_skipn. lia.
Qed.

(** One retained eigenvalue, normalized, is 1. *)
Lemma normalized_short (mean_sub : bool) (n : Z) (l : list R) :
  (if mean_sub then n = 1 else 1 <= n <= 2)%Z ->
  Forall (fun x => x <> 0) l ->
  normalized (slicer_of mean_sub n) (fins l) = [] \/
  normalized (slicer_of mean_sub n) (fins l) = [Fin 1].
Proof.
  intros Hn Hnz.
  pose proof (@rslicer_short mean_sub n l Hn) as Hlen.
  assert (Hs : Forall (fun x => x <> 0) (rslicer mean_sub n l)).
  { unfold rslicer. destruct mean_sub; apply Forall_py_slice; exact Hnz. }
  unfold normalized. rewrite slicer_fins.
  destruct (rslicer mean_sub n l) as [|x [|y t]]; [left; reflexivity| |].
  - right. inversion Hs as [|? ? Hx _]; subst.
    cbn. rewrite Reqb_false by lra. do 2 f_equal. field. exact Hx.
  - cbn [length] in Hlen. lia.
Qed.

(** X21.  With a single eigenvalue left after the slice
    ([n_eigs=1] with [mean_sub=True]; [n_eigs=1] or [2] without, where
    the first eigenvalue is dropped) the distance says nothing: the
    normalized eigenvalue is 1 on both sides, or nothing is left, and
    the distance between any two cubes with non-zero finite eigenvalues
    is 0. *)
Theorem distance_of_one_eigenvalue_is_zero (A B : PCA) (mean_sub : bool)
    (n : Z) (d0 : option npfloat) (ra rb : list R) :
  _eigvals A = Some (fins ra) -> _eigvals B = Some (fins rb) ->
  Forall (fun x => x <> 0) ra -> Forall (fun x => x <> 0) rb ->
  (if mean_sub then n = 1 else 1 <= n <= 2)%Z ->
  distance_of (distance_metric (mk A B mean_sub n d0)) = Ok (Some (Fin 0)).
Proof.
  intros HA HB Ha Hb Hn.
  rewrite distance_of_metric, !eigvals_result, HA, HB. cbn [rbind].
  assert (H0 : sqrt 0 = 0) by apply sqrt_0.
  assert (H1 : sqrt (0 + (1 - 1) * (1 - 1)) = 0).
  { replace (0 + (1 - 1) * (1 - 1)) with 0 by ring. exact H0. }
  destruct (@normalized_short mean_sub n ra Hn Ha) as [-> | ->],
           (@normalized_short mean_sub n rb Hn Hb) as [-> | ->];
    cbn; rewrite Rltb_false by lra; rewrite ?H0, ?H1; reflexivity.
Qed.

(** *** Sums of squares *)

Lemma rsum_scale (c : R) (l : list R) :
  rsum (map (fun e => e / c) l) = rsum l / c.
Proof.
  induction l as [|x t IH]; cbn.
  - unfold Rdiv. ring.
  - unfold rsum in IH. rewrite IH. unfold Rdiv. ring.
Qed.

Lemma rsum_nonneg_all (l : list R) : Forall (fun x => 0 <= x) l -> 0 <= rsum l.
Proof.
  intros H. induction H as [|x t Hx Ht IH]; cbn; [lra|].
  unfold rsum in IH. lra.
Qed.

Lemma rsum_sq_le_sq_rsum (l : list R) :
  Forall (fun x => 0 <= x) l -> rsum (map sq l) <= sq (rsum l).
Proof.
  intros H. induction H as [|x t Hx Ht IH]; cbn.
  - unfold sq. lra.
  - pose proof (rsum_nonneg_all Ht) as Hs.
    unfold rsum in IH, Hs. unfold sq in *. nra.
Qed.

Lemma rsum_sq_diff_le (p q : list R) :
  Forall (fun x => 0 <= x) p -> Forall (fun x => 0 <= x) q ->
  rsum (map sq (map2 Rminus p q)) <= rsum (map sq p) + rsum (map sq q).
Proof.
  intros Hp. revert q. induction Hp as [|x t Hx Ht IH]; intros q Hq.
  - cbn. pose proof (rsum_sq_nonneg q). unfold rsum in *. lra.
  - destruct Hq as [|y u Hy Hu].
    + cbn. pose proof (rsum_sq_nonneg (x :: t)). unfold rsum in *.
      cbn in *. rewrite Rplus_0_r. assumption.
    + cbn. specialize (IH u Hu). unfold rsum in IH.
      assert (Hxy : sq (x - y) <= sq x + sq y) by (unfold sq; nra).
      lra.
Qed.







(** X23.  For eigenvalues that are not negative (those of a covariance
    matrix), the distance lies between 0 and the square root of 2. *)
Theorem distance_bounded (A B : PCA) (mean_sub : bool) (n : Z)
    (d0 : option npfloat) (ra rb : list R) :
  _eigvals A = Some (fins ra) -> _eigvals B = Some (fins rb) ->
  Forall (fun x => 0 <= x) ra -> Forall (fun x => 0 <= x) rb ->
  rsum (rslicer mean_sub n ra) <> 0 -> rsum (rslicer mean_sub n rb) <> 0 ->
  length (rslicer mean_sub n ra) = length (rslicer mean_sub n rb) ->
  exists d : R,
    distance_of (distance_metric (mk A B mean_sub n d0)) = Ok (Some (Fin d)) /\
    0 <= d <= sqrt 2.
Proof.
  intros HA HB Hpa Hpb Ha Hb Hl.
  eexists. split; [apply (@distance_value A B mean_sub n d0 ra rb HA HB Ha Hb Hl)|].
  split; [apply sqrt_pos|].
  apply sqrt_le_1_alt.
  assert (Hnorm : forall l : list R,
    Forall (fun x => 0 <= x) l -> rsum (rslicer mean_sub n l) <> 0 ->
    rsum (map sq (map (fun e => e / rsum (rslicer mean_sub n l))
                    (rslicer mean_sub n l))) <= 1).
  { intros l Hp Hs.
    assert (Hsl : Forall (fun x => 0 <= x) (rslicer mean_sub n l)).
    { unfold rslicer. destruct mean_sub; apply Forall_py_slice; exact Hp. }
    pose proof (rsum_nonneg_all Hsl) as H0.
    set (S := rsum (rslicer mean_sub n l)) in *.
    assert (HS : 0 < S) by lra.
    assert (Hq : Forall (fun x => 0 <= x)
                   (map (fun e => e / S) (rslicer mean_sub n l))).
    { apply Forall_map. revert Hsl. apply Forall_impl. intros x Hx.
      apply Rmult_le_pos; [exact Hx|].
      left. apply Rinv_0_lt_compat. exact HS. }
    pose proof (rsum_sq_le_sq_rsum Hq) as Hle.
    rewrite rsum_scale in Hle. fold S in Hle.
    replace (S / S) with 1 in Hle by (field; lra).
    unfold sq in Hle at 2. lra. }
  assert (Hq : forall l : list R,
    Forall (fun x => 0 <= x) l -> rsum (rslicer mean_sub n l) <> 0 ->
    Forall (fun x => 0 <= x)
      (map (fun e => e / rsum (rslicer mean_sub n l)) (rslicer mean_sub n l))).
  { intros l Hp Hs.
    assert (Hsl : Forall (fun x => 0 <= x) (rslicer mean_sub n l)).
    { unfold rslicer. destruct mean_sub; apply Forall_py_slice; exact Hp. }
    pose proof (rsum_nonneg_all Hsl) as H0.
    apply Forall_map. revert Hsl. apply Forall_impl. intros x Hx.
    apply Rmult_le_pos; [exact Hx|].
    left. apply Rinv_0_lt_compat. lra. }
  pose proof (rsum_sq_diff_le (Hq ra Hpa Ha) (Hq rb Hpb Hb)).
  pose proof (Hnorm ra Hpa Ha). pose proof (Hnorm rb Hpb Hb). lra.
Qed.


End DistanceFacts.

(* ----------------------------------------------------------------- *)
(** ** Which modes count as valid *)

Lemma where_from_descending (t : npfloat) (l : list npfloat) :
  descending l ->
  forall i : nat,
    where_from i (map (fun e => fge e t) l) =
    seq i (length (filter (fun e => fge e t) l)).
Proof.
  intros Hd. induction Hd as [|x l' Hs IH Hall]; intros i; cbn.
  - reflexivity.
  - destruct (fge x t) eqn:Hx.
    + cbn. rewrite IH. reflexivity.
    + assert (Hnone : Forall (fun e => fge e t = false) l').
      { revert Hall. apply Forall_impl. intros e He. unfold fge in *.
        destruct (fle t e) eqn:Hte; [|reflexivity].
        rewrite (fle_trans _ _ _ Hte He) in Hx. discriminate. }
      rewrite (filter_none _ Hnone).
      clear IH Hs Hall. revert i.
      induction Hnone as [|e l'' He Hl IH]; intros i; cbn; [reflexivity|].
      rewrite He. apply IH.
Qed.

Lemma lastn_seq (k m : nat) :
  lastn k (seq 0 m) = seq (m - Nat.min k m) (Nat.min k m).
Proof.
  unfold lastn. rewrite length_seq, skipn_seq. f_equal; lia.
Qed.

Section ValidModes.

Context {collab : Collaborators}.

(** X25.  On eigenvalues in descending order, as [compute_pca] stores
    them, the valid eigenvectors (eigenvalue at least the machine
    epsilon) are the leading ones, [0 .. m-1]; a negative [n_eigs]
    therefore selects the consecutive modes
    [m - |n_eigs| .. m-1], the smallest valid eigenvalues, and all [m]
    of them when there are fewer than [|n_eigs|]. *)
Theorem valid_eigenvectors_are_leading (self : PCA) (ev : list npfloat) :
  _eigvals self = Some ev ->
  descending ev ->
  let m := length (filter (fun e => fge e (Fin (finfo_eps (dtype self)))) ev) in
  _valid_eigenvectors self = (Ok (seq 0 m), self, []) /\
  (forall n : Z, (n < 0)%Z ->
     eigimages_iterat n self =
       (Ok (seq (m - Nat.min (Z.to_nat (- n)) m) (Nat.min (Z.to_nat (- n)) m)),
        self, [])).
Proof.
  intros Hev Hd m.
  assert (Hv : _valid_eigenvectors self = (Ok (seq 0 m), self, [])).
  { rewrite (valid_eigenvectors_run self Hev). unfold np_where.
    rewrite (where_from_descending _ Hd). reflexivity. }
  split; [exact Hv|].
  intros n Hn. unfold eigimages_iterat.
  destruct (Z.gtb_spec n 0) as [|_]; [lia|].
  destruct (Z.ltb_spec n 0) as [_|]; [|lia].
  erewrite bind_ok by exact Hv.
  unfold ret, result_of, state_of, warnings_of. cbn [fst snd app].
  rewrite py_slice_negative_start by exact Hn.
  rewrite lastn_seq. reflexivity.
Qed.

End ValidModes.

(* ----------------------------------------------------------------- *)
(** ** Construction *)

Lemma patch_nan_idempotent (d : float_dtype) (x : npfloat) :
  patch_nan d (patch_nan d x) = patch_nan d x.
Proof. destruct x; reflexivity. Qed.

Lemma map_id_on {A} (f : A -> A) (l : list A) :
  Forall (fun a => f a = a) l -> map f l = l.
Proof.
  intros H. induction H as [|a t Ha Ht IH]; cbn; [reflexivity|].
  rewrite Ha, IH. reflexivity.
Qed.

(** X26.  Patching a cube is idempotent, leaves a cube without NaN as
    it is, and keeps the shape: the number of channels, of rows in
    every channel and of samples in every row. *)
Theorem patch_cube_idempotent (d : float_dtype) (c : cube) :
  patch_cube d (patch_cube d c) = patch_cube d c /\
  (cube_forall (fun x => negb (isnan x)) c = true -> patch_cube d c = c) /\
  map (map (@length npfloat)) (patch_cube d c) = map (map (@length npfloat)) c.
Proof.
  unfold patch_cube. split; [|split].
  - rewrite map_map. apply map_ext. intros im.
    rewrite map_map. apply map_ext. intros row.
    rewrite map_map. apply map_ext. intros x. apply patch_nan_idempotent.
  - unfold cube_forall. intros H. rewrite forallb_forall in H.
    apply map_id_on. apply Forall_forall. intros im Him.
    specialize (H im Him). rewrite forallb_forall in H.
    apply map_id_on. apply Forall_forall. intros row Hrow.
    specialize (H row Hrow). rewrite forallb_forall in H.
    apply map_id_on. apply Forall_forall. intros x Hx.
    specialize (H x Hx). unfold patch_nan. destruct (isnan x);
      [discriminate | reflexivity].
  - rewrite map_map. apply map_ext. intros im.
    rewrite map_map. apply map_ext. intros row. apply length_map.
Qed.

Section FreshInstance.

Context {collab : Collaborators}.

(** X27.  A freshly constructed instance holds no result: until
    [compute_pca] has run, the accessors, the eigenimage and
    autocorrelation queries, the width stages (without beam
    correction), the fit with a valid method and the sonic length all
    raise AttributeError. *)
Theorem fresh_instance_has_no_results (c : cube_input) (self : PCA)
    (method : string) (beam_fwhm : option npfloat)
    (T_k mu : npfloat) (use_gamma : bool) :
  PCA_init c None = Ok self ->
  spectral_shape self = Z.of_nat (length (arr c)) /\
  exn_class_of (result_of (n_eigs self)) = Some AttributeError /\
  exn_class_of (result_of (eigvals self)) = Some AttributeError /\
  exn_class_of (result_of (eigvecs self)) = Some AttributeError /\
  exn_class_of (result_of (var_proportion self)) = Some AttributeError /\
  exn_class_of (result_of (total_variance self)) = Some AttributeError /\
  exn_class_of (result_of (eigimages None self)) = Some AttributeError /\
  exn_class_of (result_of (autocorr_images None self)) = Some AttributeError /\
  exn_class_of (result_of (autocorr_spec None self)) = Some AttributeError /\
  exn_class_of (result_of (noise_ACF (Some (-10)%Z) self))
    = Some AttributeError /\
  exn_class_of (result_of (find_spatial_widths method false beam_fwhm self))
    = Some AttributeError /\
  exn_class_of (result_of (find_spectral_widths method self))
    = Some AttributeError /\
  exn_class_of (result_of (fit_plaw "odr" self)) = Some AttributeError /\
  exn_class_of (result_of (fit_plaw "bayes" self)) = Some AttributeError /\
  exn_class_of (result_of (gamma self)) = Some AttributeError /\
  exn_class_of (result_of (sonic_length (Some T_k) mu use_gamma self))
    = Some AttributeError.
Proof.
  unfold PCA_init, _enforce_velocity_axis.
  destruct (spectral_is_velocity c); [|discriminate].
  cbn [negb rbind]. intros H. injection H as <-.
  split; [cbn; unfold patch_cube; rewrite length_map; reflexivity|].
  repeat split;
    try (destruct use_gamma); reflexivity.
Qed.

End FreshInstance.

(* ----------------------------------------------------------------- *)
(** ** Building a [PCA_Distance] *)

Section DistanceBuild.

Context {collab : Collaborators}.

Lemma decompose_outcome (c : cube_input) (mean_sub : bool) (k : Z) (p : PCA) :
  PCADistance.decompose c mean_sub k = Ok p ->
  exists (p0 : PCA) (k' : Z),
    PCA_init c None = Ok p0 /\
    (0 < k')%Z /\
    selected p0 mean_sub (Count k) None "value" k' /\
    p = after_compute_pca p0 mean_sub k'.
Proof.
  unfold PCADistance.decompose. destruct (PCA_init c None) as [p0|e]; [|discriminate].
  cbn [rbind]. rewrite run_decomp_only_eq.
  destruct (compute_pca mean_sub (Count k) None "value" p0)
    as [[[[]|e] s] w] eqn:E; [|discriminate].
  intros H. injection H as <-.
  apply compute_pca_outcome in E. destruct E as (k' & Hk & Hsel & -> & _).
  exists p0, k'. repeat split; assumption.
Qed.

(** X29.  What a [PCA_Distance] built from two cubes holds: 'auto' is
    refused with ValueError whatever the cubes are; otherwise [n_eigs]
    is -1 or lies between 1 and the number of channels of either cube,
    both decompositions are complete (eigenvalues assigned, flagged as
    decomposition only, the same [mean_sub]), each retains [n_eigs]
    eigenvalues, or all its own channels for -1, and no distance has
    been computed yet. *)
Theorem distance_init_outcome (cube1 cube2 : cube_input) (mean_sub : bool) :
  exn_class_of (PCADistance.init cube1 cube2 Auto None mean_sub) = Some ValueError /\
  (forall (k : Z) (t0 : PCADistance.t),
     PCADistance.init cube1 cube2 (Count k) None mean_sub = Ok t0 ->
     (k = (-1)%Z \/
      (1 <= k <= Z.of_nat (length (arr cube1)))%Z /\
      (k <= Z.of_nat (length (arr cube2)))%Z) /\
     _n_eigs (PCADistance.pca1 t0) =
       Some (if (k =? -1)%Z then Z.of_nat (length (arr cube1)) else k) /\
     _n_eigs (PCADistance.pca2 t0) =
       Some (if (k =? -1)%Z then Z.of_nat (length (arr cube2)) else k) /\
     has _eigvals (PCADistance.pca1 t0) /\ has _eigvals (PCADistance.pca2 t0) /\
     _decomp_only (PCADistance.pca1 t0) = Some true /\
     _decomp_only (PCADistance.pca2 t0) = Some true /\
     _mean_sub (PCADistance.pca1 t0) = Some mean_sub /\
     _mean_sub (PCADistance.pca2 t0) = Some mean_sub /\
     PCADistance._mean_sub t0 = mean_sub /\ PCADistance._n_eigs t0 = k /\
     PCADistance.distance t0 = None).
Proof.
  split; [reflexivity|].
  intros k t0. unfold PCADistance.init.
  destruct (PCADistance.decompose cube1 mean_sub k) as [p1|e] eqn:E1; [|discriminate].
  cbn [rbind].
  destruct (PCADistance.decompose cube2 mean_sub k) as [p2|e] eqn:E2; [|discriminate].
  cbn [rbind]. intros H. injection H as <-. cbn [PCADistance.pca1 PCADistance.pca2 PCADistance._mean_sub
    PCADistance._n_eigs PCADistance.distance].
  apply decompose_outcome in E1. destruct E1 as (q1 & k1 & I1 & P1 & S1 & ->).
  apply decompose_outcome in E2. destruct E2 as (q2 & k2 & I2 & P2 & S2 & ->).
  assert (Hshape : forall c q, PCA_init c None = Ok q ->
            spectral_shape q = Z.of_nat (length (arr c))).
  { intros c q. unfold PCA_init, _enforce_velocity_axis.
    destruct (spectral_is_velocity c); [|discriminate].
    cbn [negb rbind]. intros H. injection H as <-.
    cbn. unfold patch_cube. rewrite length_map. reflexivity. }
  rewrite <- (Hshape _ _ I1), <- (Hshape _ _ I2).
  assert (Hf : forall q ms kk,
    _n_eigs (after_compute_pca q ms kk) = Some kk /\
    has _eigvals (after_compute_pca q ms kk) /\
    _decomp_only (after_compute_pca q ms kk) = Some true /\
    _mean_sub (after_compute_pca q ms kk) = Some ms).
  { intros q ms kk. unfold after_compute_pca, has.
    destruct q as [d0 d1 d2 d3 d4 d5 d6 d7 d8 d9 d10 d11 d12 d13 d14 d15 d16
      d17 d18 d19 d20].
    cbn. repeat split. eexists. reflexivity. }
  destruct (Hf q1 mean_sub k1) as (N1 & V1 & D1 & M1).
  destruct (Hf q2 mean_sub k2) as (N2 & V2 & D2 & M2).
  unfold selected in S1, S2.
  destruct S1 as [[-> ->]|[R1 ->]], S2 as [[Hk ->]|[R2 ->]]; try lia;
    cbn [Z.eqb]; rewrite ?N1, ?N2.
  - repeat split; auto.
  - destruct (Z.eqb_spec k (-1)) as [|_]; [lia|].
    repeat split; auto. right. lia.
Qed.

End DistanceBuild.

(* ----------------------------------------------------------------- *)
(** ** The sonic length of an ODR fit *)

Lemma Int_part_2 : Int_part 2 = 2%Z.
Proof. symmetry. apply Int_part_spec. lra. Qed.

Lemma np_power_square (x : npfloat) :
  isfinite x = true ->
  exists v : R, np_power x (Fin 2) = Fin v /\ 0 <= v.
Proof.
  destruct x as [a| | |]; try discriminate. intros _.
  cbn. rewrite Reqb_false by lra.
  unfold Rltb. destruct (Rlt_dec 0 a) as [Ha|Ha].
  - eexists. split; [reflexivity|]. left. apply exp_pos.
  - unfold Reqb. destruct (Req_dec_T a 0) as [H0|H0].
    + destruct (Rlt_dec 0 2); [|lra]. exists 0. split; [reflexivity | lra].
    + unfold is_integer. rewrite Int_part_2. rewrite Reqb_true by reflexivity.
      cbn [Z.odd]. eexists. split; [reflexivity|].
      rewrite Rmult_1_l. left. apply exp_pos.
Qed.

Lemma fdiv_fin (x y : R) : y <> 0 -> fdiv (Fin x) (Fin y) = Fin (x / y).
Proof. intros H. cbn. rewrite Reqb_false by exact H. reflexivity. Qed.

Lemma np_log10_pos (x : R) : 0 < x -> np_log10 (Fin x) = Fin (ln x / ln 10).
Proof. intros H. cbn. rewrite Rltb_true by exact H. reflexivity. Qed.

Lemma odr_error_range_shape (c b blo gi glo : R) :
  0 < c -> 0 < b -> gi <> 0 ->
  exists L E : R,
    np_power (fdiv (Fin c) (Fin b)) (fdiv (Fin 1) (Fin gi)) = Fin L /\
    L = Rpower (c / b) (1 / gi) /\
    odr_error_range (Fin c) (Fin gi) (Fin glo) (Fin b) (Fin blo) (Fin L) =
      [Fin (L - E); Fin (L + E)] /\
    (0 < gi -> 0 <= E) /\ (gi < 0 -> E <= 0).
Proof.
  intros Hc Hb Hg.
  assert (Hcb : 0 < c / b) by (apply Rdiv_lt_0_compat; assumption).
  assert (Hinv : 1 / gi <> 0).
  { unfold Rdiv. rewrite Rmult_1_l. apply Rinv_neq_0_compat. exact Hg. }
  exists (Rpower (c / b) (1 / gi)).
  assert (HL : 0 < Rpower (c / b) (1 / gi)) by apply exp_pos.
  set (L := Rpower (c / b) (1 / gi)) in *.
  unfold odr_error_range.
  rewrite !fdiv_fin by lra.
  cbn [fsub fabs fmul]. rewrite !fdiv_fin by lra.
  rewrite np_log10_pos by exact Hcb. cbn [fmul].
  destruct (@np_power_square (Fin (ln (c / b) / ln 10 * (Rabs (gi - glo) / gi)))
              eq_refl) as (v1 & -> & Hv1).
  destruct (@np_power_square (Fin (0.434 * Rabs (b - blo) / b / b)) eq_refl)
    as (v2 & -> & Hv2).
  cbn [fadd fsqrt]. rewrite Rltb_false by lra. cbn [fmul fsub fadd].
  exists (L / gi * sqrt (v1 + v2)).
  split.
  { cbn. rewrite Reqb_false by exact Hinv. rewrite Rltb_true by exact Hcb.
    reflexivity. }
  split; [reflexivity|]. split; [reflexivity|].
  pose proof (sqrt_pos (v1 + v2)) as Hs.
  split; intros Hgi.
  - apply Rmult_le_pos; [|exact Hs].
    left. apply Rdiv_lt_0_compat; assumption.
  - assert (L / gi < 0).
    { unfold Rdiv. apply Rmult_pos_neg; [exact HL|].
      apply Rinv_lt_0_compat. exact Hgi. }
    nra.
Qed.

Section SonicOdr.

Context {collab : Collaborators}.

(** X30.  After an ODR fit with a finite index other than 0 and a
    positive intercept, and for a positive sound speed, [sonic_length]
    (without the gamma correction) returns the positive length
    [(c_s / intercept) ** (1 / index)] with a range [L - E, L + E]
    whose half-width [E] has the sign of the index: for a negative
    index the first bound is the larger one. *)
Theorem sonic_length_odr_range (self : PCA) (T_k mu : npfloat)
    (c i ilo b blo : R) (irest brest : list npfloat) :
  _fit_method self = Some "odr" ->
  _index self = Some (Fin i) ->
  _index_error_range self = Some (Fin ilo :: irest) ->
  _intercept self = Some (Fin b) ->
  _intercept_error_range self = Some (Fin blo :: brest) ->
  sound_speed_pix T_k mu = Fin c ->
  0 < c -> 0 < b -> i <> 0 ->
  exists L E : R,
    sonic_length (Some T_k) mu false self =
      (Ok (Fin L, [Fin (L - E); Fin (L + E)]), self, []) /\
    L = Rpower (c / b) (1 / i) /\ 0 < L /\
    (0 < i -> 0 <= E) /\ (i < 0 -> E <= 0).
Proof.
  intros Hfm Hi Hir Hb Hbr Hcs Hc Hbpos Hi0.
  destruct (@odr_error_range_shape c b blo i ilo Hc Hbpos Hi0)
    as (L & E & HL & HLv & Hrange & Hpos & Hneg).
  exists L, E.
  split.
  - unfold sonic_length, index, index_error_range, intercept,
      intercept_error_range.
    rewrite bind_ret_l.
    erewrite !bind_assoc.
    erewrite bind_attr by exact Hi.
    erewrite bind_assoc.
    erewrite bind_attr by exact Hir.
    rewrite bind_ret_l. cbn [fst snd].
    erewrite bind_attr by exact Hb.
    erewrite bind_attr by exact Hfm.
    change ("odr" =? "odr") with true. cbv iota.
    rewrite !bind_assoc. cbn [item nth_error].
    rewrite bind_lift_ok.
    rewrite !bind_assoc.
    erewrite bind_attr by exact Hbr.
    rewrite !bind_assoc. cbn [item nth_error].
    rewrite bind_lift_ok, !bind_ret_l.
    rewrite Hcs, HL, Hrange. reflexivity.
  - split; [exact HLv|]. split; [rewrite HLv; apply exp_pos|].
    split; assumption.
Qed.

End SonicOdr.

(* ================================================================= *)
(** * Further properties on the worked inputs *)

Lemma diag_sorted_eigenvalues :
  sorted_eigenvalues (collab := diag_collab) diag_init false = fins [12; 3; 3].
Proof.
  unfold sorted_eigenvalues, np_sort, sort_by. np_eval. reflexivity.
Qed.

Lemma eigimages_of_decomposed :
  eigimages (Some (-2)%Z) decomposed =
    (Ok (Arr3 [[fins [0]; fins [0]; fins [3]];
               [fins [0]; fins [3]; fins [0]]]), decomposed, []).
Proof.
  pose proof (finfo_eps_small Float64) as Hs.
  pose proof (finfo_eps_pos Float64) as Hp.
  unfold eigimages, eigimages_iterat, _valid_eigenvectors,
      eigimage, stack_results, eigvals, eigvecs, decomposed.
  np_eval. np_finish.
Qed.

Lemma diag_cube_full_run :
  run (collab := diag_collab) false false (Count 3) None "value" "contour"
    "walk-down" "odr" None false diag_init =
    (Ok tt, fully_run, [few_points_warning]).
Proof.
  pose proof (finfo_eps_small Float64) as Hs.
  pose proof (finfo_eps_pos Float64) as Hp.
  unfold run, compute_pca, diag_init, n_eigs_setter, n_eigs, total_variance,
    fully_run, decomposed, few_points_warning.
  np_eval.
  unfold find_spatial_widths, n_eigs. np_eval.
  unfold autocorr_images, eigimages, eigimages_iterat, _valid_eigenvectors,
    eigimage, stack_results, eigvals, eigvecs, n_eigs.
  np_eval.
  unfold noise_ACF, autocorr_images, eigimages, eigimages_iterat,
    _valid_eigenvectors, eigimage, stack_results, eigvals, eigvecs, n_eigs.
  np_eval.
  unfold find_spectral_widths, autocorr_spec, n_eigs, eigvecs. np_eval.
  unfold fit_plaw, spectral_width, spatial_width, spatial_width_error,
    spectral_width_error.
  np_eval. rewrite bind_warn. np_eval. np_finish.
Qed.

Lemma decomposed_descending : descending (fins [12; 3; 3]).
Proof.
  unfold descending, fins. cbn [map].
  repeat (constructor; try (cbn; apply Rleb_true; lra)).
Qed.

Lemma diag_distance_init :
  PCADistance.init (collab := diag_collab) diag_cube diag_cube (Count 3) None
    false = Ok (PCADistance.mk decomposed decomposed false 3 None).
Proof.
  unfold PCADistance.init, PCADistance.decompose.
  rewrite diag_cube_init. cbn [rbind]. rewrite diag_cube_runs. reflexivity.
Qed.

Lemma set_n_eigs_monotone_witness :
  exists v1 v2 p1 p2 : Z,
    set_n_eigs (fins [12; 3; 3]) (Fin 1) "value" = Ok v1 /\
    set_n_eigs (fins [12; 3; 3]) (Fin 5) "value" = Ok v2 /\
    (v2 <= v1)%Z /\
    set_n_eigs (fins [12; 3; 3]) (Fin 1) "proportion" = Ok p1 /\
    set_n_eigs (fins [12; 3; 3]) (Fin 5) "proportion" = Ok p2 /\
    (p1 <= p2)%Z.
Proof.
  apply (@set_n_eigs_monotone (fins [12; 3; 3]) (Fin 1) (Fin 5)).
  cbn. apply Rleb_true. lra.
Defined.

Lemma set_n_eigs_range_witness :
  exists n : Z,
    set_n_eigs (fins [12; 3; 3]) (Fin 5) "value" = Ok n /\
    (0 <= n <= 3)%Z.
Proof.
  exact (proj1 (@set_n_eigs_range (fins [12; 3; 3]) (Fin 5) "value")
           (or_introl eq_refl)).
Defined.

Lemma compute_pca_n_eigs_range_witness :
  exists k : Z,
    _n_eigs decomposed = Some k /\
    (1 <= k)%Z /\
    (forall n : Z, Count 3 = Count n ->
       (k <= spectral_shape diag_init)%Z /\
       (n = (-1)%Z -> k = spectral_shape diag_init) /\
       (n <> (-1)%Z -> k = n)) /\
    (Count 3 = Auto ->
       (k <= Z.of_nat (length (fst (eigh (Collaborators := diag_collab)
                                      (var_cov_cube
                                         (Collaborators := diag_collab)
                                         (covariance_input diag_init)
                                         false)))))%Z).
Proof.
  exact (@compute_pca_n_eigs_range diag_collab diag_init decomposed false
           (Count 3) None "value" [] diag_cube_decomposes).
Defined.

Lemma compute_pca_eigvals_sorted_witness :
  exists all : list npfloat,
    _eigvals decomposed = Some all /\
    Permutation all (fins [3; 3; 12]) /\
    (no_nan (fins [3; 3; 12]) -> descending all).
Proof.
  exact (@compute_pca_eigvals_sorted diag_collab diag_init decomposed false
           (Count 3) None "value" [] diag_cube_decomposes).
Defined.

Lemma compute_pca_var_prop_bounds_witness :
  exists (k : Z) (v : R),
    _n_eigs decomposed = Some k /\
    _var_prop decomposed = Some (Fin v) /\
    0 <= v <= 1 /\
    ((Z.of_nat (length [12; 3; 3]) <= k)%Z -> v = 1) /\
    (false = false -> k = 1%Z -> v = 0).
Proof.
  apply (@compute_pca_var_prop_bounds diag_collab diag_init decomposed false
           (Count 3) None "value" [] [12; 3; 3] diag_cube_decomposes
           diag_sorted_eigenvalues).
  - repeat constructor; lra.
  - cbn. lra.
Defined.

Lemma compute_pca_keeps_earlier_fit_witness :
  _decomp_only decomposed = Some true /\
  _data decomposed = _data diag_init /\
  _index decomposed = _index diag_init.
Proof.
  pose proof (@compute_pca_keeps_earlier_fit diag_collab diag_init decomposed
                false (Count 3) None "value" [] diag_cube_decomposes) as H.
  destruct H as (_ & H1 & _ & _ & H2 & _ & _ & _ & _ & _ & _ & _ & H3 & _).
  split; [exact H1|]. split; [exact H2 | exact H3].
Defined.

Lemma compute_pca_rejected_count_witness :
  exn_class_of
    (result_of (compute_pca (collab := diag_collab) false (Count 0) None
                  "value" diag_init)) = Some PyWarning /\
  _n_eigs (state_of (compute_pca (collab := diag_collab) false (Count 0) None
                       "value" diag_init)) = None.
Proof.
  pose proof (proj2 (@compute_pca_rejected_count diag_collab diag_init false
                       None "value") 0%Z (or_introl eq_refl)) as H.
  cbv zeta in H. destruct H as (H1 & _ & H2 & _).
  split; [exact H1 | exact H2].
Defined.

Lemma compute_pca_auto_rejected_witness :
  exn_class_of
    (result_of (compute_pca (collab := diag_collab) false Auto
                  (Some (Fin 100)) "value" diag_init)) = Some ValueError.
Proof.
  pose proof (@compute_pca_auto_rejected diag_collab diag_init false (Fin 100)
                "value") as H.
  cbv zeta in H. destruct H as (_ & H & _).
  apply H; [reflexivity|].
  rewrite diag_sorted_eigenvalues.
  repeat constructor; cbn; apply Rleb_false; lra.
Defined.



Lemma gamma_within_its_range_witness :
  exists g glo ghi : npfloat,
    result_of (gamma fitted_bayes) = Ok g /\
    result_of (gamma_error_range fitted_bayes) = Ok [glo; ghi] /\
    fle glo g = true /\ fle g ghi = true.
Proof.
  apply (@gamma_within_its_range fitted_bayes (Fin 1) (Fin 0.5) (Fin 2)
           eq_refl eq_refl).
  - cbn. apply Rleb_true. lra.
  - cbn. apply Rleb_true. lra.
Defined.

Lemma eigimages_count_witness :
  n_images (Arr3 [[fins [0]; fins [0]; fins [3]];
                  [fins [0]; fins [3]; fins [0]]]) = 2%nat /\
  exists ev : list npfloat,
    _eigvals decomposed = Some ev /\
    2%nat =
      Nat.min (Z.to_nat (- (-2)))
        (length (filter (fun e => fge e (Fin (finfo_eps (dtype decomposed))))
                   ev)).
Proof.
  split; [reflexivity|].
  pose proof (@eigimages_count decomposed decomposed (-2)%Z _ []
                eigimages_of_decomposed) as H.
  destruct H as (_ & _ & _ & H). apply H. lia.
Defined.

Lemma fit_plaw_odr_ranges_witness :
  exists i lo hi c clo chi : npfloat,
    _index fitted_odr = Some i /\
    _index_error_range fitted_odr = Some [lo; hi] /\
    _intercept fitted_odr = Some c /\
    _intercept_error_range fitted_odr = Some [clo; chi] /\
    (fle lo hi = true -> fle lo i = true /\ fle i hi = true) /\
    (fle clo chi = true -> fle clo c = true /\ fle c chi = true) /\
    _fit_method fitted_odr = Some "odr" /\
    _samps fitted_odr = _samps measured.
Proof.
  exact (@fit_plaw_odr_ranges diag_collab measured fitted_odr
           [few_points_warning] measured_fits_odr).
Defined.

Lemma run_without_beam_fails_first_witness :
  run (collab := diag_collab) false false (Count 3) None "value" "contour"
    "walk-down" "odr" None true diag_init =
  (Raise (Exn ValueError "Cannot load beam size from the header."),
   diag_init, []).
Proof.
  exact (@run_without_beam_fails_first diag_collab diag_init false (Count 3)
           None "value" "contour" "walk-down" "odr" eq_refl).
Defined.

Lemma run_full_outcome_witness :
  exists k : Z,
    (2 <= k)%Z /\
    selected (collab := diag_collab) diag_init false (Count 3) None "value" k /\
    decomposition fully_run =
      decomposition (after_compute_pca (collab := diag_collab) diag_init
                       false k) /\
    _decomp_only fully_run = Some false /\
    ("odr" = "odr" \/ "odr" = "bayes") /\
    _fit_method fully_run = Some "odr" /\
    has _spatial_width fully_run /\ has _spatial_width_error fully_run /\
    has _spectral_width fully_run /\ has _spectral_width_error fully_run /\
    has _index fully_run /\ has _index_error_range fully_run /\
    has _intercept fully_run /\ has _intercept_error_range fully_run.
Proof.
  exact (@run_full_outcome diag_collab diag_init fully_run false (Count 3)
           None "value" "contour" "walk-down" "odr" None false
           [few_points_warning] diag_cube_full_run).
Defined.

Lemma distance_minus_one_drops_last_witness :
  PCADistance.slicer_of false (-1) (fins [12; 3; 3]) = fins [3] /\
  distance_of
    (PCADistance.distance_metric
       (PCADistance.mk decomposed other_decomposed false (-1) None)) =
  distance_of
    (PCADistance.distance_metric
       (PCADistance.mk decomposed other_decomposed false 2 None)).
Proof.
  pose proof (@DistanceFacts.distance_minus_one_drops_last decomposed
                other_decomposed false None (fins [12; 3; 3])
                (fins [9; 6; 3]) eq_refl eq_refl eq_refl) as H.
  destruct H as (H1 & _ & H2). split; [exact H1 | exact H2].
Defined.

Lemma distance_of_one_eigenvalue_is_zero_witness :
  distance_of
    (PCADistance.distance_metric
       (PCADistance.mk decomposed other_decomposed true 1 None)) =
  Ok (Some (Fin 0)).
Proof.
  apply (@DistanceFacts.distance_of_one_eigenvalue_is_zero decomposed
           other_decomposed true 1 None [12; 3; 3] [9; 6; 3] eq_refl eq_refl).
  - repeat constructor; lra.
  - repeat constructor; lra.
  - reflexivity.
Defined.


Lemma distance_bounded_witness :
  exists d : R,
    distance_of
      (PCADistance.distance_metric
         (PCADistance.mk decomposed other_decomposed false 3 None)) =
      Ok (Some (Fin d)) /\
    0 <= d <= sqrt 2.
Proof.
  apply (@DistanceFacts.distance_bounded decomposed other_decomposed false 3
           None [12; 3; 3] [9; 6; 3] eq_refl eq_refl).
  1, 2: repeat constructor; lra.
  all: unfold rslicer, py_slice, clamp_index, rsum; np_eval;
    try reflexivity; lra.
Defined.


Lemma valid_eigenvectors_are_leading_witness :
  _valid_eigenvectors decomposed =
    (Ok (seq 0 (length (filter
                          (fun e => fge e (Fin (finfo_eps (dtype decomposed))))
                          (fins [12; 3; 3])))),
     decomposed, []).
Proof.
  exact (proj1 (@valid_eigenvectors_are_leading decomposed (fins [12; 3; 3])
                  eq_refl decomposed_descending)).
Defined.

Lemma patch_cube_idempotent_witness :
  patch_cube Float64 (arr diag_cube) = arr diag_cube.
Proof.
  apply (proj1 (proj2 (patch_cube_idempotent Float64 (arr diag_cube)))).
  reflexivity.
Defined.

Lemma fresh_instance_has_no_results_witness :
  spectral_shape diag_init = 3%Z /\
  exn_class_of (result_of (eigimages None diag_init)) = Some AttributeError /\
  exn_class_of (result_of (fit_plaw (collab := diag_collab) "odr" diag_init))
    = Some AttributeError.
Proof.
  pose proof (@fresh_instance_has_no_results diag_collab diag_cube diag_init
                "contour" None (Fin 10) (Fin 1.36) true diag_cube_init) as H.
  destruct H as (H1 & _ & _ & _ & _ & _ & H2 & _ & _ & _ & _ & _ & H3 & _).
  split; [exact H1|]. split; [exact H2 | exact H3].
Defined.

Lemma distance_init_outcome_witness :
  _n_eigs decomposed = Some 3%Z /\ has _eigvals decomposed.
Proof.
  pose proof (proj2 (@distance_init_outcome diag_collab diag_cube diag_cube
                       false) 3%Z _ diag_distance_init) as H.
  cbn [PCADistance.pca1 PCADistance.pca2] in H.
  destruct H as (_ & H1 & _ & H2 & _). split; [exact H1 | exact H2].
Defined.

Lemma sonic_length_odr_range_witness :
  exists L E : R,
    sonic_length (collab := diag_collab) (Some (Fin 10)) (Fin 1.36) false
      fitted_odr =
      (Ok (Fin L, [Fin (L - E); Fin (L + E)]), fitted_odr, []) /\
    L = Rpower (4 / 1) (1 / 1) /\ 0 < L /\
    (0 < 1 -> 0 <= E) /\ (1 < 0 -> E <= 0).
Proof.
  apply (@sonic_length_odr_range diag_collab fitted_odr (Fin 10) (Fin 1.36)
           4 1 0.9 1 (Rpower 10 (-0.2)) [Fin 1.1] [Fin (Rpower 10 0.2)]
           eq_refl eq_refl eq_refl eq_refl eq_refl eq_refl); lra.
Defined.
